(** * VMTranslator: a shallow embedding of the VM-to-Hack code generator

    The development follows the layout of the repository:

    - [Py]          the few Python string and path primitives the code relies on;
    - [Command]     Command.py, the instruction model;
    - [Parser]      Parser.py, cleaning of an input unit;
    - [CodeWriter]  CodeWriter.py, the code generator with its mutable state;
    - [Main]        VMTranslator.py, the driver of a translation job;
    - [Hack]        the target machine the generated text is meant for;
    - [Job]         the public methods of the code writer as data, and the
                    text a sequence of them emits;
    - [Trace]       the notions the statements are written with;
    - [Sample]      concrete inputs.

    Definitions come first, the theorems about them afterwards. *)

From Stdlib Require Import ZArith List String Ascii Bool Lia.
From Stdlib Require Import DecimalString DecimalZ DecimalPos.
Import ListNotations.

Open Scope string_scope.
Open Scope Z_scope.

(* ------------------------------------------------------------------ *)
(** * Exceptions and the state-and-exception monad *)

(** Every [raise] of the repository is a plain [Exception(msg)]; the
    interpreter itself adds [TypeError] (arithmetic or [range] on [None]),
    [KeyError] (missing dictionary key) and [ValueError] (write to a closed
    file). *)
Inductive error : Type :=
| Exception (msg : string)
| TypeError
| KeyError (key : string)
| ValueError (msg : string).

Inductive result (A : Type) : Type :=
| Ok (a : A)
| Err (e : error).
Arguments Ok {A} a.
Arguments Err {A} e.

Definition bind_result {A B} (r : result A) (k : A -> result B) : result B :=
  match r with
  | Ok a => k a
  | Err e => Err e
  end.

Declare Scope result_scope.
Delimit Scope result_scope with result.
Notation "x <-? c ;; k" := (bind_result c (fun x => k))
  (at level 61, c at next level, right associativity) : result_scope.

(** Strings are joined with [++]; lists of lines with [+++]. *)
Notation "l +++ m" := (List.app l m) (at level 60, right associativity).

(* ------------------------------------------------------------------ *)
(** * Python primitives *)

Module Py.

(** [str(n)] for a Python [int]. *)
Definition str_int (z : Z) : string := NilZero.string_of_int (Z.to_int z).

(** Formatting of a value that is an [int] or [None] inside an f-string. *)
Definition fmt_int (i : option Z) : string :=
  match i with
  | Some z => str_int z
  | None => "None"
  end.

(** Formatting of a value that is a [str] or [None] inside an f-string. *)
Definition fmt_str (s : option string) : string :=
  match s with
  | Some t => t
  | None => "None"
  end.

(** [s.endswith(suffix)] *)
Definition endswith (s suffix : string) : bool :=
  let n := String.length s in
  let k := String.length suffix in
  (k <=? n)%nat && (substring (n - k) k s =? suffix)%string.

(** [s.replace(old, new)] for a non-empty [old]: occurrences are replaced
    from left to right and do not overlap.  [skip] counts the characters
    of the occurrence being consumed. *)
Fixpoint replace_from (skip : nat) (old new s : string) : string :=
  match s with
  | EmptyString => EmptyString
  | String c r =>
      match skip with
      | S k => replace_from k old new r
      | O =>
          if prefix old s
          then new ++ replace_from (String.length old - 1) old new r
          else String c (replace_from O old new r)
      end
  end.

Definition replace (s old new : string) : string := replace_from O old new s.

(** [os.path.basename(p)] (POSIX): what follows the last slash. *)
Fixpoint after_last_slash (cur p : string) : string :=
  match p with
  | EmptyString => cur
  | String c r =>
      if (c =? "/")%char then after_last_slash r r else after_last_slash cur r
  end.

Definition basename (p : string) : string := after_last_slash p p.

(** [os.path.join(a, b)] (POSIX). *)
Definition join (a b : string) : string :=
  if prefix "/" b then b
  else if (a =? "")%string || endswith a "/" then a ++ b
  else a ++ "/" ++ b.

(** [c.isspace()] on the ASCII range. *)
Definition isspace (c : ascii) : bool :=
  let n := nat_of_ascii c in
  ((9 <=? n) && (n <=? 13) || (28 <=? n) && (n <=? 32))%nat.

Fixpoint lstrip (s : string) : string :=
  match s with
  | EmptyString => EmptyString
  | String c r => if isspace c then lstrip r else s
  end.

Fixpoint rstrip (s : string) : string :=
  match s with
  | EmptyString => EmptyString
  | String c r =>
      match rstrip r with
      | EmptyString => if isspace c then EmptyString else String c EmptyString
      | r' => String c r'
      end
  end.

(** [s.strip()] *)
Definition strip (s : string) : string := rstrip (lstrip s).

(** [s.isspace()]: non-empty and made of whitespace only. *)
Fixpoint all_space (s : string) : bool :=
  match s with
  | EmptyString => true
  | String c r => isspace c && all_space r
  end.

Definition str_isspace (s : string) : bool :=
  match s with
  | EmptyString => false
  | _ => all_space s
  end.

(** [s.split(" ")]: split at every single space; never the empty list. *)
Fixpoint split_space (s : string) : list string :=
  match s with
  | EmptyString => [EmptyString]
  | String c r =>
      if (c =? " ")%char then EmptyString :: split_space r
      else
        match split_space r with
        | h :: t => String c h :: t
        | [] => [String c EmptyString]
        end
  end.

(** [re.sub('//.*', "", s)]: the dot does not match a newline, so a
    comment runs from the two slashes up to the end of its line. *)
Definition newline : ascii := ascii_of_nat 10.

Fixpoint remove_comments (in_comment : bool) (s : string) : string :=
  match s with
  | EmptyString => EmptyString
  | String c r =>
      if in_comment then
        if (c =? newline)%char then String c (remove_comments false r)
        else remove_comments true r
      else if prefix "//" s then remove_comments true r
      else String c (remove_comments false r)
  end.

(** [int(s)] in base ten on ASCII text: surrounding whitespace is
    dropped, one sign is allowed, and single underscores may separate
    digits.  [None] stands for [ValueError]. *)
Definition is_digit (c : ascii) : bool :=
  let n := nat_of_ascii c in ((48 <=? n) && (n <=? 57))%nat.

Definition digit_val (c : ascii) : Z := Z.of_nat (nat_of_ascii c) - 48.

Fixpoint int_digits (acc : Z) (after_digit : bool) (s : string) : option Z :=
  match s with
  | EmptyString => if after_digit then Some acc else None
  | String c r =>
      if is_digit c then int_digits (10 * acc + digit_val c) true r
      else if (c =? "_")%char
           then if after_digit then int_digits acc false r else None
           else None
  end.

Definition int (s : string) : option Z :=
  match strip s with
  | String "-" r => option_map Z.opp (int_digits 0 false r)
  | String "+" r => int_digits 0 false r
  | t => int_digits 0 false t
  end.

(** [range(n)] *)
Definition range (n : Z) : list Z := map Z.of_nat (seq 0 (Z.to_nat n)).

(** [l[i]]: a negative index counts from the end; [None] stands for
    [IndexError]. *)
Definition list_get {A : Type} (l : list A) (i : Z) : option A :=
  let n := Z.of_nat (List.length l) in
  if i <? 0 then
    if 0 <=? n + i then nth_error l (Z.to_nat (n + i)) else None
  else nth_error l (Z.to_nat i).

(** [l[i] = v] and [l.pop(i)] for an index within the list. *)
Definition list_set {A : Type} (l : list A) (i : nat) (v : A) : list A :=
  firstn i l +++ v :: skipn (S i) l.

Definition list_pop {A : Type} (l : list A) (i : nat) : list A :=
  firstn i l +++ skipn (S i) l.

(** [d[k] = v] on an ordered dictionary: the value of a key already there
    is replaced where it is, a new key goes to the end. *)
Fixpoint dict_set {V : Type} (k : string) (v : V) (d : list (string * V))
  : list (string * V) :=
  match d with
  | [] => [(k, v)]
  | (k', v') :: r =>
      if (k =? k')%string then (k, v) :: r else (k', v') :: dict_set k v r
  end.

End Py.

(* ------------------------------------------------------------------ *)
(** * Command.py: the instruction model *)

Module Command.

(** The commands of the VM language and their command types. *)
Definition COMMAND_TYPE_MAP : list (string * string) :=
  [ ("pop", "C_POP"); ("push", "C_PUSH");
    ("add", "C_ARITHMETIC"); ("sub", "C_ARITHMETIC"); ("neg", "C_ARITHMETIC");
    ("eq", "C_ARITHMETIC"); ("gt", "C_ARITHMETIC"); ("lt", "C_ARITHMETIC");
    ("and", "C_ARITHMETIC"); ("or", "C_ARITHMETIC"); ("not", "C_ARITHMETIC");
    ("label", "C_LABEL"); ("goto", "C_GOTO"); ("if-goto", "C_IF");
    ("function", "C_FUNCTION"); ("return", "C_RETURN"); ("call", "C_CALL") ].

Definition ARG1_BLACKLIST_COMMAND_TYPES : list string := ["C_RETURN"].

Definition ARG2_WHITELIST_COMMAND_TYPES : list string :=
  ["C_PUSH"; "C_POP"; "C_FUNCTION"; "C_CALL"].

(** [d.get(k)] *)
Fixpoint get (k : string) (d : list (string * string)) : option string :=
  match d with
  | [] => None
  | (k', v) :: r => if (k =? k')%string then Some v else get k r
  end.

(** [x in xs] for strings *)
Definition mem (x : string) (xs : list string) : bool :=
  existsb (String.eqb x) xs.

Record t : Type := mk {
  _command_type : string;
  _arg1 : option string;
  _arg2 : option Z
}.

(** The [command_type] setter. *)
Definition set_command_type (s : string) : result string :=
  match get s COMMAND_TYPE_MAP with
  | None => Err (Exception ("Unidentified command '" ++ s ++ "' found."))
  | Some ct => Ok ct
  end.

Definition is_valid_arg1_call (command_type : string) : bool :=
  negb (mem command_type ARG1_BLACKLIST_COMMAND_TYPES).

(** The map is keyed by VM commands, not by command types, so this
    lookup of a command type finds nothing. *)
Definition is_arithmetic_command (command_type : string) : bool :=
  match get command_type COMMAND_TYPE_MAP with
  | Some v => (v =? "C_ARITHMETIC")%string
  | None => false
  end.

(** The [arg1] setter: the value stored in [_arg1]. *)
Definition set_arg1 (command_type s : string) : result string :=
  if negb (is_valid_arg1_call command_type)
  then Err (Exception "arg1 should not be given when command of type C_RETURN is called.")
  else Ok (if is_arithmetic_command command_type then command_type else s).

(** The [arg2] setter: the value stored in [_arg2]. *)
Definition set_arg2 (command_type s : string) : result Z :=
  if negb (mem command_type ARG2_WHITELIST_COMMAND_TYPES)
  then Err (Exception ("arg2 should not be given when command of type "
                       ++ command_type ++ " is called."))
  else
    match Py.int s with
    | None => Err (Exception ("arg2 must be an integer, instead '" ++ s ++ "' is given."))
    | Some num =>
        if num <? 0
        then Err (Exception ("Command with index '" ++ Py.str_int num
                             ++ "' given, but indexes cannot be negative."))
        else Ok num
    end.

(** [Command(string)] *)
Definition __init__ (s : string) : result t :=
  let commands := Py.split_space s in
  match commands with
  | [] => Err (Exception "Line with 0 commands found.")
  | c0 :: rest =>
      (ct <-? set_command_type c0 ;;
       if (ct =? "C_ARITHMETIC")%string then
         a1 <-? set_arg1 ct c0 ;;
         Ok (mk ct (Some a1) None)
       else if (ct =? "C_RETURN")%string then
         Ok (mk ct None None)
       else
         match rest with
         | [] => Err (Exception ("Non-arithmetic command '" ++ s
                                 ++ "' with only one argument given."))
         | c1 :: rest1 =>
             a1 <-? set_arg1 ct c1 ;;
             match rest1 with
             | [] => Ok (mk ct (Some a1) None)
             | c2 :: rest2 =>
                 a2 <-? set_arg2 ct c2 ;;
                 match rest2 with
                 | [] => Ok (mk ct (Some a1) (Some a2))
                 | _ :: _ => Err (Exception ("Line with more than 3 commands found: "
                                             ++ s ++ "."))
                 end
             end
         end)%result
  end.

Definition command_type (c : t) : string := _command_type c.

(** The [arg1] getter. *)
Definition arg1 (c : t) : result (option string) :=
  if negb (is_valid_arg1_call (command_type c))
  then Err (Exception "arg1 should not be called when command is of type C_RETURN.")
  else Ok (_arg1 c).

(** The [arg2] getter. *)
Definition arg2 (c : t) : result (option Z) :=
  if negb (mem (command_type c) ARG2_WHITELIST_COMMAND_TYPES)
  then Err (Exception ("arg2 should not be called when command of type "
                       ++ command_type c ++ " is called."))
  else Ok (_arg2 c).

End Command.

(* ------------------------------------------------------------------ *)
(** * Parser.py: cleaning of one input unit *)

Module Parser.

(** Comments and surrounding whitespace are removed. *)
Definition clean_line (line : string) : string :=
  Py.strip (Py.remove_comments false line).

Definition is_blank (line : string) : bool :=
  (line =? "")%string || Py.str_isspace line.

(** The cleaning loop keeps its cursor on a line it has just removed and
    moves on otherwise: the cleaned lines that are not blank, in order. *)
Fixpoint clean_file (file : list string) : list string :=
  match file with
  | [] => []
  | l :: r =>
      let l' := clean_line l in
      if is_blank l' then clean_file r else l' :: clean_file r
  end.

(** The same loop statement by statement, with its cursor [line] and the
    list it updates in place: the line under the cursor is replaced by its
    cleaned form, then popped if that is blank, else the cursor moves on.
    The loop ends when the cursor is not below the length of the list. *)
Fixpoint clean_file_loop (fuel : nat) (line : nat) (file : list string)
  : option (list string) :=
  match fuel with
  | O => None
  | S fuel' =>
      match nth_error file line with
      | None => Some file
      | Some l =>
          let file := Py.list_set file line (clean_line l) in
          if is_blank (clean_line l)
          then clean_file_loop fuel' line (Py.list_pop file line)
          else clean_file_loop fuel' (S line) file
      end
  end.

(** The attributes of a [Parser] object. *)
Record t : Type := mk {
  _file : list string;
  _current_command : option Command.t;
  _line : Z
}.

Definition __init__ (file : list string) : t := mk (clean_file file) None (-1).

Definition has_more_commands (self : t) : bool :=
  _line self + 1 <? Z.of_nat (List.length (_file self)).

(** How a call of [advance] ends: on the next command, with the exception
    [Command] raised on it, or with the [IndexError] of the list.  The line
    number has moved in each case. *)
Inductive advanced : Type :=
| Advanced (self : t)
| Raised (e : error) (self : t)
| IndexError (self : t).

Definition advance (self : t) : advanced :=
  let self := mk (_file self) (_current_command self) (_line self + 1) in
  match Py.list_get (_file self) (_line self) with
  | None => IndexError self
  | Some string =>
      match Command.__init__ string with
      | Ok command => Advanced (mk (_file self) (Some command) (_line self))
      | Err e => Raised e self
      end
  end.

End Parser.

(* ------------------------------------------------------------------ *)
(** * CodeWriter.py: the code generator *)

Module CodeWriter.

(** Maps the base-pointer segments to their RAM symbols. *)
Definition SEGMENTS_MAPPER : list (string * string) :=
  [ ("argument", "ARG"); ("local", "LCL"); ("this", "THIS"); ("that", "THAT") ].

(** The names the specification gives to the failures of the generator;
    each is the exception raised at the place named. *)

(** [translate_pop_vm_code_to_asm] on the segment [constant]. *)
Definition InvalidSegment (segment : string) : error :=
  Exception ("Can't call 'pop()' operation on a '" ++ segment ++ "' segment").

(** [translate_segment_vm_code] on [pointer] with an index other than 0, 1. *)
Definition InvalidOperand (index : option Z) : error :=
  Exception ("The 'pointer' segment cannot take index '" ++ Py.fmt_int index
             ++ "'. Only accepts 0 or 1.").

(** [translate_segment_vm_code] on [static] with no current file name. *)
Definition UnboundContext : error := Exception "".

(** [translate_arithmetic_vm_code_to_assembly] on an unknown command. *)
Definition InvalidOperator (command : string) : error :=
  Exception ("'" ++ command ++ "' is not a valid arithmetic command.").

(** [translate_segment_vm_code] on an unknown segment name. *)
Definition UnexpectedSegment (segment : string) : error :=
  Exception ("Unexpected segment command '" ++ segment ++ "' read.").

(** The output file: the lines written so far, and whether it was closed. *)
Record file : Type := mk_file {
  lines : list string;
  closed : bool
}.

(** The attributes of a [CodeWriter] object. *)
Record t : Type := mk {
  in_filepath : string;
  out_filename : string;
  write_file : file;
  current_filename : option string;
  current_function : option string;
  arith_jump_counter : Z;
  return_counter : Z;
  log_vm_commands : bool
}.

Definition set_write_file (f : file) (self : t) : t :=
  mk (in_filepath self) (out_filename self) f (current_filename self)
     (current_function self) (arith_jump_counter self) (return_counter self)
     (log_vm_commands self).

Definition set_current_filename (n : option string) (self : t) : t :=
  mk (in_filepath self) (out_filename self) (write_file self) n
     (current_function self) (arith_jump_counter self) (return_counter self)
     (log_vm_commands self).

Definition set_current_function (n : option string) (self : t) : t :=
  mk (in_filepath self) (out_filename self) (write_file self)
     (current_filename self) n (arith_jump_counter self) (return_counter self)
     (log_vm_commands self).

Definition set_arith_jump_counter (n : Z) (self : t) : t :=
  mk (in_filepath self) (out_filename self) (write_file self)
     (current_filename self) (current_function self) n (return_counter self)
     (log_vm_commands self).

Definition set_return_counter (n : Z) (self : t) : t :=
  mk (in_filepath self) (out_filename self) (write_file self)
     (current_filename self) (current_function self) (arith_jump_counter self) n
     (log_vm_commands self).

(** A method of the object: it reads and updates the attributes and either
    returns or raises; what it changed before raising stays changed. *)
Definition M (A : Type) : Type := t -> t * result A.

Definition ret {A} (a : A) : M A := fun self => (self, Ok a).

Definition bind {A B} (m : M A) (k : A -> M B) : M B :=
  fun self =>
    match m self with
    | (self', Ok a) => k a self'
    | (self', Err e) => (self', Err e)
    end.

Definition raise {A} (e : error) : M A := fun self => (self, Err e).

Definition lift {A} (r : result A) : M A := fun self => (self, r).

Definition get : M t := fun self => (self, Ok self).

Definition modify (f : t -> t) : M unit := fun self => (f self, Ok tt).

Definition when (b : bool) (m : M unit) : M unit := if b then m else ret tt.

Declare Scope cw_scope.
Delimit Scope cw_scope with cw.
Notation "x <- c ;; k" := (bind c (fun x => k))
  (at level 61, c at next level, right associativity) : cw_scope.
Notation "c ;; k" := (bind c (fun _ => k))
  (at level 61, right associativity) : cw_scope.
Open Scope cw_scope.

Definition in_function (self : t) : bool :=
  match current_function self with
  | Some _ => true
  | None => false
  end.

Definition set_filename (filepath : string) : M unit :=
  modify (set_current_filename (Some (Py.replace (Py.basename filepath) ".vm" ""))) ;;
  modify (set_current_function None).

(** The text written by one call: the commands joined by newlines and
    followed by one, so an empty list would write one empty line. *)
Definition written (commands : list string) : list string :=
  match commands with
  | [] => [""]
  | _ => commands
  end.

Definition write (commands : list string) : M unit :=
  fun self =>
    let f := write_file self in
    if closed f then (self, Err (ValueError "I/O operation on closed file."))
    else (set_write_file (mk_file (lines f +++ written commands) false) self, Ok tt).

Definition close : M unit :=
  modify (fun self => set_write_file (mk_file (lines (write_file self)) true) self).

Definition get_ram_code (segment : string) : result string :=
  match Command.get segment SEGMENTS_MAPPER with
  | Some ram_code => Ok ram_code
  | None => Err (KeyError segment)
  end.

(** [index == n] for an index that is an [int] or [None]. *)
Definition index_is (index : option Z) (n : Z) : bool :=
  match index with
  | Some z => z =? n
  | None => false
  end.

Definition translate_segment_vm_code (self : t) (segment : string) (index : option Z)
  : result (list string) :=
  if Command.mem segment ["local"; "argument"; "this"; "that"] then
    (ram_code <-? get_ram_code segment ;;
     let seg_commands := ["@" ++ ram_code] in
     let extend_commands :=
       if index_is index 0 then ["A=M"]
       else ["D=M"; "@" ++ Py.fmt_int index; "A=D+A"] in
     Ok (seg_commands +++ extend_commands))%result
  else if (segment =? "static")%string then
    match current_filename self with
    | None => Err UnboundContext
    | Some name => Ok ["@" ++ name ++ "." ++ Py.fmt_int index]
    end
  else if (segment =? "pointer")%string then
    if index_is index 0 then Ok ["@THIS"]
    else if index_is index 1 then Ok ["@THAT"]
    else Err (InvalidOperand index)
  else if (segment =? "temp")%string then
    Ok ["@5"; "D=A"; "@" ++ Py.fmt_int index; "A=D+A"]
  else if (segment =? "constant")%string then
    Ok ["@" ++ Py.fmt_int index; "D=A"]
  else Err (UnexpectedSegment segment).

Definition translate_push_vm_code_to_asm (self : t) (segment : string) (index : option Z)
  : result (list string) :=
  (asm_commands <-?
     (if negb (segment =? "skip")%string then
        seg <-? translate_segment_vm_code self segment index ;;
        Ok (if negb (segment =? "constant")%string then seg +++ ["D=M"] else seg)
      else Ok []) ;;
   Ok (asm_commands +++ ["@SP"; "AM=M+1"; "A=A-1"; "M=D"]))%result.

Definition translate_pop_vm_code_to_asm (self : t) (segment : string) (index : option Z)
  : result (list string) :=
  if (segment =? "constant")%string then Err (InvalidSegment segment)
  else
    (asm_commands <-? translate_segment_vm_code self segment index ;;
     Ok (asm_commands
         +++ ["D=A"; "@SP"; "AM=M-1"; "D=D+M"; "A=D-M"; "D=D-A"; "M=D"]))%result.

(** The guard [command is None] of the source cannot fire on a [str]. *)
Definition translate_arithmetic_vm_code_to_assembly (command : string)
  : M (list string) :=
  let is_unary := (command =? "neg")%string || (command =? "not")%string in
  let asm_commands :=
    ["@SP"; "AM=M-1"] +++ (if negb is_unary then ["D=M"; "@SP"; "AM=M-1"] else []) in
  arith_commands <-
    (if (command =? "add")%string then ret ["M=M+D"]
     else if (command =? "sub")%string then ret ["M=M-D"]
     else if (command =? "neg")%string then ret ["M=-M"]
     else if Command.mem command ["eq"; "gt"; "lt"] then
       self <- get ;;
       let n := Py.str_int (arith_jump_counter self) in
       let jump :=
         if (command =? "eq")%string then ["D;JEQ"]
         else if (command =? "gt")%string then ["D;JGT"]
         else if (command =? "lt")%string then ["D;JLT"]
         else [] in
       modify (set_arith_jump_counter (arith_jump_counter self + 1)) ;;
       ret (["D=M-D"; "@TRUE_" ++ n] +++ jump
            +++ ["D=0"; "@END_" ++ n; "0;JMP"; "(TRUE_" ++ n ++ ")"; "D=-1";
                "(END_" ++ n ++ ")"; "@SP"; "A=M"; "M=D"])
     else if (command =? "and")%string then ret ["M=D&M"]
     else if (command =? "or")%string then ret ["M=D|M"]
     else if (command =? "not")%string then ret ["M=!M"]
     else raise (InvalidOperator command)) ;;
  ret (asm_commands +++ arith_commands +++ ["@SP"; "M=M+1"]).

(** ** The writing methods *)

Definition write_arithmetic (vm_command : string) : M unit :=
  self <- get ;;
  when (log_vm_commands self) (write ["//  " ++ vm_command]) ;;
  asm_commands <- translate_arithmetic_vm_code_to_assembly vm_command ;;
  write asm_commands.

Definition write_push_pop (command_type segment : string) (index : option Z) : M unit :=
  self <- get ;;
  when (log_vm_commands self)
    (let command := if (command_type =? "C_PUSH")%string then "push" else "pop" in
     write ["//  " ++ command ++ " " ++ segment ++ " " ++ Py.fmt_int index]) ;;
  asm_commands <-
    (if (command_type =? "C_PUSH")%string
     then lift (translate_push_vm_code_to_asm self segment index)
     else if (command_type =? "C_POP")%string
     then lift (translate_pop_vm_code_to_asm self segment index)
     else raise (Exception ("Command type '" ++ command_type
                            ++ "' erroneously triggered a write_push_pop() method."))) ;;
  write asm_commands.

(** The name a branching command refers to: scoped by the current function
    when there is one. *)
Definition scoped_label (self : t) (label : string) : string :=
  if in_function self
  then Py.fmt_str (current_function self) ++ "." ++ label
  else label.

Definition write_label (label : string) : M unit :=
  self <- get ;;
  when (log_vm_commands self) (write ["//  label " ++ label]) ;;
  let label := scoped_label self label in
  write ["(" ++ label ++ ")"].

Definition write_goto (label : string) : M unit :=
  self <- get ;;
  when (log_vm_commands self) (write ["//  goto " ++ label]) ;;
  let label := scoped_label self label in
  write ["@" ++ label; "0;JMP"].

Definition write_if (label : string) : M unit :=
  self <- get ;;
  when (log_vm_commands self) (write ["//  if-goto " ++ label]) ;;
  let label := scoped_label self label in
  write ["@SP"; "AM=M-1"; "D=M"; "@" ++ label; "D;JNE"].

Definition write_function (function_name : string) (num_local_vars : option Z) : M unit :=
  modify (set_current_function (Some function_name)) ;;
  self <- get ;;
  when (log_vm_commands self)
    (write ["//  function " ++ function_name ++ " " ++ Py.fmt_int num_local_vars]) ;;
  local_reg <- lift (get_ram_code "local") ;;
  n <- match num_local_vars with
       | Some n => ret n
       | None => raise TypeError
       end ;;
  write (["(" ++ function_name ++ ")"]
         +++ flat_map (fun i => ["@" ++ local_reg; "D=M"; "@" ++ Py.str_int i;
                                 "A=D+A"; "M=0"; "@SP"; "M=M+1"])
                      (Py.range n)).

(** The pushes of the four saved registers of [write_call]. *)
Fixpoint push_registers (self : t) (mems : list string) : result (list string) :=
  match mems with
  | [] => Ok []
  | mem :: r =>
      (ram_code <-? get_ram_code mem ;;
       push <-? translate_push_vm_code_to_asm self "skip" None ;;
       rest <-? push_registers self r ;;
       Ok (["@" ++ ram_code; "D=M"] +++ push +++ rest))%result
  end.

Definition write_call (function_name : string) (num_vars : option Z) : M unit :=
  self <- get ;;
  when (log_vm_commands self)
    (write ["//  call " ++ function_name ++ " " ++ Py.fmt_int num_vars]) ;;
  let return_address_label := "RETURN_" ++ Py.str_int (return_counter self) in
  modify (set_return_counter (return_counter self + 1)) ;;
  self <- get ;;
  push_ret <- lift (translate_push_vm_code_to_asm self "skip" None) ;;
  saved <- lift (push_registers self ["local"; "argument"; "this"; "that"]) ;;
  offset <- match num_vars with
            | Some n => ret (n + 5)
            | None => raise TypeError
            end ;;
  arg_reg <- lift (get_ram_code "argument") ;;
  local_reg <- lift (get_ram_code "local") ;;
  write (["@" ++ return_address_label; "D=A"] +++ push_ret +++ saved
         +++ ["@SP"; "D=M"; "@" ++ Py.str_int offset; "D=D-A"; "@" ++ arg_reg; "M=D";
              "@SP"; "D=M"; "@" ++ local_reg; "M=D";
              "@" ++ function_name; "0;JMP";
              "(" ++ return_address_label ++ ")"]).

Definition write_return : M unit :=
  self <- get ;;
  when (log_vm_commands self) (write ["//  return"]) ;;
  local_reg <- lift (get_ram_code "local") ;;
  arg_reg <- lift (get_ram_code "argument") ;;
  that_reg <- lift (get_ram_code "that") ;;
  this_reg <- lift (get_ram_code "this") ;;
  write [ "@" ++ local_reg; "D=M"; "@frame"; "M=D";
          "@5"; "A=D-A"; "D=M"; "@return"; "M=D";
          "@SP"; "AM=M-1"; "D=M"; "@" ++ arg_reg; "A=M"; "M=D";
          "D=A+1"; "@SP"; "M=D";
          "@frame"; "D=M"; "@1"; "A=D-A"; "D=M"; "@" ++ that_reg; "M=D";
          "@frame"; "D=M"; "@2"; "A=D-A"; "D=M"; "@" ++ this_reg; "M=D";
          "@frame"; "D=M"; "@3"; "A=D-A"; "D=M"; "@" ++ arg_reg; "M=D";
          "@frame"; "D=M"; "@4"; "A=D-A"; "D=M"; "@" ++ local_reg; "M=D";
          "@return"; "A=M"; "0;JMP" ].

(** ** Construction *)

(** [isdir] stands for [os.path.isdir] on the file system of the job. *)
Definition write_init (isdir : string -> bool) : M unit :=
  self <- get ;;
  if negb (isdir (in_filepath self)) then ret tt
  else
    when (log_vm_commands self) (write ["//  Boostrap code"]) ;;
    write ["@256"; "D=A"; "@SP"; "M=D"] ;;
    write_call "Sys.init" (Some 0).

(** [CodeWriter(filepath, log_vm_commands)]; the output file is taken to
    open without an error, and the progress message goes to the console. *)
Definition __init__ (isdir : string -> bool) (filepath : string) (log_vm_commands : bool)
  : result t :=
  (out_filename <-?
     (if Py.endswith filepath ".vm" then Ok (Py.replace filepath ".vm" ".asm")
      else if isdir filepath then
        let base_dir_name := Py.basename filepath in
        if (String.length base_dir_name =? 0)%nat
        then Err (Exception "Base directory name cannot be empty.")
        else Ok (Py.join filepath (base_dir_name ++ ".asm"))
      else Ok filepath) ;;
   if negb (Py.endswith out_filename ".asm")
   then Err (Exception ("Output filepath '" ++ filepath ++ "' must be a '.asm' file"))
   else
     let self := mk filepath out_filename (mk_file [] false) None None 0 0
                    log_vm_commands in
     match write_init isdir self with
     | (self', Ok _) => Ok self'
     | (_, Err e) => Err e
     end)%result.

End CodeWriter.

(* ------------------------------------------------------------------ *)
(** * VMTranslator.py: the driver *)

Module Main.

Import CodeWriter.

(** One turn of the loop of [translate_file]: the parser advances to the
    line, which builds its [Command], and the matching method is called.
    [arg1] is set for every command but [return] (see [Command.__init__]),
    so its formatting as a string is its value. *)
Definition translate_command (line : string) : M unit :=
  c <- lift (Command.__init__ line) ;;
  let command_type := Command.command_type c in
  if (command_type =? "C_RETURN")%string then write_return
  else
    a1 <- lift (Command.arg1 c) ;;
    let arg1 := Py.fmt_str a1 in
    if (command_type =? "C_ARITHMETIC")%string then write_arithmetic arg1
    else if Command.mem command_type ["C_PUSH"; "C_POP"] then
      arg2 <- lift (Command.arg2 c) ;;
      write_push_pop command_type arg1 arg2
    else if (command_type =? "C_LABEL")%string then write_label arg1
    else if (command_type =? "C_IF")%string then write_if arg1
    else if (command_type =? "C_GOTO")%string then write_goto arg1
    else
      arg2 <- lift (Command.arg2 c) ;;
      if (command_type =? "C_FUNCTION")%string then write_function arg1 arg2
      else if (command_type =? "C_CALL")%string then write_call arg1 arg2
      else raise (Exception ("This project should not contain a '" ++ command_type
                             ++ "' command type (yet).")).

(** The loop of [translate_file] over the lines the parser still holds. *)
Fixpoint translate_commands (commands : list string) : M unit :=
  match commands with
  | [] => ret tt
  | line :: r => translate_command line ;; translate_commands r
  end.

Definition translate_file (file : list string) (filepath : string) : M unit :=
  let parser_file := Parser.clean_file file in
  set_filename filepath ;;
  translate_commands parser_file.

(** The loop of [translate_files] over the ordered dictionary of units. *)
Fixpoint translate_units (files : list (string * list string)) : M unit :=
  match files with
  | [] => ret tt
  | (filepath, file) :: r => translate_file file filepath ;; translate_units r
  end.

(** [Main.translate_files(files, input_path)]: the code writer as the job
    leaves it (none when its construction failed) and how the job ended. *)
Definition translate_files (isdir : string -> bool)
  (files : list (string * list string)) (input_path : string)
  : option CodeWriter.t * result unit :=
  match CodeWriter.__init__ isdir input_path true with
  | Err e => (None, Err e)
  | Ok code_writer =>
      let (code_writer', r) := (translate_units files ;; close) code_writer in
      (Some code_writer', r)
  end.

(** What the driver asks of the file system: [os.path.exists],
    [os.path.isfile], [os.path.isdir], [os.listdir], and the lines of a
    file as [readlines] returns them.  Reading is taken to succeed. *)
Record filesystem : Type := mk_fs {
  exists_ : string -> bool;
  isfile : string -> bool;
  isdir : string -> bool;
  listdir : string -> list string;
  readlines : string -> list string
}.

Definition is_vm_file (fs : filesystem) (filepath : string) : bool :=
  isfile fs filepath && Py.endswith filepath ".vm".

Definition strip_extension (filename : string) : string :=
  Py.replace (Py.basename filename) ".asm" "".

Definition read_vm_file (fs : filesystem) (filename : string) : list string :=
  readlines fs filename.

Definition read_file_into_dict (fs : filesystem) (dir_path filename : string)
  (files : list (string * list string)) : list (string * list string) :=
  let full_filepath := Py.join dir_path filename in
  if negb (is_vm_file fs full_filepath) then files
  else Py.dict_set full_filepath (read_vm_file fs full_filepath) files.

(** The loop over the names [os.listdir] gave. *)
Fixpoint read_files_in_dir (fs : filesystem) (input_path : string)
  (files_in_dir : list string) (files : list (string * list string))
  : list (string * list string) :=
  match files_in_dir with
  | [] => files
  | filename :: r =>
      read_files_in_dir fs input_path r
        (read_file_into_dict fs input_path filename files)
  end.

Definition read_filepath_input (fs : filesystem) (input_path : string)
  : result (list (string * list string)) :=
  if negb (exists_ fs input_path)
  then Err (Exception ("The provided path '" ++ input_path ++ "' does not exist."))
  else if is_vm_file fs input_path
  then Ok (Py.dict_set input_path (read_vm_file fs input_path) [])
  else if negb (isdir fs input_path)
  then Err (Exception ("Input path '" ++ input_path
                       ++ "' must be a valid .vm file, or an existing directory."))
  else
    let files := read_files_in_dir fs input_path (listdir fs input_path) [] in
    match files with
    | [] => Err (Exception ("No vm files found in input path '" ++ input_path ++ "'."))
    | _ => Ok files
    end.


End Main.

(* ------------------------------------------------------------------ *)
(** * The target machine

    The generated text is Hack assembly.  The machine is not part of the
    repository; it is described here as its platform defines it: two 16-bit
    registers [A] and [D], a program counter, a RAM addressed by the low 15
    bits of [A] (written [M] in the mnemonics), and a program held apart
    from the data.  Words are integers in [0, 2^16); [wrap] is the
    wrap-around of the ALU and [signed] the value a jump condition tests. *)

Module Hack.

Definition wrap (z : Z) : Z := z mod 65536.

Definition signed (z : Z) : Z := if z <? 32768 then z else z - 65536.

(** The RAM cell selected by the value of [A]. *)
Definition addr (a : Z) : Z := a mod 32768.

(** ** Instructions *)

(** The 18 functions of the ALU; [X] is [A] or [M]. *)
Inductive alu : Type :=
| Zero | One | MinusOne | OpD | OpX | NotD | NotX | NegD | NegX
| IncD | IncX | DecD | DecX | DPlusX | DMinusX | XMinusD | DAndX | DOrX.

Record comp : Type := mk_comp { uses_M : bool; op : alu }.

Record dest : Type := mk_dest { to_A : bool; to_D : bool; to_M : bool }.

Inductive jump : Type :=
| JNone | JGT | JEQ | JGE | JLT | JNE | JLE | JMP.

Inductive operand : Type :=
| Num (z : Z)
| Sym (s : string).

Inductive instr : Type :=
| At (o : operand)
| C (d : dest) (c : comp) (j : jump).

(** ** Reading the text *)

Fixpoint lookup {V : Type} (k : string) (t : list (string * V)) : option V :=
  match t with
  | [] => None
  | (k', v) :: r => if (k =? k')%string then Some v else lookup k r
  end.

(** The mnemonics over [A]; the ones over [M] are obtained from them.  The
    commuted spellings of the sums and of the bitwise operations are read as
    the platform's tools read them. *)
Definition alu_table : list (string * alu) :=
  [ ("0", Zero); ("1", One); ("-1", MinusOne); ("D", OpD); ("A", OpX);
    ("!D", NotD); ("!A", NotX); ("-D", NegD); ("-A", NegX);
    ("D+1", IncD); ("A+1", IncX); ("D-1", DecD); ("A-1", DecX);
    ("D+A", DPlusX); ("A+D", DPlusX); ("D-A", DMinusX); ("A-D", XMinusD);
    ("D&A", DAndX); ("A&D", DAndX); ("D|A", DOrX); ("A|D", DOrX) ].

Fixpoint mentions (c : ascii) (s : string) : bool :=
  match s with
  | EmptyString => false
  | String c' r => (c =? c')%char || mentions c r
  end.

Fixpoint M_to_A (s : string) : string :=
  match s with
  | EmptyString => EmptyString
  | String c r => String (if (c =? "M")%char then "A"%char else c) (M_to_A r)
  end.

Definition parse_comp (s : string) : option comp :=
  if mentions "M" s then
    if mentions "A" s then None
    else option_map (mk_comp true) (lookup (M_to_A s) alu_table)
  else option_map (mk_comp false) (lookup s alu_table).

Definition dest_table : list (string * dest) :=
  [ ("M", mk_dest false false true); ("D", mk_dest false true false);
    ("MD", mk_dest false true true); ("A", mk_dest true false false);
    ("AM", mk_dest true false true); ("AD", mk_dest true true false);
    ("AMD", mk_dest true true true) ].

Definition jump_table : list (string * jump) :=
  [ ("JGT", JGT); ("JEQ", JEQ); ("JGE", JGE); ("JLT", JLT);
    ("JNE", JNE); ("JLE", JLE); ("JMP", JMP) ].

(** The text before and after the first occurrence of [c]. *)
Fixpoint split_at (c : ascii) (s : string) : option (string * string) :=
  match s with
  | EmptyString => None
  | String c' r =>
      if (c =? c')%char then Some (EmptyString, r)
      else
        match split_at c r with
        | Some (a, b) => Some (String c' a, b)
        | None => None
        end
  end.

(** [dest=comp;jump], where [dest=] and [;jump] may be missing. *)
Definition parse_c (s : string) : option instr :=
  let '(d, rest) :=
    match split_at "=" s with
    | Some (a, b) => (lookup a dest_table, b)
    | None => (Some (mk_dest false false false), s)
    end in
  let '(c, j) :=
    match split_at ";" rest with
    | Some (a, b) => (parse_comp a, lookup b jump_table)
    | None => (parse_comp rest, Some JNone)
    end in
  match d, c, j with
  | Some d, Some c, Some j => Some (C d c j)
  | _, _, _ => None
  end.

(** The operand of [@]: a decimal constant of at most 15 bits, or a symbol.
    What makes a well-formed symbol is not checked. *)
Definition parse_operand (s : string) : option operand :=
  match NilZero.uint_of_string s with
  | Some d => let z := Z.of_uint d in
              if z <? 32768 then Some (Num z) else None
  | None => Some (Sym s)
  end.

(** The name declared by [(name)], given what follows the opening bracket. *)
Fixpoint label_name (s : string) : option string :=
  match s with
  | EmptyString => None
  | String c EmptyString => if (c =? ")")%char then Some EmptyString else None
  | String c r => option_map (String c) (label_name r)
  end.

Inductive line : Type :=
| Blank
| LabelDecl (name : string)
| Instr (i : instr).

(** One line as the code writer emits them: no blanks around it, and a
    comment takes a line of its own. *)
Definition parse_line (s : string) : option line :=
  match s with
  | EmptyString => Some Blank
  | String "/" (String "/" _) => Some Blank
  | String "@" r => option_map (fun o => Instr (At o)) (parse_operand r)
  | String "(" r => option_map LabelDecl (label_name r)
  | _ => option_map Instr (parse_c s)
  end.

(** The instructions of a text, in order; comments and label declarations
    produce none. *)
Fixpoint instructions (text : list string) : option (list instr) :=
  match text with
  | [] => Some []
  | l :: r =>
      match parse_line l with
      | None => None
      | Some (Instr i) => option_map (cons i) (instructions r)
      | Some _ => instructions r
      end
  end.

(** The labels a text declares, each with the address of the instruction
    that follows its declaration, for a text placed at address [pc]. *)
Fixpoint labels_from (pc : Z) (text : list string) : list (string * Z) :=
  match text with
  | [] => []
  | l :: r =>
      match parse_line l with
      | Some (LabelDecl name) => (name, pc) :: labels_from pc r
      | Some (Instr _) => labels_from (pc + 1) r
      | _ => labels_from pc r
      end
  end.

Definition label_table (text : list string) : list (string * Z) :=
  labels_from 0 text.

(** ** Symbols *)

Definition predefined : list (string * Z) :=
  [ ("SP", 0); ("LCL", 1); ("ARG", 2); ("THIS", 3); ("THAT", 4);
    ("R0", 0); ("R1", 1); ("R2", 2); ("R3", 3); ("R4", 4); ("R5", 5);
    ("R6", 6); ("R7", 7); ("R8", 8); ("R9", 9); ("R10", 10); ("R11", 11);
    ("R12", 12); ("R13", 13); ("R14", 14); ("R15", 15);
    ("SCREEN", 16384); ("KBD", 24576) ].

(** The value of a symbol: predefined, else a declared label, else a
    variable, whose cell [vars] gives. *)
Definition symbol_value (labels : list (string * Z)) (vars : string -> Z) (s : string) : Z :=
  match lookup s predefined with
  | Some z => z
  | None =>
      match lookup s labels with
      | Some z => z
      | None => vars s
      end
  end.

(** The second pass gives the variables the cells from 16 on, in the order
    in which they first appear. *)
Fixpoint allocate (labels : list (string * Z)) (code : list instr)
  (seen : list (string * Z)) : list (string * Z) :=
  match code with
  | [] => seen
  | At (Sym s) :: r =>
      match lookup s predefined, lookup s labels, lookup s seen with
      | None, None, None => allocate labels r (seen +++ [(s, 16 + Z.of_nat (List.length seen))])
      | _, _, _ => allocate labels r seen
      end
  | _ :: r => allocate labels r seen
  end.

Definition variables (labels : list (string * Z)) (code : list instr) (s : string) : Z :=
  match lookup s (allocate labels code []) with
  | Some z => z
  | None => 0
  end.

(** ** Execution *)

Record machine : Type := mk {
  A : Z;
  D : Z;
  PC : Z;
  RAM : Z -> Z
}.

Definition upd (ram : Z -> Z) (a v : Z) : Z -> Z :=
  fun x => if x =? a then v else ram x.

Definition alu_out (o : alu) (d x : Z) : Z :=
  match o with
  | Zero => 0
  | One => 1
  | MinusOne => wrap (-1)
  | OpD => d
  | OpX => x
  | NotD => wrap (Z.lnot d)
  | NotX => wrap (Z.lnot x)
  | NegD => wrap (- d)
  | NegX => wrap (- x)
  | IncD => wrap (d + 1)
  | IncX => wrap (x + 1)
  | DecD => wrap (d - 1)
  | DecX => wrap (x - 1)
  | DPlusX => wrap (d + x)
  | DMinusX => wrap (d - x)
  | XMinusD => wrap (x - d)
  | DAndX => wrap (Z.land d x)
  | DOrX => wrap (Z.lor d x)
  end.

Definition jump_taken (j : jump) (v : Z) : bool :=
  match j with
  | JNone => false
  | JGT => 0 <? signed v
  | JEQ => v =? 0
  | JGE => 0 <=? signed v
  | JLT => signed v <? 0
  | JNE => negb (v =? 0)
  | JLE => signed v <=? 0
  | JMP => true
  end.

(** One instruction.  A computation reads the registers and the cell [M]
    as they are before it; its destinations are written together, and a
    jump goes to the address held by [A] before the instruction. *)
Definition operand_value (sym : string -> Z) (o : operand) : Z :=
  match o with
  | Num z => z
  | Sym s => sym s
  end.

Definition exec (sym : string -> Z) (i : instr) (m : machine) : machine :=
  match i with
  | At o => mk (operand_value sym o) (D m) (PC m + 1) (RAM m)
  | C d c j =>
      let x := if uses_M c then RAM m (addr (A m)) else A m in
      let v := alu_out (op c) (D m) x in
      mk (if to_A d then v else A m)
         (if to_D d then v else D m)
         (if jump_taken j v then addr (A m) else PC m + 1)
         (if to_M d then upd (RAM m) (addr (A m)) v else RAM m)
  end.

Definition fetch (rom : list instr) (pc : Z) : option instr :=
  if pc <? 0 then None else nth_error rom (Z.to_nat pc).

Definition step (sym : string -> Z) (rom : list instr) (m : machine) : option machine :=
  option_map (fun i => exec sym i m) (fetch rom (PC m)).

(** [n] instructions in a row; [None] if the program counter leaves the
    program before. *)
Fixpoint steps (n : nat) (sym : string -> Z) (rom : list instr) (m : machine)
  : option machine :=
  match n with
  | O => Some m
  | S k =>
      match step sym rom m with
      | Some m' => steps k sym rom m'
      | None => None
      end
  end.

(** The machine runs [n] instructions and then satisfies [P]. *)
Definition after (n : nat) (sym : string -> Z) (rom : list instr) (m : machine)
  (P : machine -> Prop) : Prop :=
  exists m', steps n sym rom m = Some m' /\ P m'.

(** The instructions of a block, one after the other, jumps not taken. *)
Definition exec_block (sym : string -> Z) (code : list instr) (m : machine) : machine :=
  fold_left (fun m i => exec sym i m) code m.

(** [code] sits in the program from address [p] on. *)
Definition loaded (rom : list instr) (p : Z) (code : list instr) : Prop :=
  0 <= p /\
  forall k i, nth_error code k = Some i -> fetch rom (p + Z.of_nat k) = Some i.

(** No instruction of the block has a jump field. *)
Definition straight (code : list instr) : bool :=
  forallb (fun i => match i with
                    | At _ => true
                    | C _ _ JNone => true
                    | C _ _ _ => false
                    end) code.

End Hack.

(* ------------------------------------------------------------------ *)
(** * A translation job as the code writer sees it

    The driver talks to a [CodeWriter] through its public methods only:
    [set_filename] at the start of an input unit and one writing method per
    instruction.  A job is a sequence of such calls on one object. *)

Module Job.

Import CodeWriter.

Inductive method_call : Type :=
| Set_filename (filepath : string)
| Write_arithmetic (vm_command : string)
| Write_push_pop (command_type segment : string) (index : option Z)
| Write_label (label : string)
| Write_goto (label : string)
| Write_if (label : string)
| Write_function (function_name : string) (num_local_vars : option Z)
| Write_call (function_name : string) (num_vars : option Z)
| Write_return.

Definition perform (c : method_call) : M unit :=
  match c with
  | Set_filename filepath => set_filename filepath
  | Write_arithmetic vm_command => write_arithmetic vm_command
  | Write_push_pop command_type segment index => write_push_pop command_type segment index
  | Write_label label => write_label label
  | Write_goto label => write_goto label
  | Write_if label => write_if label
  | Write_function function_name num_local_vars => write_function function_name num_local_vars
  | Write_call function_name num_vars => write_call function_name num_vars
  | Write_return => write_return
  end.

(** The calls in order; the first exception ends the job. *)
Fixpoint perform_all (cs : list method_call) : M unit :=
  match cs with
  | [] => ret tt
  | c :: r => perform c ;; perform_all r
  end.

(** The lines in the output file. *)
Definition output (self : t) : list string := lines (write_file self).

(** The lines a method adds to the output file. *)
Definition emitted {A} (m : M A) (self : t) : list string :=
  skipn (List.length (output self)) (output (fst (m self))).

(** The name a line declares, when it is a label declaration. *)
Definition declared (l : string) : option string :=
  match l with
  | String "(" r => Hack.label_name r
  | _ => None
  end.

Fixpoint label_decls (text : list string) : list string :=
  match text with
  | [] => []
  | l :: r =>
      match declared l with
      | Some name => name :: label_decls r
      | None => label_decls r
      end
  end.

(** The instructions that need a branch label of the generator's own: the
    three comparisons and [call]. *)
Definition is_comparison (vm_command : string) : bool :=
  Command.mem vm_command ["eq"; "gt"; "lt"].

Definition allocates (c : method_call) : bool :=
  match c with
  | Write_arithmetic vm_command => is_comparison vm_command
  | Write_call _ _ => true
  | _ => false
  end.

(** The labels declared in the text of the comparisons and calls of a job,
    in the order of the output. *)
Fixpoint branch_labels (cs : list method_call) (self : t) : list string :=
  match cs with
  | [] => []
  | c :: r =>
      (if allocates c then label_decls (emitted (perform c) self) else [])
      +++ match perform c self with
          | (self', Ok _) => branch_labels r self'
          | (_, Err _) => []
          end
  end.

End Job.

(* ------------------------------------------------------------------ *)
(** * Notions used in the statements *)

Module Trace.

Import CodeWriter.

(** [m] appends to the output and neither closes nor reopens the file. *)
Definition appends {A} (m : M A) : Prop :=
  forall self, exists rest,
    Job.output (fst (m self)) = Job.output self +++ rest /\
    closed (write_file (fst (m self))) = closed (write_file self).

(** [m] does what some sequence of method calls does. *)
Definition performs (m : M unit) : Prop :=
  forall self, exists calls,
    fst (Job.perform_all calls self) = fst (m self) /\
    (forall u, snd (m self) = Ok u -> snd (Job.perform_all calls self) = Ok tt).

(** A label the generator numbers itself, with its number in a range of the
    comparison counter or of the return counter. *)
Definition numbered (lo_a hi_a lo_r hi_r : Z) (l : string) : Prop :=
  (exists j, lo_a <= j < hi_a /\
             (l = "TRUE_" ++ Py.str_int j \/ l = "END_" ++ Py.str_int j)) \/
  (exists j, lo_r <= j < hi_r /\ l = "RETURN_" ++ Py.str_int j).

(** The same with no upper bound. *)
Definition numbered_from (lo_a lo_r : Z) (l : string) : Prop :=
  exists hi_a hi_r, numbered lo_a hi_a lo_r hi_r l.

(** The labels of one call of a method, when it is a comparison or a
    [call]. *)
Definition new_labels (c : Job.method_call) (self : t) : list string :=
  if Job.allocates c then Job.label_decls (Job.emitted (Job.perform c) self) else [].


(** The character occurs in the text. *)
Fixpoint has_char (c : ascii) (s : string) : bool :=
  match s with
  | EmptyString => false
  | String d r => (c =? d)%char || has_char c r
  end.


(** The exceptions a method of the code writer can end with, method by
    method. *)
Inductive method_error : Job.method_call -> error -> Prop :=
| ME_closed c :
    method_error c (ValueError "I/O operation on closed file.")
| ME_operator cmd :
    Command.mem cmd ["add"; "sub"; "neg"; "eq"; "gt"; "lt"; "and"; "or"; "not"] = false ->
    method_error (Job.Write_arithmetic cmd) (InvalidOperator cmd)
| ME_command_type ct seg i :
    ct <> "C_PUSH" -> ct <> "C_POP" ->
    method_error (Job.Write_push_pop ct seg i)
      (Exception ("Command type '" ++ ct
                  ++ "' erroneously triggered a write_push_pop() method."))
| ME_pop_constant i :
    method_error (Job.Write_push_pop "C_POP" "constant" i) (InvalidSegment "constant")
| ME_pointer ct i :
    i <> Some 0 -> i <> Some 1 ->
    method_error (Job.Write_push_pop ct "pointer" i) (InvalidOperand i)
| ME_static ct i :
    method_error (Job.Write_push_pop ct "static" i) UnboundContext
| ME_segment ct seg i :
    Command.mem seg ["local"; "argument"; "this"; "that"; "static"; "pointer";
                     "temp"; "constant"] = false ->
    (ct = "C_PUSH" -> seg <> "skip") ->
    method_error (Job.Write_push_pop ct seg i) (UnexpectedSegment seg)
| ME_function f :
    method_error (Job.Write_function f None) TypeError
| ME_call f :
    method_error (Job.Write_call f None) TypeError.

(** The method the driver calls for a command, with the arguments it gives. *)
Definition call_of (c : Command.t) : Job.method_call :=
  let ct := Command.command_type c in
  let a1 := Py.fmt_str (Command._arg1 c) in
  if (ct =? "C_RETURN")%string then Job.Write_return
  else if (ct =? "C_ARITHMETIC")%string then Job.Write_arithmetic a1
  else if (ct =? "C_LABEL")%string then Job.Write_label a1
  else if (ct =? "C_IF")%string then Job.Write_if a1
  else if (ct =? "C_GOTO")%string then Job.Write_goto a1
  else if (ct =? "C_FUNCTION")%string then Job.Write_function a1 (Command._arg2 c)
  else if (ct =? "C_CALL")%string then Job.Write_call a1 (Command._arg2 c)
  else Job.Write_push_pop ct a1 (Command._arg2 c).

(** What the six commands that do not branch compute, on 16-bit words:
    [x] is the word below the top of the stack and [y] the top. *)
Definition binary_result (command : string) (x y : Z) : Z :=
  if (command =? "add")%string then Hack.wrap (x + y)
  else if (command =? "sub")%string then Hack.wrap (x - y)
  else if (command =? "and")%string then Hack.wrap (Z.land x y)
  else Hack.wrap (Z.lor x y).

Definition unary_result (command : string) (y : Z) : Z :=
  if (command =? "neg")%string then Hack.wrap (- y)
  else Hack.wrap (Z.lnot y).

(** The RAM cell a segment and an index stand for: the base the register
    of the segment holds plus the index, the cell of the variable
    [file.index] for [static], [THIS] or [THAT] for [pointer], the cell
    [5 + index] for [temp]. *)
Definition segment_cell (sym : string -> Z) (self : t) (ram : Z -> Z)
  (segment : string) (index : Z) : option Z :=
  if Command.mem segment ["local"; "argument"; "this"; "that"] then
    match get_ram_code segment with
    | Ok reg => Some (ram (sym reg) + index)
    | Err _ => None
    end
  else if (segment =? "static")%string then
    option_map (fun name => sym (name ++ "." ++ Py.str_int index)) (current_filename self)
  else if (segment =? "pointer")%string then
    if index =? 0 then Some (sym "THIS")
    else if index =? 1 then Some (sym "THAT") else None
  else if (segment =? "temp")%string then Some (5 + index)
  else None.

(** The seven instructions [write_function] emits for the local variable
    [i]. *)
Definition local_block (i : Z) : list Hack.instr :=
  [ Hack.At (Hack.Sym "LCL");
    Hack.C (Hack.mk_dest false true false) (Hack.mk_comp true Hack.OpX) Hack.JNone;
    Hack.At (Hack.Num i);
    Hack.C (Hack.mk_dest true false false) (Hack.mk_comp false Hack.DPlusX) Hack.JNone;
    Hack.C (Hack.mk_dest false false true) (Hack.mk_comp false Hack.Zero) Hack.JNone;
    Hack.At (Hack.Sym "SP");
    Hack.C (Hack.mk_dest false false true) (Hack.mk_comp true Hack.IncX) Hack.JNone ].

(** [old] occurs in [s]. *)
Fixpoint occurs (old s : string) : bool :=
  prefix old s ||
  match s with
  | EmptyString => false
  | String _ r => occurs old r
  end.


(** The code writer [self] with the logging of VM commands set to [b] and
    the lines [ls] in its output file. *)
Definition with_log (b : bool) (ls : list string) (self : t) : t :=
  mk (in_filepath self) (out_filename self)
     (mk_file ls (closed (write_file self)))
     (current_filename self) (current_function self)
     (arith_jump_counter self) (return_counter self) b.

End Trace.

(* ------------------------------------------------------------------ *)
(** * Sample inputs

    Concrete code writers, programs and machine states, on which the
    statements below are instantiated. *)

Module Sample.

(** A code writer right after its construction for the single file
    [Main.vm]. *)
Definition writer : CodeWriter.t :=
  CodeWriter.mk "Main.vm" "Main.asm" (CodeWriter.mk_file [] false) None None 0 0 true.

(** The same code writer inside the function [Main.loop]. *)
Definition writer_in_function : CodeWriter.t :=
  CodeWriter.set_current_function (Some "Main.loop") writer.

(** A RAM given by the cells that are not zero. *)
Fixpoint ram_of (cells : list (Z * Z)) : Z -> Z :=
  match cells with
  | [] => fun _ => 0
  | (a, v) :: r => Hack.upd (ram_of r) a v
  end.

(** The program made of the text one method emits, its labels and its
    variables. *)
Definition text_of (m : CodeWriter.M unit) (self : CodeWriter.t) : list string :=
  Job.emitted m self.

Definition code_of (text : list string) : list Hack.instr :=
  match Hack.instructions text with
  | Some code => code
  | None => []
  end.

Definition symbols_of (text : list string) : string -> Z :=
  let labels := Hack.label_table text in
  Hack.symbol_value labels (Hack.variables labels (code_of text)).

(** A function called with one argument is about to return 42: the
    argument sits at 256, the saved frame at 257..261 (return address 1000,
    then the caller's LCL, ARG, THIS, THAT), and the value on top. *)
Definition returning : Hack.machine :=
  Hack.mk 0 0 0
    (ram_of [ (0, 263); (1, 262); (2, 256); (3, 3010); (4, 4010);
              (256, 7); (257, 1000); (258, 300); (259, 290);
              (260, 3000); (261, 4000); (262, 42) ]).

(** A caller with two arguments on its stack. *)
Definition calling : Hack.machine :=
  Hack.mk 0 0 0
    (ram_of [ (0, 263); (1, 256); (2, 250); (3, 3000); (4, 4000);
              (261, 3); (262, 4) ]).

Definition nl : string := String Py.newline "".

(** Scenario B: a single file holding [push constant 5], [push constant 5],
    [eq]. *)
Definition scenario_B : list (string * list string) :=
  [("Test.vm", ["push constant 5" ++ nl; "push constant 5" ++ nl; "eq" ++ nl])].



(** A disk with one directory, [prog], holding two VM files, a text file
    and a directory whose name ends in [.vm]. *)
Definition disk : Main.filesystem :=
  Main.mk_fs
    (fun p => Command.mem p ["prog"; "prog/Main.vm"; "prog/notes.txt";
                             "prog/sub.vm"; "prog/Sys.vm"])
    (fun p => Command.mem p ["prog/Main.vm"; "prog/notes.txt"; "prog/Sys.vm"])
    (fun p => Command.mem p ["prog"; "prog/sub.vm"])
    (fun p => if (p =? "prog")%string
              then ["Main.vm"; "notes.txt"; "sub.vm"; "Sys.vm"] else [])
    (fun p => if (p =? "prog/Main.vm")%string then ["push constant 1" ++ Sample.nl]
              else if (p =? "prog/Sys.vm")%string then ["call Main.main 0" ++ Sample.nl]
              else []).


(** A program of two parts: a call of [Main.add] with two arguments, and
    after it the text of a [return]. *)
Definition call_and_return : list string :=
  Job.emitted (CodeWriter.write_call "Main.add" (Some 2)) Sample.writer +++
  Job.emitted CodeWriter.write_return Sample.writer.

(** The callee of [calling] about to return 7: the frame of the caller at
    263..267, the value on top. *)
Definition returning_to_caller : Hack.machine :=
  Hack.mk 0 0 42
    (Sample.ram_of [ (0, 269); (1, 268); (2, 261); (3, 3020); (4, 4020);
                     (261, 3); (262, 4);
                     (263, 42); (264, 256); (265, 250); (266, 3000); (267, 4000);
                     (268, 7) ]).

End Sample.

(* ================================================================== *)
(** * Properties *)

Import CodeWriter.
Import Trace.

(** ** The monad *)

Lemma bind_ok {A B} (m : M A) (k : A -> M B) self self' a :
  m self = (self', Ok a) -> bind m k self = k a self'.
Proof. intros H. unfold bind. now rewrite H. Qed.

Lemma bind_err {A B} (m : M A) (k : A -> M B) self self' e :
  m self = (self', Err e) -> bind m k self = (self', Err e).
Proof. intros H. unfold bind. now rewrite H. Qed.

(** ** The output file only grows, and stays open *)

Lemma appends_ret {A} (a : A) : appends (ret a).
Proof. intros self. exists []. cbn. now rewrite app_nil_r. Qed.

Lemma appends_raise {A} e : appends (@raise A e).
Proof. intros self. exists []. cbn. now rewrite app_nil_r. Qed.

Lemma appends_lift {A} (r : result A) : appends (lift r).
Proof. intros self. exists []. cbn. now rewrite app_nil_r. Qed.

Lemma appends_get : appends get.
Proof. intros self. exists []. cbn. now rewrite app_nil_r. Qed.

Lemma appends_bind {A B} (m : M A) (k : A -> M B) :
  appends m -> (forall a, appends (k a)) -> appends (bind m k).
Proof.
  intros Hm Hk self. unfold bind.
  destruct (Hm self) as [r1 [H1 C1]].
  destruct (m self) as [self1 [a|e]]; cbn in *.
  - destruct (Hk a self1) as [r2 [H2 C2]].
    exists (r1 +++ r2). rewrite H2, H1, C2, C1. now rewrite app_assoc.
  - now exists r1.
Qed.

Lemma appends_write commands : appends (write commands).
Proof.
  intros self. unfold write.
  destruct (closed (write_file self)) eqn:E; cbn.
  - exists []. now rewrite app_nil_r.
  - now exists (written commands).
Qed.

Lemma appends_when b m : appends m -> appends (when b m).
Proof. intros H. destruct b; cbn; [exact H | apply appends_ret]. Qed.

Lemma appends_modify f :
  (forall self, write_file (f self) = write_file self) -> appends (modify f).
Proof.
  intros H self. exists []. cbn. unfold Job.output. rewrite H.
  now rewrite app_nil_r.
Qed.

Create HintDb appends.
#[local] Hint Resolve appends_ret appends_raise appends_lift appends_get
  appends_write appends_when : appends.

Ltac appends_tac :=
  repeat first
    [ apply appends_bind; [ | intros ? ]
    | apply appends_modify; intros; reflexivity
    | solve [ auto with appends ]
    | match goal with
      | |- appends (if ?b then _ else _) => destruct b
      | |- appends (match ?x with _ => _ end) => destruct x
      end ].

Lemma appends_translate_arithmetic command :
  appends (translate_arithmetic_vm_code_to_assembly command).
Proof. unfold translate_arithmetic_vm_code_to_assembly. appends_tac. Qed.

Lemma appends_set_filename filepath : appends (set_filename filepath).
Proof. unfold set_filename. appends_tac. Qed.

Lemma appends_write_arithmetic c : appends (write_arithmetic c).
Proof. unfold write_arithmetic. appends_tac. Qed.

Lemma appends_write_push_pop c s i : appends (write_push_pop c s i).
Proof. unfold write_push_pop. appends_tac. Qed.

Lemma appends_write_label l : appends (write_label l).
Proof. unfold write_label. appends_tac. Qed.

Lemma appends_write_goto l : appends (write_goto l).
Proof. unfold write_goto. appends_tac. Qed.

Lemma appends_write_if l : appends (write_if l).
Proof. unfold write_if. appends_tac. Qed.

Lemma appends_write_function f n : appends (write_function f n).
Proof. unfold write_function. appends_tac. Qed.

Lemma appends_write_call f n : appends (write_call f n).
Proof. unfold write_call. appends_tac. Qed.

Lemma appends_write_return : appends write_return.
Proof. unfold write_return. appends_tac. Qed.

#[local] Hint Resolve appends_set_filename appends_write_arithmetic
  appends_write_push_pop appends_write_label appends_write_goto
  appends_write_if appends_write_function appends_write_call
  appends_write_return : appends.

Lemma appends_perform c : appends (Job.perform c).
Proof. destruct c; cbn; auto with appends. Qed.

Lemma appends_perform_all cs : appends (Job.perform_all cs).
Proof.
  induction cs as [|c r IH]; cbn.
  - apply appends_ret.
  - apply appends_bind; [apply appends_perform | intros _; exact IH].
Qed.

(** ** What a method emits *)

Lemma skipn_length_app {A} (l r : list A) : skipn (List.length l) (l +++ r) = r.
Proof. induction l; cbn; auto. Qed.

Lemma emitted_eq {A} (m : M A) self X :
  Job.output (fst (m self)) = Job.output self +++ X -> Job.emitted m self = X.
Proof. intros H. unfold Job.emitted. rewrite H. apply skipn_length_app. Qed.

(** Exposes the attributes of a code writer whose file is open. *)
Ltac open_writer self H :=
  let ls := fresh "ls" in
  let c := fresh "c" in
  let log := fresh "log" in
  destruct self as [? ? [ls c] ? ? ? ? log]; cbn in H; subst c.

Ltac emitted_tac self H :=
  apply emitted_eq; open_writer self H;
  match goal with
  | |- context [log_vm_commands (mk _ _ _ _ _ _ _ ?log)] => destruct log
  end; cbn; rewrite <- ?app_assoc; reflexivity.

(** ** The machine: words, cells and blocks of instructions *)

Lemma upd_same ram a v : Hack.upd ram a v a = v.
Proof. unfold Hack.upd. now rewrite Z.eqb_refl. Qed.

Lemma upd_eq ram a v x : x = a -> Hack.upd ram a v x = v.
Proof. intros ->. apply upd_same. Qed.

Lemma upd_other ram a v x : x <> a -> Hack.upd ram a v x = ram x.
Proof. intros H. unfold Hack.upd. now apply Z.eqb_neq in H as ->. Qed.

Lemma wrap_small z : 0 <= z < 65536 -> Hack.wrap z = z.
Proof. intros H. unfold Hack.wrap. now apply Z.mod_small. Qed.

Lemma addr_small z : 0 <= z < 32768 -> Hack.addr z = z.
Proof. intros H. unfold Hack.addr. now apply Z.mod_small. Qed.

Lemma loaded_tail rom p i code :
  Hack.loaded rom p (i :: code) -> Hack.loaded rom (p + 1) code.
Proof.
  intros [Hp H]. split; [lia|].
  intros k j Hk. specialize (H (S k) j Hk).
  now replace (p + 1 + Z.of_nat k) with (p + Z.of_nat (S k)) by lia.
Qed.

Lemma loaded_head rom p i code :
  Hack.loaded rom p (i :: code) -> Hack.fetch rom p = Some i.
Proof.
  intros [Hp H]. specialize (H O i eq_refl). now rewrite Z.add_0_r in H.
Qed.

Lemma loaded_app_l rom p c1 c2 :
  Hack.loaded rom p (c1 +++ c2) -> Hack.loaded rom p c1.
Proof.
  intros [Hp H]. split; [exact Hp|].
  intros k i Hk. apply H. rewrite nth_error_app1; [exact Hk|].
  apply nth_error_Some. congruence.
Qed.

Lemma loaded_self code : Hack.loaded code 0 code.
Proof.
  split; [lia|]. intros k i Hk. unfold Hack.fetch. rewrite Z.add_0_l.
  destruct (Z.of_nat k <? 0) eqn:E; [apply Z.ltb_lt in E; lia|].
  now rewrite Nat2Z.id.
Qed.

Lemma steps_add n1 n2 sym rom m :
  Hack.steps (n1 + n2) sym rom m =
  match Hack.steps n1 sym rom m with
  | Some m' => Hack.steps n2 sym rom m'
  | None => None
  end.
Proof.
  revert m. induction n1 as [|n1 IH]; intros m; cbn; [reflexivity|].
  destruct (Hack.step sym rom m); [apply IH | reflexivity].
Qed.

Lemma steps_one sym rom m i :
  Hack.fetch rom (Hack.PC m) = Some i ->
  Hack.steps 1 sym rom m = Some (Hack.exec sym i m).
Proof. intros H. cbn. unfold Hack.step. now rewrite H. Qed.

Lemma exec_block_app sym c1 c2 m :
  Hack.exec_block sym (c1 +++ c2) m =
  Hack.exec_block sym c2 (Hack.exec_block sym c1 m).
Proof. unfold Hack.exec_block. apply fold_left_app. Qed.

(** A block without jumps runs from its first instruction to the one that
    follows its last. *)
Lemma steps_block sym rom code : forall p m,
  Hack.loaded rom p code -> Hack.straight code = true -> Hack.PC m = p ->
  Hack.steps (List.length code) sym rom m = Some (Hack.exec_block sym code m) /\
  Hack.PC (Hack.exec_block sym code m) = p + Z.of_nat (List.length code).
Proof.
  induction code as [|i code IH]; intros p m Hl Hs Hpc.
  - cbn. split; [reflexivity | lia].
  - cbn [List.length Hack.steps]. unfold Hack.step.
    rewrite Hpc, (loaded_head _ _ _ _ Hl). cbn [option_map].
    cbn [Hack.straight forallb] in Hs. apply andb_prop in Hs as [Hi Hs].
    assert (Hpc' : Hack.PC (Hack.exec sym i m) = p + 1).
    { destruct i as [o|d c j]; cbn; try lia.
      destruct j; try discriminate. cbn. lia. }
    destruct (IH (p + 1) (Hack.exec sym i m) (loaded_tail _ _ _ _ Hl) Hs Hpc')
      as [H1 H2].
    split; [exact H1|]. unfold Hack.exec_block in *. cbn [fold_left].
    rewrite H2. lia.
Qed.

Lemma firstn_add {A} (a b : nat) (l : list A) :
  firstn (a + b) l = firstn a l +++ firstn b (skipn a l).
Proof.
  revert l. induction a as [|a IH]; intros [|x l]; cbn; try reflexivity.
  - now rewrite firstn_nil.
  - now rewrite IH.
Qed.

Lemma exec_block_firstn_add sym code m a b :
  Hack.exec_block sym (firstn (a + b) code) m =
  Hack.exec_block sym (firstn b (skipn a code)) (Hack.exec_block sym (firstn a code) m).
Proof. now rewrite firstn_add, exec_block_app. Qed.

Lemma steps_firstn sym rom p code m k :
  Hack.loaded rom p code -> Hack.straight (firstn k code) = true -> Hack.PC m = p ->
  Hack.steps (List.length (firstn k code)) sym rom m =
  Some (Hack.exec_block sym (firstn k code) m).
Proof.
  intros Hl Hs Hp. rewrite <- (firstn_skipn k code) in Hl.
  apply (steps_block sym rom (firstn k code) p m); auto.
  eapply loaded_app_l; eauto.
Qed.

(** The first [n] instructions of a block whose first [n] are free of
    jumps run as a block. *)
Lemma steps_straight_prefix sym rom p code m n k :
  Hack.loaded rom p code -> Hack.PC m = p ->
  Hack.straight (firstn n code) = true ->
  (n <= List.length code)%nat -> (k <= n)%nat ->
  Hack.steps k sym rom m = Some (Hack.exec_block sym (firstn k code) m).
Proof.
  intros Hl Hp Hs Hn Hk.
  assert (Hlen : List.length (firstn k code) = k) by (apply firstn_length_le; lia).
  rewrite <- Hlen at 1. apply (steps_firstn sym rom p); auto.
  replace (firstn k code) with (firstn k (firstn n code)).
  - unfold Hack.straight in *. rewrite forallb_forall in *.
    intros i Hi. apply Hs. rewrite <- (firstn_skipn k (firstn n code)).
    apply in_or_app. now left.
  - rewrite firstn_firstn. f_equal. lia.
Qed.

Lemma instructions_app t1 t2 c1 c2 :
  Hack.instructions t1 = Some c1 -> Hack.instructions t2 = Some c2 ->
  Hack.instructions (t1 +++ t2) = Some (c1 +++ c2).
Proof.
  revert c1. induction t1 as [|l t1 IH]; intros c1 H1 H2; cbn in *.
  - now inversion H1.
  - destruct (Hack.parse_line l) as [[|name|i]|]; try discriminate; auto.
    destruct (Hack.instructions t1) as [c|]; [|discriminate].
    cbn in H1. inversion H1; subst. now rewrite (IH c eq_refl H2).
Qed.

(** Symbolic execution of a block on a machine whose cells are known. *)
Ltac word_simpl :=
  repeat first
    [ rewrite upd_same
    | match goal with
      | |- context [Hack.wrap ?z] => rewrite (wrap_small z) by lia
      | |- context [Hack.addr ?z] => rewrite (addr_small z) by lia
      | |- context [Hack.upd ?r ?a ?v ?x] => rewrite (upd_eq r a v x) by lia
      | |- context [Hack.upd ?r ?a ?v ?x] => rewrite (upd_other r a v x) by lia
      end ].

Ltac run_block :=
  unfold Hack.exec_block; cbn [fold_left];
  repeat (cbn [Hack.exec Hack.A Hack.D Hack.PC Hack.RAM Hack.uses_M Hack.op
               Hack.to_A Hack.to_D Hack.to_M Hack.alu_out Hack.jump_taken
               Hack.operand_value];
          word_simpl).

(** The predefined symbols the generated text relies on. *)
Lemma symbol_SP labels vars : Hack.symbol_value labels vars "SP" = 0.
Proof. reflexivity. Qed.

Lemma symbol_LCL labels vars : Hack.symbol_value labels vars "LCL" = 1.
Proof. reflexivity. Qed.

Lemma symbol_ARG labels vars : Hack.symbol_value labels vars "ARG" = 2.
Proof. reflexivity. Qed.

Lemma symbol_THIS labels vars : Hack.symbol_value labels vars "THIS" = 3.
Proof. reflexivity. Qed.

Lemma symbol_THAT labels vars : Hack.symbol_value labels vars "THAT" = 4.
Proof. reflexivity. Qed.

(* ------------------------------------------------------------------ *)
(** ** The return sequence *)

Lemma emitted_write_return self :
  closed (write_file self) = false ->
  Job.emitted write_return self =
  (if log_vm_commands self then ["//  return"] else []) +++
  [ "@LCL"; "D=M"; "@frame"; "M=D";
    "@5"; "A=D-A"; "D=M"; "@return"; "M=D";
    "@SP"; "AM=M-1"; "D=M"; "@ARG"; "A=M"; "M=D";
    "D=A+1"; "@SP"; "M=D";
    "@frame"; "D=M"; "@1"; "A=D-A"; "D=M"; "@THAT"; "M=D";
    "@frame"; "D=M"; "@2"; "A=D-A"; "D=M"; "@THIS"; "M=D";
    "@frame"; "D=M"; "@3"; "A=D-A"; "D=M"; "@ARG"; "M=D";
    "@frame"; "D=M"; "@4"; "A=D-A"; "D=M"; "@LCL"; "M=D";
    "@return"; "A=M"; "0;JMP" ].
Proof. intros H. emitted_tac self H. Qed.

(** C1.  The text of [return], run on the target machine from a frame laid
    out by a call (the variables [frame] and [return] in the static area,
    the caller's argument slot below the five saved words, the value to
    return on top of the stack), does in this order: after 4 instructions
    the local base is captured in [frame]; after 9 the return address read
    at [frame - 5] is in [return]; after 15 the top of the stack is in the
    caller's argument slot 0, [LCL] and [ARG] still holding their old
    values; after 18 the stack pointer is [ARG + 1]; after 25, 32, 39 and 46
    [THAT], [THIS], [ARG] and [LCL] hold the words saved at [frame - 1],
    [frame - 2], [frame - 3] and [frame - 4]; the 49th instruction jumps to
    the captured return address. *)
Theorem return_sequence labels vars rom p m self code fv rv S L Ar :
  let sym := Hack.symbol_value labels vars in
  closed (write_file self) = false ->
  Hack.instructions (Job.emitted write_return self) = Some code ->
  Hack.loaded rom p code -> Hack.PC m = p ->
  sym "frame" = fv -> sym "return" = rv ->
  16 <= fv < 256 -> 16 <= rv < 256 -> fv <> rv ->
  Hack.RAM m 0 = S -> Hack.RAM m 1 = L -> Hack.RAM m 2 = Ar ->
  256 <= Ar -> Ar + 5 <= L -> L < S -> S < 32768 ->
  Hack.after 4 sym rom m (fun m' => Hack.RAM m' fv = L) /\
  Hack.after 9 sym rom m (fun m' => Hack.RAM m' rv = Hack.RAM m (L - 5)) /\
  Hack.after 15 sym rom m (fun m' =>
     Hack.RAM m' Ar = Hack.RAM m (S - 1) /\
     Hack.RAM m' 1 = L /\ Hack.RAM m' 2 = Ar) /\
  Hack.after 18 sym rom m (fun m' => Hack.RAM m' 0 = Ar + 1) /\
  Hack.after 25 sym rom m (fun m' => Hack.RAM m' 4 = Hack.RAM m (L - 1)) /\
  Hack.after 32 sym rom m (fun m' => Hack.RAM m' 3 = Hack.RAM m (L - 2)) /\
  Hack.after 39 sym rom m (fun m' =>
     Hack.RAM m' 2 = Hack.RAM m (L - 3) /\ Hack.RAM m' 1 = L) /\
  Hack.after 46 sym rom m (fun m' => Hack.RAM m' 1 = Hack.RAM m (L - 4)) /\
  Hack.after 49 sym rom m (fun m' =>
     Hack.PC m' = Hack.addr (Hack.RAM m (L - 5)) /\
     Hack.RAM m' Ar = Hack.RAM m (S - 1) /\
     Hack.RAM m' 0 = Ar + 1 /\
     Hack.RAM m' 4 = Hack.RAM m (L - 1) /\
     Hack.RAM m' 3 = Hack.RAM m (L - 2) /\
     Hack.RAM m' 2 = Hack.RAM m (L - 3) /\
     Hack.RAM m' 1 = Hack.RAM m (L - 4)).
Proof.
  intros sym Hopen Hcode Hl Hpc Hfv Hrv Bfv Brv Hne HS HL HAr B1 B2 B3 B4.
  assert (Hsp : sym "SP" = 0) by reflexivity.
  assert (Hlcl : sym "LCL" = 1) by reflexivity.
  assert (Harg : sym "ARG" = 2) by reflexivity.
  assert (Hthis : sym "THIS" = 3) by reflexivity.
  assert (Hthat : sym "THAT" = 4) by reflexivity.
  clearbody sym.
  rewrite (emitted_write_return _ Hopen) in Hcode.
  assert (Hcode' : Hack.instructions
    [ "@LCL"; "D=M"; "@frame"; "M=D";
      "@5"; "A=D-A"; "D=M"; "@return"; "M=D";
      "@SP"; "AM=M-1"; "D=M"; "@ARG"; "A=M"; "M=D";
      "D=A+1"; "@SP"; "M=D";
      "@frame"; "D=M"; "@1"; "A=D-A"; "D=M"; "@THAT"; "M=D";
      "@frame"; "D=M"; "@2"; "A=D-A"; "D=M"; "@THIS"; "M=D";
      "@frame"; "D=M"; "@3"; "A=D-A"; "D=M"; "@ARG"; "M=D";
      "@frame"; "D=M"; "@4"; "A=D-A"; "D=M"; "@LCL"; "M=D";
      "@return"; "A=M"; "0;JMP" ] = Some code).
  { destruct (log_vm_commands self); exact Hcode. }
  clear Hcode. vm_compute in Hcode'. injection Hcode' as <-.
  destruct m as [a d pc ram]. cbn in Hpc, HS, HL, HAr. subst pc.
  set (m0 := Hack.mk a d p ram).
  match type of Hl with Hack.loaded _ _ ?c => set (code := c) in * end.
  pose (ram4 := Hack.upd ram fv L).
  pose (ram9 := Hack.upd ram4 rv (ram (L - 5))).
  pose (ram15 := Hack.upd (Hack.upd ram9 0 (S - 1)) Ar (ram (S - 1))).
  pose (ram18 := Hack.upd ram15 0 (Ar + 1)).
  pose (ram25 := Hack.upd ram18 4 (ram (L - 1))).
  pose (ram32 := Hack.upd ram25 3 (ram (L - 2))).
  pose (ram39 := Hack.upd ram32 2 (ram (L - 3))).
  pose (ram46 := Hack.upd ram39 1 (ram (L - 4))).
  assert (E4 : Hack.exec_block sym (firstn 4 code) m0 = Hack.mk fv L (p + 4) ram4).
  { subst code m0. cbn [firstn]. run_block. rewrite Hlcl, Hfv. word_simpl.
    rewrite HL. f_equal; lia. }
  assert (E9 : Hack.exec_block sym (firstn 9 code) m0
               = Hack.mk rv (ram (L - 5)) (p + 9) ram9).
  { change 9%nat with (4 + 5)%nat. rewrite exec_block_firstn_add, E4.
    subst code. cbn [firstn skipn]. run_block. rewrite Hrv. subst ram4.
    word_simpl. f_equal; lia. }
  assert (E15 : Hack.exec_block sym (firstn 15 code) m0
                = Hack.mk Ar (ram (S - 1)) (p + 15) ram15).
  { change 15%nat with (9 + 6)%nat. rewrite exec_block_firstn_add, E9.
    subst code. cbn [firstn skipn]. run_block. rewrite Hsp, Harg.
    subst ram9 ram4. word_simpl. rewrite HS. word_simpl. rewrite HAr.
    word_simpl. f_equal; lia. }
  assert (E18 : Hack.exec_block sym (firstn 18 code) m0
                = Hack.mk 0 (Ar + 1) (p + 18) ram18).
  { change 18%nat with (15 + 3)%nat. rewrite exec_block_firstn_add, E15.
    subst code. cbn [firstn skipn]. run_block. rewrite Hsp. word_simpl.
    f_equal; lia. }
  assert (E25 : Hack.exec_block sym (firstn 25 code) m0
                = Hack.mk 4 (ram (L - 1)) (p + 25) ram25).
  { change 25%nat with (18 + 7)%nat. rewrite exec_block_firstn_add, E18.
    subst code. cbn [firstn skipn]. run_block. rewrite Hfv, Hthat.
    subst ram18 ram15 ram9 ram4. word_simpl. f_equal; lia. }
  assert (E32 : Hack.exec_block sym (firstn 32 code) m0
                = Hack.mk 3 (ram (L - 2)) (p + 32) ram32).
  { change 32%nat with (25 + 7)%nat. rewrite exec_block_firstn_add, E25.
    subst code. cbn [firstn skipn]. run_block. rewrite Hfv, Hthis.
    subst ram25 ram18 ram15 ram9 ram4. word_simpl. f_equal; lia. }
  assert (E39 : Hack.exec_block sym (firstn 39 code) m0
                = Hack.mk 2 (ram (L - 3)) (p + 39) ram39).
  { change 39%nat with (32 + 7)%nat. rewrite exec_block_firstn_add, E32.
    subst code. cbn [firstn skipn]. run_block. rewrite Hfv, Harg.
    subst ram32 ram25 ram18 ram15 ram9 ram4. word_simpl. f_equal; lia. }
  assert (E46 : Hack.exec_block sym (firstn 46 code) m0
                = Hack.mk 1 (ram (L - 4)) (p + 46) ram46).
  { change 46%nat with (39 + 7)%nat. rewrite exec_block_firstn_add, E39.
    subst code. cbn [firstn skipn]. run_block. rewrite Hfv, Hlcl.
    subst ram39 ram32 ram25 ram18 ram15 ram9 ram4. word_simpl. f_equal; lia. }
  assert (E48 : Hack.exec_block sym (firstn 48 code) m0
                = Hack.mk (ram (L - 5)) (ram (L - 4)) (p + 48) ram46).
  { change 48%nat with (46 + 2)%nat. rewrite exec_block_firstn_add, E46.
    subst code. cbn [firstn skipn]. run_block. rewrite Hrv.
    subst ram46 ram39 ram32 ram25 ram18 ram15 ram9 ram4. word_simpl.
    f_equal; lia. }
  assert (Run : forall k, (k <= 48)%nat ->
            Hack.steps k sym rom m0 = Some (Hack.exec_block sym (firstn k code) m0)).
  { intros k Hk. apply (steps_straight_prefix sym rom p code m0 48); auto.
    subst code. cbn [List.length]. lia. }
  unfold Hack.after. repeat split.
  - eexists. split; [apply Run; lia|]. rewrite E4. cbn. subst ram4. now word_simpl.
  - eexists. split; [apply Run; lia|]. rewrite E9. cbn. subst ram9. now word_simpl.
  - eexists. split; [apply Run; lia|]. rewrite E15. cbn. subst ram15 ram9 ram4.
    repeat split; now word_simpl.
  - eexists. split; [apply Run; lia|]. rewrite E18. cbn. subst ram18. now word_simpl.
  - eexists. split; [apply Run; lia|]. rewrite E25. cbn. subst ram25. now word_simpl.
  - eexists. split; [apply Run; lia|]. rewrite E32. cbn. subst ram32. now word_simpl.
  - eexists. split; [apply Run; lia|]. rewrite E39. cbn.
    subst ram39 ram32 ram25 ram18 ram15 ram9 ram4. repeat split; now word_simpl.
  - eexists. split; [apply Run; lia|]. rewrite E46. cbn. subst ram46. now word_simpl.
  - eexists. split.
    + change 49%nat with (48 + 1)%nat. rewrite steps_add, Run, E48 by lia.
      apply steps_one. cbn [Hack.PC].
      destruct Hl as [Hp Hf]. apply (Hf 48%nat). reflexivity.
    + cbn. subst ram46 ram39 ram32 ram25 ram18 ram15 ram9 ram4.
      repeat split; now word_simpl.
Qed.

Lemma return_sequence_witness :
  let text := Job.emitted write_return Sample.writer in
  let code := Sample.code_of text in
  Hack.after 49 (Hack.symbol_value [] (Hack.variables [] code)) code Sample.returning
    (fun m' =>
       Hack.PC m' = 1000 /\ Hack.RAM m' 256 = 42 /\ Hack.RAM m' 0 = 257 /\
       Hack.RAM m' 4 = 4000 /\ Hack.RAM m' 3 = 3000 /\
       Hack.RAM m' 2 = 290 /\ Hack.RAM m' 1 = 300).
Proof.
  intros text code.
  apply (return_sequence [] (Hack.variables [] code) code 0 Sample.returning
           Sample.writer code 16 17 263 262 256);
    try reflexivity; try lia.
  apply loaded_self.
Defined.

(** ** Reading the generated lines *)

Lemma str_int_inj a b : Py.str_int a = Py.str_int b -> a = b.
Proof.
  unfold Py.str_int. intros H.
  apply DecimalZ.to_int_inj.
  assert (Hn : forall z, Z.to_int z <> Decimal.Pos Decimal.Nil /\
                         Z.to_int z <> Decimal.Neg Decimal.Nil).
  { intros [|q|q]; cbn; split; try discriminate;
      intros E; injection E as E; now apply Unsigned.to_uint_nonnil in E. }
  destruct (Hn a) as [Ha1 Ha2], (Hn b) as [Hb1 Hb2].
  pose proof (NilZero.isi _ Ha1 Ha2) as Ea.
  pose proof (NilZero.isi _ Hb1 Hb2) as Eb.
  rewrite H in Ea. congruence.
Qed.

Lemma parse_operand_str_int z :
  0 <= z < 32768 -> Hack.parse_operand (Py.str_int z) = Some (Hack.Num z).
Proof.
  intros Hz. unfold Hack.parse_operand, Py.str_int.
  destruct z as [|q|q]; [reflexivity| |lia].
  cbn [Z.to_int NilZero.string_of_int].
  rewrite NilZero.usu by apply Unsigned.to_uint_nonnil.
  unfold Z.of_uint. rewrite Unsigned.of_to. cbn [Z.of_N].
  destruct (Z.pos q <? 32768) eqn:E; [reflexivity|].
  apply Z.ltb_ge in E. lia.
Qed.

Lemma label_name_close s : Hack.label_name (s ++ ")") = Some s.
Proof.
  induction s as [|c s IH]; [reflexivity|].
  cbn [append Hack.label_name]. rewrite IH.
  destruct (s ++ ")") eqn:E; [|reflexivity].
  destruct s; discriminate.
Qed.

Lemma parse_line_label s :
  Hack.parse_line ("(" ++ s ++ ")") = Some (Hack.LabelDecl s).
Proof. cbn. now rewrite label_name_close. Qed.

Lemma declared_label s : Job.declared ("(" ++ s ++ ")") = Some s.
Proof. cbn. apply label_name_close. Qed.

Lemma parse_line_at x :
  Hack.parse_line ("@" ++ x) =
  option_map (fun o => Hack.Instr (Hack.At o)) (Hack.parse_operand x).
Proof. reflexivity. Qed.

Lemma parse_operand_symbol c s :
  Py.is_digit c = false ->
  Hack.parse_operand (String c s) = Some (Hack.Sym (String c s)).
Proof.
  intros Hc. unfold Hack.parse_operand.
  cbn [NilZero.uint_of_string NilEmpty.uint_of_string].
  assert (E : forall d, uint_of_char c d = None).
  { intros [d|]; [|reflexivity].
    destruct c as [[] [] [] [] [] [] [] []]; try reflexivity; discriminate. }
  now rewrite E.
Qed.

Lemma parse_operand_RETURN s :
  Hack.parse_operand ("RETURN_" ++ s) = Some (Hack.Sym ("RETURN_" ++ s)).
Proof. now apply parse_operand_symbol. Qed.

Lemma parse_operand_TRUE s :
  Hack.parse_operand ("TRUE_" ++ s) = Some (Hack.Sym ("TRUE_" ++ s)).
Proof. now apply parse_operand_symbol. Qed.

Lemma parse_operand_END s :
  Hack.parse_operand ("END_" ++ s) = Some (Hack.Sym ("END_" ++ s)).
Proof. now apply parse_operand_symbol. Qed.

Lemma instructions_nil : Hack.instructions [] = Some [].
Proof. reflexivity. Qed.

Lemma instructions_line l i r c :
  Hack.parse_line l = Some (Hack.Instr i) -> Hack.instructions r = Some c ->
  Hack.instructions (l :: r) = Some (i :: c).
Proof. intros Hl Hr. cbn. now rewrite Hl, Hr. Qed.

Lemma instructions_at x o r c :
  Hack.parse_operand x = Some o -> Hack.instructions r = Some c ->
  Hack.instructions (("@" ++ x) :: r) = Some (Hack.At o :: c).
Proof.
  intros Hx Hr. apply instructions_line; [|exact Hr].
  now rewrite parse_line_at, Hx.
Qed.

Lemma instructions_label s r c :
  Hack.instructions r = Some c ->
  Hack.instructions (("(" ++ s ++ ")") :: r) = Some c.
Proof. intros Hr. cbn [Hack.instructions]. now rewrite parse_line_label. Qed.

Lemma instructions_blank l r c :
  Hack.parse_line l = Some Hack.Blank -> Hack.instructions r = Some c ->
  Hack.instructions (l :: r) = Some c.
Proof. intros Hl Hr. cbn. now rewrite Hl. Qed.

Lemma instructions_skip l r :
  Hack.parse_line l = Some Hack.Blank ->
  Hack.instructions (l :: r) = Hack.instructions r.
Proof. intros Hl. cbn. now rewrite Hl. Qed.

Lemma parse_line_comment s : Hack.parse_line ("//" ++ s) = Some Hack.Blank.
Proof. reflexivity. Qed.

(** Solves [parse_operand x = Some ?o] for the operands the code writer
    produces. *)
Ltac operand_tac :=
  lazymatch goal with
  | |- Hack.parse_operand (Py.str_int _) = _ => apply parse_operand_str_int; lia
  | |- Hack.parse_operand ("RETURN_" ++ _) = _ => apply parse_operand_RETURN
  | |- Hack.parse_operand ("TRUE_" ++ _) = _ => apply parse_operand_TRUE
  | |- Hack.parse_operand ("END_" ++ _) = _ => apply parse_operand_END
  | |- _ => first [ eassumption
                  | apply parse_operand_symbol; reflexivity
                  | vm_compute; reflexivity ]
  end.

(** Builds the instructions of a text line by line. *)
Ltac asm_tac :=
  repeat lazymatch goal with
  | |- Hack.instructions [] = _ => apply instructions_nil
  | |- Hack.instructions (("@" ++ _) :: _) = _ =>
      eapply instructions_at; [operand_tac|]
  | |- Hack.instructions (("(" ++ _ ++ ")") :: _) = _ => eapply instructions_label
  | |- Hack.instructions ((String "/" (String "/" _) ++ _) :: _) = _ =>
      eapply instructions_blank; [apply parse_line_comment|]
  | |- Hack.instructions (_ :: _) = _ =>
      eapply instructions_line; [vm_compute; reflexivity|]
  end.

Lemma labels_from_instr pc l i r :
  Hack.parse_line l = Some (Hack.Instr i) ->
  Hack.labels_from pc (l :: r) = Hack.labels_from (pc + 1) r.
Proof. intros H. cbn. now rewrite H. Qed.

Lemma labels_from_at pc x o r :
  Hack.parse_operand x = Some o ->
  Hack.labels_from pc (("@" ++ x) :: r) = Hack.labels_from (pc + 1) r.
Proof.
  intros H. eapply labels_from_instr. rewrite parse_line_at, H. reflexivity.
Qed.

Lemma labels_from_blank pc l r :
  Hack.parse_line l = Some Hack.Blank ->
  Hack.labels_from pc (l :: r) = Hack.labels_from pc r.
Proof. intros H. cbn. now rewrite H. Qed.

Lemma labels_from_label pc s r :
  Hack.labels_from pc (("(" ++ s ++ ")") :: r) = (s, pc) :: Hack.labels_from pc r.
Proof. cbn [Hack.labels_from]. now rewrite parse_line_label. Qed.

Ltac labels_tac :=
  repeat lazymatch goal with
  | |- context [Hack.labels_from _ []] => cbn [Hack.labels_from]
  | |- context [Hack.labels_from _ (("@" ++ _) :: _)] =>
      erewrite labels_from_at by operand_tac
  | |- context [Hack.labels_from _ (("(" ++ _ ++ ")") :: _)] =>
      rewrite labels_from_label
  | |- context [Hack.labels_from _ ((String "/" (String "/" _) ++ _) :: _)] =>
      rewrite labels_from_blank by apply parse_line_comment
  | |- context [Hack.labels_from _ (_ :: _)] =>
      erewrite labels_from_instr by (vm_compute; reflexivity)
  end.

Lemma emitted_write_call self function_name n :
  closed (write_file self) = false ->
  let ret := "RETURN_" ++ Py.str_int (return_counter self) in
  let push := ["@SP"; "AM=M+1"; "A=A-1"; "M=D"] in
  Job.emitted (write_call function_name (Some n)) self =
  (if log_vm_commands self
   then ["//  call " ++ function_name ++ " " ++ Py.str_int n] else []) +++
  ["@" ++ ret; "D=A"] +++ push +++
  ["@LCL"; "D=M"] +++ push +++ ["@ARG"; "D=M"] +++ push +++
  ["@THIS"; "D=M"] +++ push +++ ["@THAT"; "D=M"] +++ push +++
  ["@SP"; "D=M"; "@" ++ Py.str_int (n + 5); "D=D-A"; "@ARG"; "M=D"] +++
  ["@SP"; "D=M"; "@LCL"; "M=D"] +++
  ["@" ++ function_name; "0;JMP"] +++
  ["(" ++ ret ++ ")"].
Proof. intros H ret push. subst ret push. emitted_tac self H. Qed.

Lemma return_counter_write_call self function_name n :
  closed (write_file self) = false ->
  return_counter (fst (write_call function_name n self)) = return_counter self + 1.
Proof. intros H. open_writer self H. destruct log, n; reflexivity. Qed.


Ltac norm_inc :=
  repeat match goal with
  | |- context [?x + 1 - 1] => replace (x + 1 - 1) with x by lia
  | |- context [?x + 1 + 1] => replace (x + 1 + 1) with (x + 2) by lia
  | |- context [?x + 2 + 1] => replace (x + 2 + 1) with (x + 3) by lia
  | |- context [?x + 3 + 1] => replace (x + 3 + 1) with (x + 4) by lia
  | |- context [?x + 4 + 1] => replace (x + 4 + 1) with (x + 5) by lia
  end.

Lemma machine_eq_intro a d pc ram a' d' pc' ram' :
  a = a' -> d = d' -> pc = pc' -> ram = ram' ->
  Hack.mk a d pc ram = Hack.mk a' d' pc' ram'.
Proof. now intros -> -> -> ->. Qed.

Ltac machine_eq := apply machine_eq_intro; [lia | lia | lia | reflexivity].

Lemma call_body_run sym rom p m ret function_name n code target S :
  sym "SP" = 0 -> sym "LCL" = 1 -> sym "ARG" = 2 -> sym "THIS" = 3 -> sym "THAT" = 4 ->
  0 <= n -> n + 5 < 32768 ->
  Hack.parse_operand function_name = Some target ->
  Hack.parse_operand ret = Some (Hack.Sym ret) ->
  Hack.instructions
    ["@" ++ ret; "D=A"; "@SP"; "AM=M+1"; "A=A-1"; "M=D";
     "@LCL"; "D=M"; "@SP"; "AM=M+1"; "A=A-1"; "M=D";
     "@ARG"; "D=M"; "@SP"; "AM=M+1"; "A=A-1"; "M=D";
     "@THIS"; "D=M"; "@SP"; "AM=M+1"; "A=A-1"; "M=D";
     "@THAT"; "D=M"; "@SP"; "AM=M+1"; "A=A-1"; "M=D";
     "@SP"; "D=M"; "@" ++ Py.str_int (n + 5); "D=D-A"; "@ARG"; "M=D";
     "@SP"; "D=M"; "@LCL"; "M=D";
     "@" ++ function_name; "0;JMP";
     "(" ++ ret ++ ")"] = Some code ->
  Hack.loaded rom p code -> Hack.PC m = p ->
  Hack.RAM m 0 = S -> 4 < S -> S + 5 < 32768 -> n <= S ->
  Hack.after 6 sym rom m (fun m' =>
     Hack.RAM m' S = sym ret /\ Hack.RAM m' 0 = S + 1) /\
  Hack.after 12 sym rom m (fun m' =>
     Hack.RAM m' (S + 1) = Hack.RAM m 1 /\ Hack.RAM m' 0 = S + 2) /\
  Hack.after 18 sym rom m (fun m' =>
     Hack.RAM m' (S + 2) = Hack.RAM m 2 /\ Hack.RAM m' 0 = S + 3) /\
  Hack.after 24 sym rom m (fun m' =>
     Hack.RAM m' (S + 3) = Hack.RAM m 3 /\ Hack.RAM m' 0 = S + 4) /\
  Hack.after 30 sym rom m (fun m' =>
     Hack.RAM m' (S + 4) = Hack.RAM m 4 /\ Hack.RAM m' 0 = S + 5) /\
  Hack.after 36 sym rom m (fun m' => Hack.RAM m' 2 = S - n) /\
  Hack.after 40 sym rom m (fun m' => Hack.RAM m' 1 = S + 5) /\
  Hack.after 42 sym rom m (fun m' =>
     Hack.PC m' = Hack.addr (Hack.operand_value sym target) /\
     Hack.RAM m' S = sym ret /\
     Hack.RAM m' (S + 1) = Hack.RAM m 1 /\
     Hack.RAM m' (S + 2) = Hack.RAM m 2 /\
     Hack.RAM m' (S + 3) = Hack.RAM m 3 /\
     Hack.RAM m' (S + 4) = Hack.RAM m 4 /\
     Hack.RAM m' 0 = S + 5 /\
     Hack.RAM m' 2 = S - n /\
     Hack.RAM m' 1 = S + 5).
Proof.
  intros Hsp Hlcl Harg Hthis Hthat Hn0 Hn5 Htarget Hret Hcode Hl Hpc HS B1 B2 B3.
  match type of Hcode with
  | Hack.instructions ?body = _ =>
      eassert (Hb : Hack.instructions body = Some _) by asm_tac
  end.
  rewrite Hb in Hcode. injection Hcode as <-. clear Hb.
  destruct m as [a d pc ram]. cbn in Hpc, HS. subst pc.
  set (m0 := Hack.mk a d p ram).
  match type of Hl with Hack.loaded _ _ ?c => set (code := c) in * end.
  pose (r1 := Hack.upd (Hack.upd ram 0 (S + 1)) S (sym ret)).
  pose (r2 := Hack.upd (Hack.upd r1 0 (S + 2)) (S + 1) (ram 1)).
  pose (r3 := Hack.upd (Hack.upd r2 0 (S + 3)) (S + 2) (ram 2)).
  pose (r4 := Hack.upd (Hack.upd r3 0 (S + 4)) (S + 3) (ram 3)).
  pose (r5 := Hack.upd (Hack.upd r4 0 (S + 5)) (S + 4) (ram 4)).
  pose (r6 := Hack.upd r5 2 (S - n)).
  pose (r7 := Hack.upd r6 1 (S + 5)).
  assert (E6 : Hack.exec_block sym (firstn 6 code) m0
               = Hack.mk S (sym ret) (p + 6) r1).
  { subst code m0. cbn [firstn]. run_block. rewrite Hsp. word_simpl.
    rewrite HS. word_simpl. norm_inc. word_simpl. subst r1.
    machine_eq. }
  assert (E12 : Hack.exec_block sym (firstn 12 code) m0
               = Hack.mk (S + 1) (ram 1) (p + 12) r2).
  { change 12%nat with (6 + 6)%nat. rewrite exec_block_firstn_add, E6.
    subst code. cbn [firstn skipn]. run_block. rewrite Hsp, Hlcl.
    subst r1. word_simpl. norm_inc. word_simpl. subst r2. machine_eq. }
  assert (E18 : Hack.exec_block sym (firstn 18 code) m0
               = Hack.mk (S + 2) (ram 2) (p + 18) r3).
  { change 18%nat with (12 + 6)%nat. rewrite exec_block_firstn_add, E12.
    subst code. cbn [firstn skipn]. run_block. rewrite Hsp, Harg.
    subst r2 r1. word_simpl. norm_inc. word_simpl. subst r3. machine_eq. }
  assert (E24 : Hack.exec_block sym (firstn 24 code) m0
               = Hack.mk (S + 3) (ram 3) (p + 24) r4).
  { change 24%nat with (18 + 6)%nat. rewrite exec_block_firstn_add, E18.
    subst code. cbn [firstn skipn]. run_block. rewrite Hsp, Hthis.
    subst r3 r2 r1. word_simpl. norm_inc. word_simpl. subst r4. machine_eq. }
  assert (E30 : Hack.exec_block sym (firstn 30 code) m0
               = Hack.mk (S + 4) (ram 4) (p + 30) r5).
  { change 30%nat with (24 + 6)%nat. rewrite exec_block_firstn_add, E24.
    subst code. cbn [firstn skipn]. run_block. rewrite Hsp, Hthat.
    subst r4 r3 r2 r1. word_simpl. norm_inc. word_simpl. subst r5. machine_eq. }
  assert (E36 : Hack.exec_block sym (firstn 36 code) m0
               = Hack.mk 2 (S - n) (p + 36) r6).
  { change 36%nat with (30 + 6)%nat. rewrite exec_block_firstn_add, E30.
    subst code. cbn [firstn skipn]. run_block. rewrite Hsp, Harg.
    subst r5. word_simpl. replace (S + 5 - (n + 5)) with (S - n) by lia.
    subst r6. machine_eq. }
  assert (E40 : Hack.exec_block sym (firstn 40 code) m0
               = Hack.mk 1 (S + 5) (p + 40) r7).
  { change 40%nat with (36 + 4)%nat. rewrite exec_block_firstn_add, E36.
    subst code. cbn [firstn skipn]. run_block. rewrite Hsp, Hlcl.
    subst r6 r5. word_simpl. subst r7. machine_eq. }
  assert (E41 : Hack.exec_block sym (firstn 41 code) m0
               = Hack.mk (Hack.operand_value sym target) (S + 5) (p + 41) r7).
  { change 41%nat with (40 + 1)%nat. rewrite exec_block_firstn_add, E40.
    subst code. cbn [firstn skipn]. run_block. machine_eq. }
  assert (Run : forall k, (k <= 41)%nat ->
            Hack.steps k sym rom m0 = Some (Hack.exec_block sym (firstn k code) m0)).
  { intros k Hk. apply (steps_straight_prefix sym rom p code m0 41); auto.
    subst code. cbn [List.length]. lia. }
  unfold Hack.after. repeat split.
  - eexists. split; [apply Run; lia|]. rewrite E6. cbn. subst r1.
    split; now word_simpl.
  - eexists. split; [apply Run; lia|]. rewrite E12. cbn. subst r2 r1.
    split; now word_simpl.
  - eexists. split; [apply Run; lia|]. rewrite E18. cbn. subst r3 r2 r1.
    split; now word_simpl.
  - eexists. split; [apply Run; lia|]. rewrite E24. cbn. subst r4 r3 r2 r1.
    split; now word_simpl.
  - eexists. split; [apply Run; lia|]. rewrite E30. cbn. subst r5 r4 r3 r2 r1.
    split; now word_simpl.
  - eexists. split; [apply Run; lia|]. rewrite E36. cbn. subst r6. now word_simpl.
  - eexists. split; [apply Run; lia|]. rewrite E40. cbn. subst r7. now word_simpl.
  - eexists. split.
    + change 42%nat with (41 + 1)%nat. rewrite steps_add, Run, E41 by lia.
      apply steps_one. cbn [Hack.PC].
      destruct Hl as [Hp Hf]. apply (Hf 41%nat). reflexivity.
    + cbn. subst r7 r6 r5 r4 r3 r2 r1. repeat split; now word_simpl.
Qed.

(** C2.  The text of [call name n] is, in this order: the push of the value
    of a return-address label numbered by the return counter, which the call
    advances; the pushes of [LCL], [ARG], [THIS] and [THAT]; [ARG] set to
    the stack pointer minus [n + 5]; [LCL] set to the stack pointer; the jump
    to [name]; and the declaration of the return-address label, which the
    assembler places at the address that follows the jump.  Run on the
    target machine, the 42 instructions do these steps at the stages given. *)
Theorem call_sequence labels vars rom p m self function_name n code target S :
  let sym := Hack.symbol_value labels vars in
  let ret := "RETURN_" ++ Py.str_int (return_counter self) in
  let push := ["@SP"; "AM=M+1"; "A=A-1"; "M=D"] in
  let text := Job.emitted (write_call function_name (Some n)) self in
  closed (write_file self) = false ->
  0 <= n -> n + 5 < 32768 ->
  Hack.parse_operand function_name = Some target ->
  Hack.instructions text = Some code ->
  Hack.loaded rom p code -> Hack.PC m = p ->
  Hack.RAM m 0 = S -> 4 < S -> S + 5 < 32768 -> n <= S ->
  text =
    (if log_vm_commands self
     then ["//  call " ++ function_name ++ " " ++ Py.str_int n] else []) +++
    ["@" ++ ret; "D=A"] +++ push +++
    ["@LCL"; "D=M"] +++ push +++ ["@ARG"; "D=M"] +++ push +++
    ["@THIS"; "D=M"] +++ push +++ ["@THAT"; "D=M"] +++ push +++
    ["@SP"; "D=M"; "@" ++ Py.str_int (n + 5); "D=D-A"; "@ARG"; "M=D"] +++
    ["@SP"; "D=M"; "@LCL"; "M=D"] +++
    ["@" ++ function_name; "0;JMP"] +++
    ["(" ++ ret ++ ")"] /\
  return_counter (fst (write_call function_name (Some n) self))
    = return_counter self + 1 /\
  Hack.labels_from p text = [(ret, p + 42)] /\
  Hack.after 6 sym rom m (fun m' =>
     Hack.RAM m' S = sym ret /\ Hack.RAM m' 0 = S + 1) /\
  Hack.after 12 sym rom m (fun m' =>
     Hack.RAM m' (S + 1) = Hack.RAM m 1 /\ Hack.RAM m' 0 = S + 2) /\
  Hack.after 18 sym rom m (fun m' =>
     Hack.RAM m' (S + 2) = Hack.RAM m 2 /\ Hack.RAM m' 0 = S + 3) /\
  Hack.after 24 sym rom m (fun m' =>
     Hack.RAM m' (S + 3) = Hack.RAM m 3 /\ Hack.RAM m' 0 = S + 4) /\
  Hack.after 30 sym rom m (fun m' =>
     Hack.RAM m' (S + 4) = Hack.RAM m 4 /\ Hack.RAM m' 0 = S + 5) /\
  Hack.after 36 sym rom m (fun m' => Hack.RAM m' 2 = S - n) /\
  Hack.after 40 sym rom m (fun m' => Hack.RAM m' 1 = S + 5) /\
  Hack.after 42 sym rom m (fun m' =>
     Hack.PC m' = Hack.addr (Hack.operand_value sym target) /\
     Hack.RAM m' S = sym ret /\
     Hack.RAM m' (S + 1) = Hack.RAM m 1 /\
     Hack.RAM m' (S + 2) = Hack.RAM m 2 /\
     Hack.RAM m' (S + 3) = Hack.RAM m 3 /\
     Hack.RAM m' (S + 4) = Hack.RAM m 4 /\
     Hack.RAM m' 0 = S + 5 /\
     Hack.RAM m' 2 = S - n /\
     Hack.RAM m' 1 = S + 5).
Proof.
  intros sym ret push text Hopen Hn0 Hn5 Htarget Hcode Hl Hpc HS B1 B2 B3.
  pose proof (emitted_write_call self function_name n Hopen) as Htext.
  cbv zeta in Htext. fold ret in Htext. fold text in Htext.
  split; [exact Htext|].
  split; [now apply return_counter_write_call|].
  clearbody text. subst text.
  split.
  { subst ret push. destruct (log_vm_commands self); cbn [app]; labels_tac.
    all: do 2 f_equal; lia. }
  apply (call_body_run sym rom p m ret function_name n code target S);
    try reflexivity; auto.
  - apply parse_operand_RETURN.
  - subst push. destruct (log_vm_commands self); cbn [app] in Hcode.
    + now rewrite instructions_skip in Hcode by reflexivity.
    + exact Hcode.
Qed.

Lemma call_sequence_witness :
  let text := Job.emitted (write_call "Main.add" (Some 2)) Sample.writer in
  let code := Sample.code_of text in
  Hack.after 42 (Sample.symbols_of text) code Sample.calling
    (fun m' =>
       Hack.PC m' = Hack.addr (Sample.symbols_of text "Main.add") /\
       Hack.RAM m' 263 = 42 /\ Hack.RAM m' 264 = 256 /\ Hack.RAM m' 265 = 250 /\
       Hack.RAM m' 266 = 3000 /\ Hack.RAM m' 267 = 4000 /\
       Hack.RAM m' 0 = 268 /\ Hack.RAM m' 2 = 261 /\ Hack.RAM m' 1 = 268).
Proof.
  intros text code.
  apply (call_sequence (Hack.label_table text)
           (Hack.variables (Hack.label_table text) code) code 0 Sample.calling
           Sample.writer "Main.add" 2 code (Hack.Sym "Main.add") 263);
    try reflexivity; try lia.
  apply loaded_self.
Defined.

(** ** Branching *)

Lemma emitted_write_label self label :
  closed (write_file self) = false ->
  Job.emitted (write_label label) self =
  (if log_vm_commands self then ["//  label " ++ label] else []) +++
  ["(" ++ scoped_label self label ++ ")"].
Proof. intros H. emitted_tac self H. Qed.

Lemma emitted_write_goto self label :
  closed (write_file self) = false ->
  Job.emitted (write_goto label) self =
  (if log_vm_commands self then ["//  goto " ++ label] else []) +++
  ["@" ++ scoped_label self label; "0;JMP"].
Proof. intros H. emitted_tac self H. Qed.

Lemma emitted_write_if self label :
  closed (write_file self) = false ->
  Job.emitted (write_if label) self =
  (if log_vm_commands self then ["//  if-goto " ++ label] else []) +++
  ["@SP"; "AM=M-1"; "D=M"; "@" ++ scoped_label self label; "D;JNE"].
Proof. intros H. emitted_tac self H. Qed.

Lemma scoped_label_eq self label :
  scoped_label self label =
  match current_function self with
  | Some f => f ++ "." ++ label
  | None => label
  end.
Proof. unfold scoped_label, in_function. now destruct (current_function self). Qed.

Lemma goto_run sym rom p m target o code :
  Hack.parse_operand target = Some o ->
  Hack.instructions ["@" ++ target; "0;JMP"] = Some code ->
  Hack.loaded rom p code -> Hack.PC m = p ->
  Hack.after 2 sym rom m (fun m' =>
    Hack.PC m' = Hack.addr (Hack.operand_value sym o) /\ Hack.RAM m' = Hack.RAM m).
Proof.
  intros Ho Hcode Hl Hpc.
  match type of Hcode with
  | Hack.instructions ?body = _ =>
      eassert (Hb : Hack.instructions body = Some _) by asm_tac
  end.
  rewrite Hb in Hcode. injection Hcode as <-. clear Hb.
  destruct Hl as [Hp Hf].
  pose proof (Hf 0%nat _ eq_refl) as F0. pose proof (Hf 1%nat _ eq_refl) as F1.
  rewrite Z.add_0_r in F0. cbn [Z.of_nat Pos.of_succ_nat] in F1.
  unfold Hack.after. eexists. split.
  - change 2%nat with (1 + 1)%nat. rewrite steps_add.
    rewrite (steps_one sym rom m _) by (rewrite Hpc; exact F0).
    apply steps_one. cbn [Hack.exec Hack.PC]. rewrite Hpc. exact F1.
  - cbn. auto.
Qed.

Lemma if_goto_run sym rom p m target o code S :
  sym "SP" = 0 ->
  Hack.parse_operand target = Some o ->
  Hack.instructions ["@SP"; "AM=M-1"; "D=M"; "@" ++ target; "D;JNE"] = Some code ->
  Hack.loaded rom p code -> Hack.PC m = p ->
  Hack.RAM m 0 = S -> 1 < S <= 32768 ->
  Hack.after 5 sym rom m (fun m' =>
    Hack.RAM m' 0 = S - 1 /\
    Hack.PC m' = if Hack.RAM m (S - 1) =? 0 then p + 5
                 else Hack.addr (Hack.operand_value sym o)).
Proof.
  intros Hsp Ho Hcode Hl Hpc HS B.
  match type of Hcode with
  | Hack.instructions ?body = _ =>
      eassert (Hb : Hack.instructions body = Some _) by asm_tac
  end.
  rewrite Hb in Hcode. injection Hcode as <-. clear Hb.
  destruct m as [a d pc ram]. cbn in Hpc, HS. subst pc.
  set (m0 := Hack.mk a d p ram).
  match type of Hl with Hack.loaded _ _ ?c => set (code := c) in * end.
  assert (E4 : Hack.exec_block sym (firstn 4 code) m0
               = Hack.mk (Hack.operand_value sym o) (ram (S - 1)) (p + 4)
                         (Hack.upd ram 0 (S - 1))).
  { subst code m0. cbn [firstn]. run_block. rewrite Hsp. word_simpl.
    rewrite HS. word_simpl. machine_eq. }
  assert (Run : Hack.steps 4 sym rom m0
                = Some (Hack.exec_block sym (firstn 4 code) m0)).
  { apply (steps_straight_prefix sym rom p code m0 4); auto.
    subst code. cbn [List.length]. lia. }
  unfold Hack.after. eexists. split.
  - change 5%nat with (4 + 1)%nat. rewrite steps_add, Run, E4.
    apply steps_one. cbn [Hack.PC].
    destruct Hl as [Hp Hf]. apply (Hf 4%nat). reflexivity.
  - cbn. split; [now word_simpl|].
    destruct (ram (S - 1) =? 0); cbn; [lia | reflexivity].
Qed.

(** C9.  [label], [goto] and [if-goto] name their target
    [<function>.<L>] when the current-function context is set and [L] when
    it is [None]: a [label] declares that name at the address where it
    stands, a [goto] jumps to it, and an [if-goto] pops one value and jumps
    to it exactly when the value is not zero, going on with the next
    instruction otherwise. *)
Theorem branching_label_scope self label :
  let target := match current_function self with
                | Some f => f ++ "." ++ label
                | None => label
                end in
  closed (write_file self) = false ->
  Job.emitted (write_label label) self =
    (if log_vm_commands self then ["//  label " ++ label] else []) +++
    ["(" ++ target ++ ")"] /\
  Job.emitted (write_goto label) self =
    (if log_vm_commands self then ["//  goto " ++ label] else []) +++
    ["@" ++ target; "0;JMP"] /\
  Job.emitted (write_if label) self =
    (if log_vm_commands self then ["//  if-goto " ++ label] else []) +++
    ["@SP"; "AM=M-1"; "D=M"; "@" ++ target; "D;JNE"] /\
  (forall p, Hack.labels_from p (Job.emitted (write_label label) self) = [(target, p)]) /\
  (forall labels vars rom p m code o,
     let sym := Hack.symbol_value labels vars in
     Hack.parse_operand target = Some o ->
     Hack.instructions (Job.emitted (write_goto label) self) = Some code ->
     Hack.loaded rom p code -> Hack.PC m = p ->
     Hack.after 2 sym rom m (fun m' =>
       Hack.PC m' = Hack.addr (Hack.operand_value sym o) /\
       Hack.RAM m' = Hack.RAM m)) /\
  (forall labels vars rom p m code o S,
     let sym := Hack.symbol_value labels vars in
     Hack.parse_operand target = Some o ->
     Hack.instructions (Job.emitted (write_if label) self) = Some code ->
     Hack.loaded rom p code -> Hack.PC m = p ->
     Hack.RAM m 0 = S -> 1 < S <= 32768 ->
     Hack.after 5 sym rom m (fun m' =>
       Hack.RAM m' 0 = S - 1 /\
       Hack.PC m' = if Hack.RAM m (S - 1) =? 0 then p + 5
                    else Hack.addr (Hack.operand_value sym o))).
Proof.
  intros target Hopen.
  rewrite emitted_write_label, emitted_write_goto, emitted_write_if by exact Hopen.
  rewrite scoped_label_eq. fold target.
  repeat split.
  - intros p. destruct (log_vm_commands self); cbn [app]; labels_tac; reflexivity.
  - intros labels vars rom p m code o sym Ho Hcode Hl Hpc.
    apply (goto_run sym rom p m target o code); auto.
    destruct (log_vm_commands self); cbn [app] in Hcode;
      [rewrite instructions_skip in Hcode by reflexivity|]; exact Hcode.
  - intros labels vars rom p m code o S sym Ho Hcode Hl Hpc HS B.
    apply (if_goto_run sym rom p m target o code S); auto.
    destruct (log_vm_commands self); cbn [app] in Hcode;
      [rewrite instructions_skip in Hcode by reflexivity|]; exact Hcode.
Qed.

Lemma branching_label_scope_witness :
  let self := Sample.writer_in_function in
  let text := Job.emitted (write_if "END") self in
  Hack.after 5 (Hack.symbol_value [("Main.loop.END", 77)] (fun _ => 16))
    (Sample.code_of text) Sample.returning
    (fun m' => Hack.RAM m' 0 = 262 /\ Hack.PC m' = 77).
Proof.
  intros self text.
  pose proof (branching_label_scope Sample.writer_in_function "END" eq_refl) as H.
  destruct H as (_ & _ & _ & _ & _ & H).
  apply (H [("Main.loop.END", 77)] (fun _ => 16) (Sample.code_of text) 0
           Sample.returning (Sample.code_of text) (Hack.Sym "Main.loop.END") 263);
    try reflexivity; try lia.
  apply loaded_self.
Defined.

(** ** What the methods leave unchanged *)

(** Runs a method on a code writer given by its attributes, through every
    branch it can take. *)
Ltac run_method self :=
  let ls := fresh "ls" in
  let c := fresh "c" in
  let log := fresh "log" in
  destruct self as [? ? [ls c] ? ? ? ? log]; destruct log, c; cbn;
  repeat match goal with
         | |- context [match ?x with _ => _ end] => destruct x eqn:?; cbn
         end.

Lemma current_function_perform c self :
  (forall f n, c <> Job.Write_function f n) ->
  current_function self = None ->
  current_function (fst (Job.perform c self)) = None.
Proof.
  intros Hc Hf. destruct c; cbn [Job.perform].
  - now destruct self.
  - unfold write_arithmetic, translate_arithmetic_vm_code_to_assembly.
    run_method self; auto.
  - unfold write_push_pop, translate_push_vm_code_to_asm,
      translate_pop_vm_code_to_asm. run_method self; auto.
  - unfold write_label. run_method self; auto.
  - unfold write_goto. run_method self; auto.
  - unfold write_if. run_method self; auto.
  - now destruct (Hc function_name num_local_vars).
  - unfold write_call. run_method self; auto.
  - unfold write_return. run_method self; auto.
Qed.

Lemma closed_perform_all cs self :
  closed (write_file (fst (Job.perform_all cs self))) = closed (write_file self).
Proof. destruct (appends_perform_all cs self) as [r [_ H]]. exact H. Qed.

Lemma current_function_perform_all cs : forall self,
  (forall c, In c cs -> forall f n, c <> Job.Write_function f n) ->
  current_function self = None ->
  current_function (fst (Job.perform_all cs self)) = None.
Proof.
  induction cs as [|c r IH]; intros self Hcs Hf; [exact Hf|].
  cbn [Job.perform_all]. unfold bind.
  pose proof (current_function_perform c self (Hcs c (or_introl eq_refl)) Hf) as H1.
  destruct (Job.perform c self) as [self1 [u|e]]; cbn [fst] in *.
  - apply IH; [|exact H1]. intros c' Hc'. apply Hcs. now right.
  - exact H1.
Qed.

(** C10.  [set_filename] leaves the current-function context at [None],
    whatever it was; and as long as no [function] instruction is translated
    after it, the context stays [None] and every [label], [goto] and
    [if-goto] is emitted with its bare name. *)
Theorem set_filename_resets_function_context self filepath calls label :
  let self1 := fst (set_filename filepath self) in
  let self2 := fst (Job.perform_all calls self1) in
  closed (write_file self) = false ->
  (forall c, In c calls -> forall f n, c <> Job.Write_function f n) ->
  current_function self1 = None /\
  current_function self2 = None /\
  Job.emitted (write_label label) self2 =
    (if log_vm_commands self2 then ["//  label " ++ label] else []) +++
    ["(" ++ label ++ ")"] /\
  Job.emitted (write_goto label) self2 =
    (if log_vm_commands self2 then ["//  goto " ++ label] else []) +++
    ["@" ++ label; "0;JMP"] /\
  Job.emitted (write_if label) self2 =
    (if log_vm_commands self2 then ["//  if-goto " ++ label] else []) +++
    ["@SP"; "AM=M-1"; "D=M"; "@" ++ label; "D;JNE"].
Proof.
  intros self1 self2 Hopen Hcalls.
  assert (H1 : current_function self1 = None) by (subst self1; now destruct self).
  assert (H2 : current_function self2 = None)
    by (subst self2; now apply current_function_perform_all).
  assert (Hopen2 : closed (write_file self2) = false).
  { subst self2. rewrite closed_perform_all. subst self1. now destruct self. }
  split; [exact H1|]. split; [exact H2|].
  rewrite emitted_write_label, emitted_write_goto, emitted_write_if by exact Hopen2.
  rewrite scoped_label_eq, H2. auto.
Qed.

Lemma set_filename_resets_function_context_witness :
  let self2 := fst (Job.perform_all
                      [Job.Set_filename "dir/Other.vm";
                       Job.Write_push_pop "C_PUSH" "constant" (Some 1)]
                      Sample.writer_in_function) in
  current_function Sample.writer_in_function = Some "Main.loop" /\
  current_function self2 = None /\
  Job.emitted (write_label "END") self2 = ["//  label END"; "(END)"].
Proof.
  intros self2.
  pose proof (set_filename_resets_function_context Sample.writer_in_function
                "dir/Other.vm" [Job.Write_push_pop "C_PUSH" "constant" (Some 1)]
                "END" eq_refl) as H.
  destruct H as (_ & H2 & H3 & _).
  - intros c [<-|[]] f n. discriminate.
  - split; [reflexivity|]. split; [exact H2 | exact H3].
Defined.

(** ** Segment addressing *)

Lemma get_ram_code_inv segment reg :
  get_ram_code segment = Ok reg ->
  (segment = "argument" /\ reg = "ARG") \/ (segment = "local" /\ reg = "LCL") \/
  (segment = "this" /\ reg = "THIS") \/ (segment = "that" /\ reg = "THAT").
Proof.
  unfold get_ram_code. cbn.
  repeat match goal with
         | |- context [(segment =? ?s)%string] =>
             destruct (String.eqb_spec segment s); [subst; intros [= <-]; tauto|]
         end.
  discriminate.
Qed.

Lemma get_ram_code_base segment :
  In segment ["argument"; "local"; "this"; "that"] ->
  exists reg, get_ram_code segment = Ok reg.
Proof.
  intros [<-|[<-|[<-|[<-|[]]]]]; eexists; reflexivity.
Qed.

Lemma translate_segment_base self segment reg index :
  get_ram_code segment = Ok reg ->
  translate_segment_vm_code self segment (Some index) =
  Ok (["@" ++ reg] +++
      (if index =? 0 then ["A=M"] else ["D=M"; "@" ++ Py.str_int index; "A=D+A"])).
Proof.
  intros H. apply get_ram_code_inv in H.
  destruct H as [[-> ->]|[[-> ->]|[[-> ->]|[-> ->]]]]; reflexivity.
Qed.

(** The address computation for a base-pointer segment: two instructions
    for the index 0, four for another index; [A] ends on the address and
    nothing else changes. *)
Lemma base_address_run sym rom p m reg r index code :
  sym reg = r -> 0 <= r < 32768 ->
  Hack.parse_operand reg = Some (Hack.Sym reg) ->
  0 <= index < 32768 ->
  Hack.instructions
    (["@" ++ reg] +++
     (if index =? 0 then ["A=M"] else ["D=M"; "@" ++ Py.str_int index; "A=D+A"]))
    = Some code ->
  Hack.loaded rom p code -> Hack.PC m = p ->
  List.length code = (if index =? 0 then 2%nat else 4%nat) /\
  Hack.after (List.length code) sym rom m (fun m' =>
    Hack.A m' = (if index =? 0 then Hack.RAM m r
                 else Hack.wrap (Hack.RAM m r + index)) /\
    Hack.RAM m' = Hack.RAM m /\
    Hack.PC m' = p + Z.of_nat (List.length code)).
Proof.
  intros Hr Br Hreg Hi Hcode Hl Hpc.
  destruct (index =? 0) eqn:E; cbn [app] in Hcode.
  - match type of Hcode with
    | Hack.instructions ?body = _ =>
        eassert (Hb : Hack.instructions body = Some _) by asm_tac
    end.
    rewrite Hb in Hcode. injection Hcode as <-. clear Hb.
    split; [reflexivity|].
    destruct (steps_block sym rom _ p m Hl eq_refl Hpc) as [Hs Hp].
    eexists. split; [exact Hs|]. split; [|split; [|exact Hp]].
    + destruct m as [a d pc ram]. run_block. now rewrite Hr; word_simpl.
    + destruct m as [a d pc ram]. reflexivity.
  - match type of Hcode with
    | Hack.instructions ?body = _ =>
        eassert (Hb : Hack.instructions body = Some _) by asm_tac
    end.
    rewrite Hb in Hcode. injection Hcode as <-. clear Hb.
    split; [reflexivity|].
    destruct (steps_block sym rom _ p m Hl eq_refl Hpc) as [Hs Hp].
    eexists. split; [exact Hs|]. split; [|split; [|exact Hp]].
    + destruct m as [a d pc ram]. run_block. now rewrite Hr; word_simpl.
    + destruct m as [a d pc ram]. reflexivity.
Qed.

Lemma symbol_of_ram_code labels vars segment reg :
  get_ram_code segment = Ok reg ->
  1 <= Hack.symbol_value labels vars reg <= 4 /\
  Hack.parse_operand reg = Some (Hack.Sym reg).
Proof.
  intros H. apply get_ram_code_inv in H.
  destruct H as [[-> ->]|[[-> ->]|[[-> ->]|[-> ->]]]]; cbn; split; (lia || reflexivity).
Qed.

(** C8 (amended).  For a base-pointer segment the address computation with
    index 0 dereferences the base pointer directly, in two instructions; with
    another index it adds the index to the base, in four: two instructions
    more, not one.  Both leave [A] on [base + index] and change nothing
    else. *)
Theorem base_pointer_address_paths labels vars self segment reg index :
  let sym := Hack.symbol_value labels vars in
  In segment ["argument"; "local"; "this"; "that"] ->
  get_ram_code segment = Ok reg ->
  0 < index < 32768 ->
  exists c0 ci,
    translate_segment_vm_code self segment (Some 0) = Ok ["@" ++ reg; "A=M"] /\
    translate_segment_vm_code self segment (Some index) =
      Ok ["@" ++ reg; "D=M"; "@" ++ Py.str_int index; "A=D+A"] /\
    Hack.instructions ["@" ++ reg; "A=M"] = Some c0 /\
    Hack.instructions ["@" ++ reg; "D=M"; "@" ++ Py.str_int index; "A=D+A"] = Some ci /\
    List.length c0 = 2%nat /\ List.length ci = 4%nat /\
    forall rom p m,
      Hack.PC m = p ->
      let base := Hack.RAM m (sym reg) in
      0 <= base -> base + index < 65536 ->
      (Hack.loaded rom p c0 ->
       Hack.after 2 sym rom m (fun m' =>
         Hack.A m' = base + 0 /\ Hack.RAM m' = Hack.RAM m)) /\
      (Hack.loaded rom p ci ->
       Hack.after 4 sym rom m (fun m' =>
         Hack.A m' = base + index /\ Hack.RAM m' = Hack.RAM m)).
Proof.
  intros sym _ Hreg Hi.
  destruct (symbol_of_ram_code labels vars segment reg Hreg) as [Hs Hp].
  fold sym in Hs.
  assert (E0 : exists c0, Hack.instructions ["@" ++ reg; "A=M"] = Some c0)
    by (eexists; asm_tac).
  assert (Ei : exists ci, Hack.instructions
            ["@" ++ reg; "D=M"; "@" ++ Py.str_int index; "A=D+A"] = Some ci)
    by (eexists; asm_tac).
  destruct E0 as [c0 E0], Ei as [ci Ei]. exists c0, ci.
  assert (Hne : (index =? 0) = false) by (apply Z.eqb_neq; lia).
  split. { now rewrite (translate_segment_base _ _ _ _ Hreg). }
  split. { now rewrite (translate_segment_base _ _ _ _ Hreg), Hne. }
  split; [exact E0|]. split; [exact Ei|].
  assert (L0 : List.length c0 = 2%nat).
  { eassert (Hb : Hack.instructions ["@" ++ reg; "A=M"] = Some _) by asm_tac.
    rewrite Hb in E0. now injection E0 as <-. }
  assert (Li : List.length ci = 4%nat).
  { eassert (Hb : Hack.instructions
               ["@" ++ reg; "D=M"; "@" ++ Py.str_int index; "A=D+A"] = Some _)
      by asm_tac.
    rewrite Hb in Ei. now injection Ei as <-. }
  split; [exact L0|]. split; [exact Li|].
  intros rom p m Hpc base Hb0 Hb1. split; intros Hl.
  - destruct (base_address_run sym rom p m reg (sym reg) 0 c0 eq_refl
                ltac:(lia) Hp ltac:(lia) E0 Hl Hpc) as [_ H].
    rewrite L0 in H. destruct H as [m' [Hs' [HA [HR _]]]].
    exists m'. split; [exact Hs'|]. cbn in HA. split; [subst base; lia | exact HR].
  - assert (Ei' : Hack.instructions
              (["@" ++ reg] +++
               (if index =? 0 then ["A=M"]
                else ["D=M"; "@" ++ Py.str_int index; "A=D+A"])) = Some ci)
      by (rewrite Hne; exact Ei).
    destruct (base_address_run sym rom p m reg (sym reg) index ci eq_refl
                ltac:(lia) Hp ltac:(lia) Ei' Hl Hpc) as [_ H].
    rewrite Li in H. destruct H as [m' [Hs' [HA [HR _]]]].
    exists m'. split; [exact Hs'|]. rewrite Hne in HA.
    split; [|exact HR]. rewrite HA. apply wrap_small. subst base. lia.
Qed.

Lemma base_pointer_address_paths_witness :
  exists c0 ci,
    Hack.instructions ["@LCL"; "A=M"] = Some c0 /\
    Hack.instructions ["@LCL"; "D=M"; "@5"; "A=D+A"] = Some ci /\
    List.length c0 = 2%nat /\ List.length ci = 4%nat /\
    Hack.after 2 (Hack.symbol_value [] (fun _ => 16)) c0 Sample.returning
      (fun m' => Hack.A m' = 262 + 0 /\ Hack.RAM m' = Hack.RAM Sample.returning) /\
    Hack.after 4 (Hack.symbol_value [] (fun _ => 16)) ci Sample.returning
      (fun m' => Hack.A m' = 262 + 5 /\ Hack.RAM m' = Hack.RAM Sample.returning).
Proof.
  destruct (base_pointer_address_paths [] (fun _ => 16) Sample.writer "local" "LCL" 5)
    as (c0 & ci & _ & _ & E0 & Ei & L0 & Li & H).
  - cbn. tauto.
  - reflexivity.
  - lia.
  - exists c0, ci. repeat (split; [assumption|]).
    destruct (H c0 0 Sample.returning eq_refl ltac:(cbn; lia) ltac:(cbn; lia))
      as [H0 _].
    destruct (H ci 0 Sample.returning eq_refl ltac:(cbn; lia) ltac:(cbn; lia))
      as [_ H1].
    split; [apply H0 | apply H1]; apply loaded_self.
Defined.

(** C8 as stated fails: the sequence for index 0 is not one instruction
    shorter than the one for another index. *)
Lemma base_pointer_one_shorter_counterexample :
  ~ (forall self segment index c0 ci,
       In segment ["argument"; "local"; "this"; "that"] ->
       index <> 0 ->
       translate_segment_vm_code self segment (Some 0) = Ok c0 ->
       translate_segment_vm_code self segment (Some index) = Ok ci ->
       (List.length c0 + 1 = List.length ci)%nat).
Proof.
  intros H.
  assert (E : (2 + 1 = 4)%nat).
  { apply (H Sample.writer "local" 5 ["@LCL"; "A=M"] ["@LCL"; "D=M"; "@5"; "A=D+A"]);
      [cbn; tauto | discriminate | reflexivity | reflexivity]. }
  discriminate E.
Qed.

Lemma emitted_write_push_base self segment reg index :
  closed (write_file self) = false ->
  get_ram_code segment = Ok reg ->
  Job.emitted (write_push_pop "C_PUSH" segment (Some index)) self =
  (if log_vm_commands self
   then ["//  push " ++ segment ++ " " ++ Py.str_int index] else []) +++
  ["@" ++ reg] +++
  (if index =? 0 then ["A=M"] else ["D=M"; "@" ++ Py.str_int index; "A=D+A"]) +++
  ["D=M"; "@SP"; "AM=M+1"; "A=A-1"; "M=D"].
Proof.
  intros H Hreg. apply emitted_eq.
  unfold write_push_pop, bind, get, when, lift, translate_push_vm_code_to_asm.
  cbn [String.eqb Ascii.eqb Bool.eqb].
  rewrite (translate_segment_base self segment reg index Hreg).
  apply get_ram_code_inv in Hreg.
  open_writer self H.
  destruct Hreg as [[-> ->]|[[-> ->]|[[-> ->]|[-> ->]]]];
    destruct log, (index =? 0); cbn; rewrite <- ?app_assoc; reflexivity.
Qed.

(** [push] from a base-pointer segment: the stack grows by the word at
    [base + index]. *)
Lemma push_base_run sym rom p m reg r index code S :
  sym "SP" = 0 -> sym reg = r -> 1 <= r <= 4 ->
  Hack.parse_operand reg = Some (Hack.Sym reg) ->
  0 <= index < 32768 ->
  Hack.instructions
    (["@" ++ reg] +++
     (if index =? 0 then ["A=M"] else ["D=M"; "@" ++ Py.str_int index; "A=D+A"]) +++
     ["D=M"; "@SP"; "AM=M+1"; "A=A-1"; "M=D"]) = Some code ->
  Hack.loaded rom p code -> Hack.PC m = p ->
  Hack.RAM m 0 = S -> 0 < S < 32767 ->
  0 <= Hack.RAM m r -> Hack.RAM m r + index < 32768 ->
  List.length code = (if index =? 0 then 7%nat else 9%nat) /\
  Hack.after (List.length code) sym rom m (fun m' =>
    Hack.RAM m' S = Hack.RAM m (Hack.RAM m r + index) /\
    Hack.RAM m' 0 = S + 1).
Proof.
  intros Hsp Hr Br Hreg Hi Hcode Hl Hpc HS BS Hb0 Hb1.
  destruct (index =? 0) eqn:E; cbn [app] in Hcode.
  all: match type of Hcode with
       | Hack.instructions ?body = _ =>
           eassert (Hb : Hack.instructions body = Some _) by asm_tac
       end.
  all: rewrite Hb in Hcode; injection Hcode as <-; clear Hb.
  all: split; [reflexivity|].
  all: destruct (steps_block sym rom _ p m Hl eq_refl Hpc) as [Hs Hp].
  all: eexists; split; [exact Hs|].
  all: destruct m as [a d pc ram]; cbn in HS, Hb0, Hb1.
  all: run_block; rewrite ?Hsp, ?Hr; word_simpl; rewrite ?HS; word_simpl.
  all: norm_inc; word_simpl.
  - apply Z.eqb_eq in E. subst index. rewrite Z.add_0_r. split; reflexivity.
  - split; reflexivity.
Qed.

Lemma index_is_false index n : index <> Some n -> index_is index n = false.
Proof.
  destruct index as [z|]; cbn; [|reflexivity].
  intros H. apply Z.eqb_neq. congruence.
Qed.

(** C5.  A [push] from a base-pointer segment resolves its address with
    index 0 (direct dereference, 7 instructions in all) as with another
    index (offset then dereference, 9 instructions): the word at
    [base + index] is pushed.  Every [pop] into [constant] fails with
    [InvalidSegment], and every [push] or [pop] on [pointer] with an index
    other than 0 and 1 fails with [InvalidOperand]. *)
Theorem segment_addressing_boundary :
  (forall labels vars rom p m self segment reg index code S,
     let sym := Hack.symbol_value labels vars in
     let base := Hack.RAM m (sym reg) in
     In segment ["argument"; "local"; "this"; "that"] ->
     get_ram_code segment = Ok reg ->
     0 <= index < 32768 ->
     closed (write_file self) = false ->
     Hack.instructions
       (Job.emitted (write_push_pop "C_PUSH" segment (Some index)) self) = Some code ->
     Hack.loaded rom p code -> Hack.PC m = p ->
     Hack.RAM m 0 = S -> 0 < S < 32767 ->
     0 <= base -> base + index < 32768 ->
     List.length code = (if index =? 0 then 7%nat else 9%nat) /\
     Hack.after (List.length code) sym rom m (fun m' =>
       Hack.RAM m' S = Hack.RAM m (base + index) /\ Hack.RAM m' 0 = S + 1)) /\
  (forall self index,
     translate_pop_vm_code_to_asm self "constant" index
       = Err (InvalidSegment "constant") /\
     (closed (write_file self) = false ->
      snd (write_push_pop "C_POP" "constant" index self)
        = Err (InvalidSegment "constant"))) /\
  (forall self index,
     index <> Some 0 -> index <> Some 1 ->
     translate_push_vm_code_to_asm self "pointer" index = Err (InvalidOperand index) /\
     translate_pop_vm_code_to_asm self "pointer" index = Err (InvalidOperand index) /\
     (closed (write_file self) = false ->
      snd (write_push_pop "C_PUSH" "pointer" index self) = Err (InvalidOperand index) /\
      snd (write_push_pop "C_POP" "pointer" index self) = Err (InvalidOperand index))).
Proof.
  split; [|split].
  - intros labels vars rom p m self segment reg index code S sym base
      _ Hreg Hi Hopen Hcode Hl Hpc HS BS Hb0 Hb1.
    destruct (symbol_of_ram_code labels vars segment reg Hreg) as [Hs Hp].
    apply (push_base_run sym rom p m reg (sym reg) index code S); auto.
    rewrite (emitted_write_push_base _ _ _ _ Hopen Hreg) in Hcode.
    destruct (log_vm_commands self); cbn [app] in Hcode;
      [rewrite instructions_skip in Hcode by reflexivity|]; exact Hcode.
  - intros self index. split; [reflexivity|].
    intros Hopen. open_writer self Hopen. destruct log; reflexivity.
  - intros self index H0 H1.
    assert (E : translate_segment_vm_code self "pointer" index
                = Err (InvalidOperand index)).
    { unfold translate_segment_vm_code. cbn.
      now rewrite (index_is_false _ _ H0), (index_is_false _ _ H1). }
    assert (Epush : translate_push_vm_code_to_asm self "pointer" index
                    = Err (InvalidOperand index)).
    { unfold translate_push_vm_code_to_asm. cbn [String.eqb Ascii.eqb Bool.eqb negb].
      now rewrite E. }
    assert (Epop : translate_pop_vm_code_to_asm self "pointer" index
                   = Err (InvalidOperand index)).
    { unfold translate_pop_vm_code_to_asm. cbn [String.eqb Ascii.eqb Bool.eqb].
      now rewrite E. }
    split; [exact Epush|]. split; [exact Epop|].
    intros Hopen. unfold write_push_pop, bind, get, when, lift.
    cbn [String.eqb Ascii.eqb Bool.eqb]. rewrite Epush, Epop.
    open_writer self Hopen. destruct log; split; reflexivity.
Qed.

Lemma segment_addressing_boundary_witness :
  let text0 := Job.emitted (write_push_pop "C_PUSH" "local" (Some 0)) Sample.writer in
  let text5 := Job.emitted (write_push_pop "C_PUSH" "local" (Some 5)) Sample.writer in
  Hack.after 7 (Sample.symbols_of text0) (Sample.code_of text0) Sample.calling
    (fun m' => Hack.RAM m' 263 = Hack.RAM Sample.calling 256 /\ Hack.RAM m' 0 = 264) /\
  Hack.after 9 (Sample.symbols_of text5) (Sample.code_of text5) Sample.calling
    (fun m' => Hack.RAM m' 263 = Hack.RAM Sample.calling 261 /\ Hack.RAM m' 0 = 264) /\
  snd (write_push_pop "C_POP" "constant" (Some 0) Sample.writer)
    = Err (InvalidSegment "constant") /\
  snd (write_push_pop "C_PUSH" "pointer" (Some 2) Sample.writer)
    = Err (InvalidOperand (Some 2)).
Proof.
  intros text0 text5.
  destruct segment_addressing_boundary as (Hpush & Hconst & Hptr).
  split; [|split; [|split]].
  - apply (Hpush (Hack.label_table text0) (Hack.variables [] (Sample.code_of text0))
             (Sample.code_of text0) 0 Sample.calling Sample.writer "local" "LCL" 0
             (Sample.code_of text0) 263);
      try reflexivity; try (cbn; lia); try (cbn; tauto).
    apply loaded_self.
  - apply (Hpush (Hack.label_table text5) (Hack.variables [] (Sample.code_of text5))
             (Sample.code_of text5) 0 Sample.calling Sample.writer "local" "LCL" 5
             (Sample.code_of text5) 263);
      try reflexivity; try (cbn; lia); try (cbn; tauto).
    apply loaded_self.
  - now apply Hconst.
  - apply (Hptr Sample.writer (Some 2)); [discriminate | discriminate | reflexivity].
Defined.

(** ** Comparisons *)

Lemma loaded_skipn rom p code k :
  Hack.loaded rom p code -> Hack.loaded rom (p + Z.of_nat k) (skipn k code).
Proof.
  intros [Hp H]. split; [lia|].
  intros j i Hj. replace (p + Z.of_nat k + Z.of_nat j) with (p + Z.of_nat (k + j)) by lia.
  apply H. rewrite <- Hj. clear. revert code.
  induction k as [|k IH]; intros code; [reflexivity|].
  destruct code as [|x code]; cbn [skipn Nat.add].
  - now destruct j.
  - cbn [nth_error]. apply IH.
Qed.



Lemma emitted_write_comparison self command :
  closed (write_file self) = false ->
  In command ["eq"; "gt"; "lt"] ->
  let n := Py.str_int (arith_jump_counter self) in
  Job.emitted (write_arithmetic command) self =
  (if log_vm_commands self then ["//  " ++ command] else []) +++
  ["@SP"; "AM=M-1"; "D=M"; "@SP"; "AM=M-1"; "D=M-D"; "@" ++ "TRUE_" ++ n;
   "D;J" ++ (if (command =? "eq")%string then "EQ"
             else if (command =? "gt")%string then "GT" else "LT");
   "D=0"; "@" ++ "END_" ++ n; "0;JMP"; "(" ++ ("TRUE_" ++ n) ++ ")"; "D=-1";
   "(" ++ ("END_" ++ n) ++ ")"; "@SP"; "A=M"; "M=D"; "@SP"; "M=M+1"].
Proof.
  intros H Hc. apply emitted_eq. open_writer self H.
  destruct Hc as [<-|[<-|[<-|[]]]]; destruct log; cbn;
    rewrite <- ?app_assoc; reflexivity.
Qed.

Lemma arith_counter_write_comparison self command :
  closed (write_file self) = false ->
  In command ["eq"; "gt"; "lt"] ->
  arith_jump_counter (fst (write_arithmetic command self)) = arith_jump_counter self + 1.
Proof.
  intros H Hc. open_writer self H.
  destruct Hc as [<-|[<-|[<-|[]]]]; destruct log; reflexivity.
Qed.











(** ** The job as a whole *)

Lemma appends_translate_command line : appends (Main.translate_command line).
Proof. unfold Main.translate_command. appends_tac. Qed.

Lemma appends_translate_commands commands : appends (Main.translate_commands commands).
Proof.
  induction commands as [|l r IH]; cbn.
  - apply appends_ret.
  - apply appends_bind; [apply appends_translate_command | intros _; exact IH].
Qed.

Lemma appends_translate_file file filepath : appends (Main.translate_file file filepath).
Proof.
  unfold Main.translate_file.
  apply appends_bind; [apply appends_set_filename|].
  intros _. apply appends_translate_commands.
Qed.

Lemma appends_translate_units files : appends (Main.translate_units files).
Proof.
  induction files as [|[filepath file] r IH]; cbn.
  - apply appends_ret.
  - apply appends_bind; [apply appends_translate_file | intros _; exact IH].
Qed.

(** What the constructor returns: the object it set up, after [write_init]. *)
Lemma init_inv isdir filepath log cw :
  __init__ isdir filepath log = Ok cw ->
  exists out,
    write_init isdir (mk filepath out (mk_file [] false) None None 0 0 log)
    = (cw, Ok tt).
Proof.
  unfold __init__, bind_result. intros H.
  destruct (if Py.endswith filepath ".vm" then _ else _) as [out|e];
    [|discriminate].
  destruct (negb (Py.endswith out ".asm")); [discriminate|].
  exists out.
  destruct (write_init isdir _) as [self' [[]|e]]; [|discriminate].
  now injection H as <-.
Qed.

Lemma init_open isdir filepath log cw :
  __init__ isdir filepath log = Ok cw -> closed (write_file cw) = false.
Proof.
  intros H. destruct (init_inv _ _ _ _ H) as [out E].
  unfold write_init, bind, get in E. cbn [in_filepath] in E.
  destruct (isdir filepath), log; cbn in E; injection E as <-; reflexivity.
Qed.

(** C7 (amended).  When a job ends without an error, the output file has
    been closed; when a translation error ends it, the exception reaches the
    caller with the file still open: nothing closes it on that path. *)
Theorem sink_closed_on_normal_exit isdir files input_path code_writer r :
  Main.translate_files isdir files input_path = (Some code_writer, r) ->
  (r = Ok tt -> closed (write_file code_writer) = true) /\
  (forall e, r = Err e -> closed (write_file code_writer) = false).
Proof.
  unfold Main.translate_files.
  destruct (__init__ isdir input_path true) as [cw|e0] eqn:Einit; [|discriminate].
  pose proof (init_open _ _ _ _ Einit) as Hopen.
  unfold bind, close, modify.
  destruct (appends_translate_units files cw) as [rest [_ Hc]].
  destruct (Main.translate_units files cw) as [cw1 [[]|e1]]; cbn [fst] in Hc;
    intros [= <- <-].
  - split; [reflexivity | discriminate].
  - split; [discriminate|]. intros e _. now rewrite Hc.
Qed.

Lemma sink_closed_on_normal_exit_witness :
  exists code_writer,
    Main.translate_files (fun _ => false) Sample.scenario_B "Test.vm"
      = (Some code_writer, Ok tt) /\
    closed (write_file code_writer) = true.
Proof.
  eassert (E : Main.translate_files (fun _ => false) Sample.scenario_B "Test.vm"
               = (Some _, Ok tt)) by (vm_compute; reflexivity).
  eexists. split; [exact E|].
  now apply (sink_closed_on_normal_exit _ _ _ _ _ E).
Defined.

(** C7 as stated fails: [pop constant 0] ends the job with the
    [InvalidSegment] exception and the output file open. *)
Lemma sink_left_open_counterexample :
  exists code_writer,
    Main.translate_files (fun _ => false)
      [("Test.vm", ["pop constant 0" ++ Sample.nl])] "Test.vm"
      = (Some code_writer, Err (InvalidSegment "constant")) /\
    closed (write_file code_writer) = false.
Proof. eexists. split; [vm_compute; reflexivity | reflexivity]. Qed.

(** ** Branch labels *)


Lemma numbered_disjoint a1 a2 a3 r1 r2 r3 l :
  numbered a1 a2 r1 r2 l -> numbered_from a3 r3 l -> a2 <= a3 -> r2 <= r3 -> False.
Proof.
  intros [[j [Hj Hl]]|[j [Hj Hl]]] [ha [hr [[k [Hk Hl']]|[k [Hk Hl']]]]] Ha Hr.
  - destruct Hl as [E|E], Hl' as [E'|E']; rewrite E in E'; cbn [append] in E';
      try discriminate; injection E' as E'; apply str_int_inj in E'; lia.
  - destruct Hl as [E|E]; rewrite E in Hl'; cbn [append] in Hl'; discriminate.
  - destruct Hl' as [E|E]; rewrite E in Hl; cbn [append] in Hl; discriminate.
  - rewrite Hl in Hl'. cbn [append] in Hl'. injection Hl' as E.
    apply str_int_inj in E. lia.
Qed.

Lemma numbered_weaken a1 a2 r1 r2 a0 r0 l :
  numbered a1 a2 r1 r2 l -> a0 <= a1 -> r0 <= r1 -> numbered_from a0 r0 l.
Proof.
  intros [[j [Hj Hl]]|[j [Hj Hl]]] Ha Hr; exists a2, r2; [left|right];
    exists j; split; auto; lia.
Qed.

Lemma numbered_from_weaken a1 r1 a0 r0 l :
  numbered_from a1 r1 l -> a0 <= a1 -> r0 <= r1 -> numbered_from a0 r0 l.
Proof. intros [ha [hr H]] Ha Hr. eapply numbered_weaken; eauto. Qed.

(** The counters never go down. *)
Lemma counters_perform c self :
  arith_jump_counter self <= arith_jump_counter (fst (Job.perform c self)) /\
  return_counter self <= return_counter (fst (Job.perform c self)).
Proof.
  destruct c; cbn [Job.perform].
  - destruct self. cbn. lia.
  - unfold write_arithmetic, translate_arithmetic_vm_code_to_assembly.
    run_method self; lia.
  - unfold write_push_pop, translate_push_vm_code_to_asm,
      translate_pop_vm_code_to_asm. run_method self; lia.
  - unfold write_label. run_method self; lia.
  - unfold write_goto. run_method self; lia.
  - unfold write_if. run_method self; lia.
  - unfold write_function. run_method self; lia.
  - unfold write_call. run_method self; lia.
  - unfold write_return. run_method self; lia.
Qed.

Lemma label_decls_skip l r :
  Job.declared l = None -> Job.label_decls (l :: r) = Job.label_decls r.
Proof. intros H. cbn. now rewrite H. Qed.

Lemma label_decls_label s r :
  Job.label_decls (("(" ++ s ++ ")") :: r) = s :: Job.label_decls r.
Proof. cbn [Job.label_decls]. now rewrite declared_label. Qed.

Ltac decls_tac :=
  repeat lazymatch goal with
  | |- context [Job.label_decls []] => cbn [Job.label_decls]
  | |- context [Job.label_decls (("(" ++ _ ++ ")") :: _)] =>
      rewrite label_decls_label
  | |- context [Job.label_decls (_ :: _)] =>
      rewrite label_decls_skip by reflexivity
  end.

Lemma skipn_length {A} (l : list A) : skipn (List.length l) l = [].
Proof. induction l; cbn; auto. Qed.

Lemma is_comparison_inv command :
  Job.is_comparison command = true -> In command ["eq"; "gt"; "lt"].
Proof.
  unfold Job.is_comparison, Command.mem. cbn [existsb In].
  destruct (String.eqb_spec command "eq"); [auto|].
  destruct (String.eqb_spec command "gt"); [auto|].
  destruct (String.eqb_spec command "lt"); [auto|]. discriminate.
Qed.

(** On a closed file a method writes nothing. *)
Ltac run_closed self H :=
  let ls := fresh "ls" in
  let c := fresh "c" in
  let log := fresh "log" in
  destruct self as [? ? [ls c] ? ? ? ? log]; cbn in H; subst c;
  unfold Job.emitted, Job.output; destruct log; cbn;
  repeat match goal with
         | |- context [match ?x with _ => _ end] => destruct x eqn:?; cbn
         end;
  apply skipn_length.

Lemma emitted_closed c self :
  closed (write_file self) = true -> Job.emitted (Job.perform c) self = [].
Proof.
  intros H. destruct c; cbn [Job.perform].
  - unfold set_filename. run_closed self H.
  - unfold write_arithmetic, translate_arithmetic_vm_code_to_assembly.
    run_closed self H.
  - unfold write_push_pop, translate_push_vm_code_to_asm,
      translate_pop_vm_code_to_asm. run_closed self H.
  - unfold write_label. run_closed self H.
  - unfold write_goto. run_closed self H.
  - unfold write_if. run_closed self H.
  - unfold write_function. run_closed self H.
  - unfold write_call. run_closed self H.
  - unfold write_return. run_closed self H.
Qed.

Lemma return_counter_write_arithmetic command self :
  return_counter (fst (write_arithmetic command self)) = return_counter self.
Proof.
  unfold write_arithmetic, translate_arithmetic_vm_code_to_assembly.
  run_method self; reflexivity.
Qed.

Lemma arith_counter_write_call function_name num_vars self :
  arith_jump_counter (fst (write_call function_name num_vars self))
  = arith_jump_counter self.
Proof. unfold write_call. run_method self; reflexivity. Qed.

Lemma emitted_write_call_none self function_name :
  closed (write_file self) = false ->
  Job.emitted (write_call function_name None) self =
  (if log_vm_commands self then ["//  call " ++ function_name ++ " None"] else []).
Proof.
  intros H. open_writer self H. unfold Job.emitted, Job.output.
  destruct log; cbn; [apply skipn_length_app | apply skipn_length].
Qed.

(** The labels of one call are distinct and numbered by the counters the
    call advances. *)
Lemma new_labels_step c self :
  NoDup (new_labels c self) /\
  forall l, In l (new_labels c self) ->
    numbered (arith_jump_counter self)
             (arith_jump_counter (fst (Job.perform c self)))
             (return_counter self)
             (return_counter (fst (Job.perform c self))) l.
Proof.
  unfold new_labels.
  destruct (Job.allocates c) eqn:Ea; [|split; [constructor | intros l []]].
  destruct (closed (write_file self)) eqn:Hc.
  { rewrite emitted_closed by exact Hc. split; [constructor | intros l []]. }
  destruct c; try discriminate; cbn [Job.allocates Job.perform] in *.
  - apply is_comparison_inv in Ea.
    rewrite (emitted_write_comparison self vm_command Hc Ea).
    rewrite (arith_counter_write_comparison self vm_command Hc Ea).
    rewrite return_counter_write_arithmetic.
    destruct (log_vm_commands self); cbn [app]; decls_tac.
    all: split;
      [ constructor; [intros [E|[]]; cbn [append] in E; discriminate|];
        constructor; [intros []|constructor]
      | intros l [<-|[<-|[]]]; left; exists (arith_jump_counter self);
        (split; [lia|auto]) ].
  - destruct num_vars as [n|].
    + rewrite (emitted_write_call self function_name n Hc).
      rewrite (return_counter_write_call self function_name (Some n) Hc).
      rewrite arith_counter_write_call.
      destruct (log_vm_commands self); cbn [app]; decls_tac.
      all: split;
        [ constructor; [intros []|constructor]
        | intros l [<-|[]]; right; exists (return_counter self);
          (split; [lia|auto]) ].
    + rewrite (emitted_write_call_none self function_name Hc).
      destruct (log_vm_commands self); decls_tac;
        (split; [constructor | intros l []]).
Qed.

Lemma counters_perform_all cs : forall self,
  arith_jump_counter self <= arith_jump_counter (fst (Job.perform_all cs self)) /\
  return_counter self <= return_counter (fst (Job.perform_all cs self)).
Proof.
  induction cs as [|c r IH]; intros self; cbn [Job.perform_all].
  - cbn. lia.
  - unfold bind. pose proof (counters_perform c self) as H.
    destruct (Job.perform c self) as [s1 [u|e]]; cbn [fst] in *; [|exact H].
    specialize (IH s1). lia.
Qed.

Lemma branch_labels_fresh cs : forall self,
  NoDup (Job.branch_labels cs self) /\
  forall l, In l (Job.branch_labels cs self) ->
    numbered_from (arith_jump_counter self) (return_counter self) l.
Proof.
  induction cs as [|c r IH]; intros self; cbn [Job.branch_labels].
  - split; [constructor | intros l []].
  - fold (new_labels c self).
    destruct (new_labels_step c self) as [Hnd Hnum].
    pose proof (counters_perform c self) as Hmono.
    destruct (Job.perform c self) as [s1 [u|e]]; cbn [fst] in *.
    + destruct (IH s1) as [Hnd1 Hnum1]. split.
      * apply NoDup_app; [exact Hnd | exact Hnd1|].
        intros l Hl Hl1.
        apply (numbered_disjoint _ _ _ _ _ _ l (Hnum l Hl) (Hnum1 l Hl1)); lia.
      * intros l Hl. apply in_app_or in Hl as [Hl|Hl].
        -- eapply numbered_weaken; [apply Hnum, Hl | lia | lia].
        -- eapply numbered_from_weaken; [apply Hnum1, Hl | lia | lia].
    + rewrite app_nil_r. split; [exact Hnd|].
      intros l Hl. eapply numbered_weaken; [apply Hnum, Hl | lia | lia].
Qed.

(** ** Construction and bootstrap *)

Lemma init_facts isdir filepath log cw :
  __init__ isdir filepath log = Ok cw ->
  let fresh := mk filepath (out_filename cw) (mk_file [] false) None None 0 0 log in
  Job.output cw =
    (if isdir filepath
     then (if log then ["//  Boostrap code"] else []) +++
          ["@256"; "D=A"; "@SP"; "M=D"] +++
          Job.emitted (write_call "Sys.init" (Some 0)) fresh
     else []) /\
  closed (write_file cw) = false /\
  arith_jump_counter cw = 0 /\
  return_counter cw = (if isdir filepath then 1 else 0) /\
  current_function cw = None /\
  log_vm_commands cw = log.
Proof.
  intros H. destruct (init_inv _ _ _ _ H) as [out E].
  unfold write_init, bind, get in E. cbn [in_filepath] in E.
  destruct (isdir filepath), log; cbn in E; injection E as <-;
    repeat split; reflexivity.
Qed.

Lemma instructions_cons_congr l r r' :
  Hack.instructions r = Hack.instructions r' ->
  Hack.instructions (l :: r) = Hack.instructions (l :: r').
Proof. intros H. cbn. now rewrite H. Qed.

Lemma some_eq {A} (a b : A) : Some a = Some b -> a = b.
Proof. now intros [= ->]. Qed.

Lemma bootstrap_run sym rom p m code :
  sym "SP" = 0 -> sym "LCL" = 1 -> sym "ARG" = 2 -> sym "THIS" = 3 -> sym "THAT" = 4 ->
  Hack.instructions
    (["@256"; "D=A"; "@SP"; "M=D"] +++
     ["@" ++ "RETURN_" ++ Py.str_int 0; "D=A"; "@SP"; "AM=M+1"; "A=A-1"; "M=D";
      "@LCL"; "D=M"; "@SP"; "AM=M+1"; "A=A-1"; "M=D";
      "@ARG"; "D=M"; "@SP"; "AM=M+1"; "A=A-1"; "M=D";
      "@THIS"; "D=M"; "@SP"; "AM=M+1"; "A=A-1"; "M=D";
      "@THAT"; "D=M"; "@SP"; "AM=M+1"; "A=A-1"; "M=D";
      "@SP"; "D=M"; "@" ++ Py.str_int (0 + 5); "D=D-A"; "@ARG"; "M=D";
      "@SP"; "D=M"; "@LCL"; "M=D";
      "@" ++ "Sys.init"; "0;JMP";
      "(" ++ ("RETURN_" ++ Py.str_int 0) ++ ")"]) = Some code ->
  Hack.loaded rom p code -> Hack.PC m = p ->
  Hack.after 4 sym rom m (fun m' => Hack.RAM m' 0 = 256 /\ Hack.PC m' = p + 4) /\
  Hack.after 46 sym rom m (fun m' =>
    Hack.PC m' = Hack.addr (sym "Sys.init") /\
    Hack.RAM m' 256 = sym ("RETURN_" ++ Py.str_int 0) /\
    Hack.RAM m' 257 = Hack.RAM m 1 /\ Hack.RAM m' 258 = Hack.RAM m 2 /\
    Hack.RAM m' 259 = Hack.RAM m 3 /\ Hack.RAM m' 260 = Hack.RAM m 4 /\
    Hack.RAM m' 0 = 261 /\ Hack.RAM m' 2 = 256 /\ Hack.RAM m' 1 = 261).
Proof.
  intros Hsp Hlcl Harg Hthis Hthat Hcode Hl Hpc.
  set (ret := "RETURN_" ++ Py.str_int 0) in *.
  assert (Pret : Hack.parse_operand ret = Some (Hack.Sym ret))
    by apply parse_operand_RETURN.
  clearbody ret.
  match type of Hcode with
  | Hack.instructions (?t1 +++ ?t2) = _ =>
      eassert (H1 : Hack.instructions t1 = Some _) by asm_tac;
      eassert (H2 : Hack.instructions t2 = Some _) by asm_tac;
      rewrite (instructions_app _ _ _ _ H1 H2) in Hcode
  end.
  apply some_eq in Hcode. subst code.
  match type of Hl with
  | Hack.loaded _ _ (?k1 +++ ?k2) => set (c1 := k1) in *; set (c2 := k2) in *
  end.
  destruct m as [a d pc ram]. cbn [Hack.PC] in Hpc. subst pc.
  set (m0 := Hack.mk a d p ram).
  assert (E4 : Hack.exec_block sym c1 m0
               = Hack.mk 0 256 (p + 4) (Hack.upd ram 0 256)).
  { subst c1 m0. run_block. rewrite Hsp. word_simpl. machine_eq. }
  assert (R4 : Hack.steps 4 sym rom m0 = Some (Hack.exec_block sym c1 m0)).
  { apply (steps_block sym rom c1 p m0); [|reflexivity|reflexivity].
    eapply loaded_app_l; eauto. }
  assert (L2 : Hack.loaded rom (p + 4) c2).
  { apply (loaded_skipn rom p (c1 +++ c2) 4) in Hl. exact Hl. }
  split.
  - eexists. split; [exact R4|]. rewrite E4. cbn. split; [now word_simpl | reflexivity].
  - destruct (call_body_run sym rom (p + 4) (Hack.mk 0 256 (p + 4) (Hack.upd ram 0 256))
                ret "Sys.init" 0 c2 (Hack.Sym "Sys.init") 256
                Hsp Hlcl Harg Hthis Hthat ltac:(lia) ltac:(lia) eq_refl Pret H2 L2
                eq_refl ltac:(cbn; now word_simpl) ltac:(lia) ltac:(lia) ltac:(lia))
      as (_ & _ & _ & _ & _ & _ & _ & (m' & Hs & HP & H0 & H1' & H2' & H3 & H4 & H5 & H6 & H7)).
    exists m'. split.
    + change 46%nat with (4 + 42)%nat. rewrite steps_add, R4, E4. exact Hs.
    + cbn [Hack.RAM] in *.
      rewrite ?(upd_other ram 0 256) in * by lia.
      repeat split; assumption.
Qed.

(** ** The driver only talks to the code writer through its methods *)

Lemma translate_command_perform line self :
  (exists e, Main.translate_command line self = (self, Err e)) \/
  (exists c, Main.translate_command line self = Job.perform c self).
Proof.
  unfold Main.translate_command, bind, lift, raise.
  destruct (Command.__init__ line) as [c|e]; [|left; eauto].
  destruct (Command.command_type c =? "C_RETURN")%string;
    [right; exists Job.Write_return; reflexivity|].
  destruct (Command.arg1 c) as [a1|e]; [|left; eauto].
  destruct (Command.command_type c =? "C_ARITHMETIC")%string;
    [right; eexists (Job.Write_arithmetic _); reflexivity|].
  destruct (Command.mem (Command.command_type c) ["C_PUSH"; "C_POP"]).
  { destruct (Command.arg2 c) as [a2|e]; [|left; eauto].
    right; eexists (Job.Write_push_pop _ _ _); reflexivity. }
  destruct (Command.command_type c =? "C_LABEL")%string;
    [right; eexists (Job.Write_label _); reflexivity|].
  destruct (Command.command_type c =? "C_IF")%string;
    [right; eexists (Job.Write_if _); reflexivity|].
  destruct (Command.command_type c =? "C_GOTO")%string;
    [right; eexists (Job.Write_goto _); reflexivity|].
  destruct (Command.arg2 c) as [a2|e]; [|left; eauto].
  destruct (Command.command_type c =? "C_FUNCTION")%string;
    [right; eexists (Job.Write_function _ _); reflexivity|].
  destruct (Command.command_type c =? "C_CALL")%string;
    [right; eexists (Job.Write_call _ _); reflexivity|].
  left; eauto.
Qed.

Lemma perform_all_app cs1 cs2 self :
  snd (Job.perform_all cs1 self) = Ok tt ->
  Job.perform_all (cs1 +++ cs2) self
  = Job.perform_all cs2 (fst (Job.perform_all cs1 self)).
Proof.
  revert self. induction cs1 as [|c r IH]; intros self H; cbn [app Job.perform_all] in *.
  - reflexivity.
  - unfold bind in *. destruct (Job.perform c self) as [s1 [u|e]]; cbn in *.
    + now apply IH.
    + discriminate.
Qed.

Lemma performs_bind (m1 m2 : M unit) :
  performs m1 -> performs m2 -> performs (bind m1 (fun _ => m2)).
Proof.
  intros H1 H2 self. destruct (H1 self) as [cs1 [F1 S1]].
  unfold bind. destruct (m1 self) as [s1 [u|e]] eqn:E1; cbn [fst snd] in *.
  - destruct (H2 s1) as [cs2 [F2 S2]]. exists (cs1 +++ cs2).
    specialize (S1 u eq_refl).
    rewrite (perform_all_app cs1 cs2 self S1), F1. auto.
  - exists cs1. split; [exact F1 | discriminate].
Qed.

Lemma performs_perform c : performs (Job.perform c).
Proof.
  intros self. exists [c]. cbn [Job.perform_all]. unfold bind, ret.
  destruct (Job.perform c self) as [s1 [[]|e]]; cbn; split; auto; discriminate.
Qed.

Lemma performs_ret : performs (ret tt).
Proof. intros self. exists []. cbn. auto. Qed.

Lemma performs_translate_command line : performs (Main.translate_command line).
Proof.
  intros self. destruct (translate_command_perform line self) as [[e E]|[c E]].
  - exists []. rewrite E. cbn. split; [reflexivity | discriminate].
  - rewrite E. apply performs_perform.
Qed.

Lemma performs_translate_commands commands : performs (Main.translate_commands commands).
Proof.
  induction commands as [|l r IH]; cbn [Main.translate_commands].
  - apply performs_ret.
  - apply performs_bind; [apply performs_translate_command | exact IH].
Qed.

Lemma performs_translate_units files : performs (Main.translate_units files).
Proof.
  induction files as [|[filepath file] r IH]; cbn [Main.translate_units].
  - apply performs_ret.
  - apply performs_bind; [|exact IH]. unfold Main.translate_file.
    apply performs_bind; [|apply performs_translate_commands].
    apply (performs_perform (Job.Set_filename filepath)).
Qed.

(** C3.  In a job, the labels declared by the text of the comparisons and
    of the calls, the bootstrap call included, are pairwise distinct,
    whatever the sequence of method calls and of input units: they are
    [TRUE_n] and [END_n] numbered by the comparison counter and [RETURN_n]
    numbered by the return counter; no method lowers a counter, a comparison
    advances the first by one and a call the second; and the driver only
    acts on the code writer through such method calls. *)
Theorem branch_labels_unique isdir filepath log cw calls :
  __init__ isdir filepath log = Ok cw ->
  let labels := Job.label_decls (Job.output cw) +++ Job.branch_labels calls cw in
  NoDup labels /\
  (forall l, In l labels -> numbered_from 0 0 l) /\
  (forall c self,
     arith_jump_counter self <= arith_jump_counter (fst (Job.perform c self)) /\
     return_counter self <= return_counter (fst (Job.perform c self))) /\
  (forall self command,
     closed (write_file self) = false -> In command ["eq"; "gt"; "lt"] ->
     Job.label_decls (Job.emitted (write_arithmetic command) self)
       = ["TRUE_" ++ Py.str_int (arith_jump_counter self);
          "END_" ++ Py.str_int (arith_jump_counter self)] /\
     arith_jump_counter (fst (write_arithmetic command self))
       = arith_jump_counter self + 1) /\
  (forall self function_name n,
     closed (write_file self) = false ->
     Job.label_decls (Job.emitted (write_call function_name (Some n)) self)
       = ["RETURN_" ++ Py.str_int (return_counter self)] /\
     return_counter (fst (write_call function_name (Some n) self))
       = return_counter self + 1) /\
  (forall files, exists calls',
     fst (Job.perform_all calls' cw) = fst (Main.translate_units files cw)).
Proof.
  intros Hinit labels.
  destruct (init_facts _ _ _ _ Hinit) as (Hout & Hopen & Ha & Hr & _ & _).
  destruct (branch_labels_fresh calls cw) as [Hnd Hnum].
  rewrite Ha, Hr in Hnum.
  assert (Hboot : Job.label_decls (Job.output cw)
                  = if isdir filepath then ["RETURN_" ++ Py.str_int 0] else []).
  { rewrite Hout. destruct (isdir filepath); [|reflexivity].
    rewrite emitted_write_call by reflexivity. cbn [return_counter log_vm_commands].
    destruct log; cbn [app]; decls_tac; reflexivity. }
  subst labels. rewrite Hboot.
  split; [|split; [|split; [|split; [|split]]]].
  - destruct (isdir filepath); cbn [app]; [|exact Hnd].
    constructor; [|exact Hnd]. intros Hin.
    apply (numbered_disjoint 0 0 0 0 1 1 ("RETURN_" ++ Py.str_int 0)); try lia.
    + right. exists 0. split; [lia | reflexivity].
    + now apply Hnum.
  - intros l Hl. apply in_app_or in Hl as [Hl|Hl].
    + destruct (isdir filepath); [|destruct Hl]. destruct Hl as [<-|[]].
      exists 0, 1. right. exists 0. split; [lia | reflexivity].
    + eapply numbered_from_weaken; [apply Hnum, Hl | lia |].
      destruct (isdir filepath); lia.
  - apply counters_perform.
  - intros self command Hc Hin. split.
    + rewrite (emitted_write_comparison self command Hc Hin).
      destruct (log_vm_commands self); cbn [app]; decls_tac; reflexivity.
    + now apply arith_counter_write_comparison.
  - intros self function_name n Hc. split.
    + rewrite (emitted_write_call self function_name n Hc).
      destruct (log_vm_commands self); cbn [app]; decls_tac; reflexivity.
    + now apply return_counter_write_call.
  - intros files. destruct (performs_translate_units files cw) as [cs [F _]].
    now exists cs.
Qed.

Lemma branch_labels_unique_witness :
  exists cw,
    __init__ (fun _ => true) "prog" true = Ok cw /\
    NoDup (Job.label_decls (Job.output cw) +++
           Job.branch_labels
             [Job.Set_filename "prog/A.vm"; Job.Write_arithmetic "eq";
              Job.Write_call "f" (Some 0); Job.Write_arithmetic "eq";
              Job.Set_filename "prog/B.vm"; Job.Write_arithmetic "eq";
              Job.Write_call "f" (Some 0)] cw).
Proof.
  eassert (E : __init__ (fun _ => true) "prog" true = Ok _) by (vm_compute; reflexivity).
  eexists. split; [exact E|].
  apply (branch_labels_unique _ _ _ _ _ E).
Defined.

(** C4.  The constructor writes the bootstrap when the input path is a
    directory and nothing otherwise: the stack pointer set to 256, then the
    text of [write_call "Sys.init" 0] as any call emits it.  It is the whole
    output at that point, so it comes once and first; every method called
    afterwards, and so the whole job of the driver, only appends to it.  Run
    on the target machine, its first four instructions set the stack pointer
    to 256 and the next 42 do the call. *)
Theorem bootstrap_iff_directory isdir filepath log cw :
  __init__ isdir filepath log = Ok cw ->
  let fresh := mk filepath (out_filename cw) (mk_file [] false) None None 0 0 log in
  let bootstrap :=
    (if log then ["//  Boostrap code"] else []) +++
    ["@256"; "D=A"; "@SP"; "M=D"] +++
    Job.emitted (write_call "Sys.init" (Some 0)) fresh in
  Job.output cw = (if isdir filepath then bootstrap else []) /\
  (Job.output cw = [] <-> isdir filepath = false) /\
  (forall calls, exists rest,
     Job.output (fst (Job.perform_all calls cw)) = Job.output cw +++ rest) /\
  (forall files cw' r,
     log = true ->
     Main.translate_files isdir files filepath = (Some cw', r) ->
     exists rest, Job.output cw' = Job.output cw +++ rest) /\
  (forall labels vars rom p m code,
     let sym := Hack.symbol_value labels vars in
     Hack.instructions bootstrap = Some code ->
     Hack.loaded rom p code -> Hack.PC m = p ->
     Hack.after 4 sym rom m (fun m' => Hack.RAM m' 0 = 256 /\ Hack.PC m' = p + 4) /\
     Hack.after 46 sym rom m (fun m' =>
       Hack.PC m' = Hack.addr (sym "Sys.init") /\
       Hack.RAM m' 256 = sym ("RETURN_" ++ Py.str_int 0) /\
       Hack.RAM m' 257 = Hack.RAM m 1 /\ Hack.RAM m' 258 = Hack.RAM m 2 /\
       Hack.RAM m' 259 = Hack.RAM m 3 /\ Hack.RAM m' 260 = Hack.RAM m 4 /\
       Hack.RAM m' 0 = 261 /\ Hack.RAM m' 2 = 256 /\ Hack.RAM m' 1 = 261)).
Proof.
  intros Hinit fresh bootstrap.
  destruct (init_facts _ _ _ _ Hinit) as (Hout & Hopen & _).
  fold fresh in Hout. fold bootstrap in Hout.
  assert (Hboot : bootstrap =
    (if log then ["//  Boostrap code"] else []) +++
    ["@256"; "D=A"; "@SP"; "M=D"] +++
    (if log then ["//  call " ++ "Sys.init" ++ " " ++ Py.str_int 0] else []) +++
    ["@" ++ "RETURN_" ++ Py.str_int 0; "D=A"; "@SP"; "AM=M+1"; "A=A-1"; "M=D";
     "@LCL"; "D=M"; "@SP"; "AM=M+1"; "A=A-1"; "M=D";
     "@ARG"; "D=M"; "@SP"; "AM=M+1"; "A=A-1"; "M=D";
     "@THIS"; "D=M"; "@SP"; "AM=M+1"; "A=A-1"; "M=D";
     "@THAT"; "D=M"; "@SP"; "AM=M+1"; "A=A-1"; "M=D";
     "@SP"; "D=M"; "@" ++ Py.str_int (0 + 5); "D=D-A"; "@ARG"; "M=D";
     "@SP"; "D=M"; "@LCL"; "M=D";
     "@" ++ "Sys.init"; "0;JMP";
     "(" ++ ("RETURN_" ++ Py.str_int 0) ++ ")"]).
  { subst bootstrap. rewrite emitted_write_call by reflexivity.
    subst fresh. cbn [log_vm_commands return_counter]. destruct log; reflexivity. }
  split; [exact Hout|]. split; [|split; [|split]].
  - rewrite Hout. destruct (isdir filepath).
    + rewrite Hboot. split; [|discriminate]. destruct log; discriminate.
    + split; reflexivity.
  - intros calls. destruct (appends_perform_all calls cw) as [rest [H _]]. eauto.
  - intros files cw' r -> Hjob. unfold Main.translate_files in Hjob.
    rewrite Hinit in Hjob. unfold bind, close, modify in Hjob.
    destruct (appends_translate_units files cw) as [rest [H _]].
    destruct (Main.translate_units files cw) as [cw1 [[]|e1]]; cbn [fst] in H;
      injection Hjob as <- _; exists rest; exact H.
  - intros labels vars rom p m code sym Hcode Hl Hpc.
    assert (Hsp : sym "SP" = 0) by reflexivity.
    assert (Hlcl : sym "LCL" = 1) by reflexivity.
    assert (Harg : sym "ARG" = 2) by reflexivity.
    assert (Hthis : sym "THIS" = 3) by reflexivity.
    assert (Hthat : sym "THAT" = 4) by reflexivity.
    clearbody sym.
    rewrite Hboot in Hcode. clear - Hcode Hl Hpc Hsp Hlcl Harg Hthis Hthat.
    apply (bootstrap_run sym rom p m code Hsp Hlcl Harg Hthis Hthat); auto.
    destruct log; cbn [app] in Hcode; [|exact Hcode].
    rewrite instructions_skip in Hcode by reflexivity.
    rewrite <- Hcode. cbn [app].
    do 4 apply instructions_cons_congr.
    symmetry. now apply instructions_skip.
Qed.

Lemma bootstrap_iff_directory_witness :
  exists cw,
    __init__ (fun _ => true) "prog" true = Ok cw /\
    Job.output cw <> [] /\
    forall a d ram,
      Hack.after 4 (Hack.symbol_value [] (fun _ => 16)) (Sample.code_of (Job.output cw))
        (Hack.mk a d 0 ram)
        (fun m' => Hack.RAM m' 0 = 256 /\ Hack.PC m' = 0 + 4).
Proof.
  eassert (E : __init__ (fun _ => true) "prog" true = Ok _) by (vm_compute; reflexivity).
  eexists. split; [exact E|].
  destruct (bootstrap_iff_directory _ _ _ _ E) as (Hout & Hiff & _ & _ & Hrun).
  split.
  - intros H. apply Hiff in H. discriminate H.
  - intros a d ram.
    apply (Hrun [] (fun _ => 16) _ 0 (Hack.mk a d 0 ram) _ eq_refl (loaded_self _) eq_refl).
Defined.

(** ** Cleaning of an input unit *)

Lemma nth_error_middle {A} (done : list A) x rest :
  nth_error (done +++ x :: rest) (List.length done) = Some x.
Proof. induction done; cbn; auto. Qed.

Lemma nth_error_end {A} (done : list A) :
  nth_error done (List.length done) = None.
Proof. induction done; cbn; auto. Qed.

Lemma list_set_middle {A} (done : list A) x v rest :
  Py.list_set (done +++ x :: rest) (List.length done) v = done +++ v :: rest.
Proof.
  unfold Py.list_set. induction done as [|a done IH]; [reflexivity|].
  cbn [List.length firstn skipn app] in *. f_equal. exact IH.
Qed.

Lemma list_pop_middle {A} (done : list A) x rest :
  Py.list_pop (done +++ x :: rest) (List.length done) = done +++ rest.
Proof.
  unfold Py.list_pop. induction done as [|a done IH]; [reflexivity|].
  cbn [List.length firstn skipn app] in *. f_equal. exact IH.
Qed.

Lemma clean_file_loop_from rest : forall done fuel,
  (List.length rest < fuel)%nat ->
  Parser.clean_file_loop fuel (List.length done) (done +++ rest)
  = Some (done +++ Parser.clean_file rest).
Proof.
  induction rest as [|l rest IH]; intros done fuel Hf.
  - destruct fuel as [|k]; [cbn in Hf; lia|].
    cbn [Parser.clean_file_loop Parser.clean_file].
    rewrite app_nil_r, nth_error_end. reflexivity.
  - destruct fuel as [|k]; [cbn in Hf; lia|].
    cbn [Parser.clean_file_loop Parser.clean_file].
    rewrite nth_error_middle, list_set_middle.
    destruct (Parser.is_blank (Parser.clean_line l)).
    + rewrite list_pop_middle. apply IH. cbn in Hf. lia.
    + replace (done +++ Parser.clean_line l :: rest)
        with ((done +++ [Parser.clean_line l]) +++ rest)
        by (rewrite <- app_assoc; reflexivity).
      replace (S (List.length done)) with (List.length (done +++ [Parser.clean_line l]))
        by (rewrite length_app; cbn; lia).
      rewrite IH by (cbn in Hf; lia).
      rewrite <- app_assoc. reflexivity.
Qed.

Lemma clean_file_filter file :
  Parser.clean_file file
  = filter (fun l => negb (Parser.is_blank l)) (map Parser.clean_line file).
Proof.
  induction file as [|l r IH]; [reflexivity|].
  cbn [Parser.clean_file map filter].
  destruct (Parser.is_blank (Parser.clean_line l)); cbn [negb]; now rewrite IH.
Qed.

(** X1.  The cleaning loop of the parser ends, after one turn for each
    line of the unit, on the cleaned lines that are not blank, in the order
    of the unit. *)
Theorem clean_file_loop_result file fuel :
  (List.length file < fuel)%nat ->
  Parser.clean_file_loop fuel 0 file
  = Some (filter (fun l => negb (Parser.is_blank l)) (map Parser.clean_line file)) /\
  Parser._file (Parser.__init__ file)
  = filter (fun l => negb (Parser.is_blank l)) (map Parser.clean_line file).
Proof.
  intros Hf. rewrite <- clean_file_filter. split; [|reflexivity].
  exact (clean_file_loop_from file [] fuel Hf).
Qed.

Lemma clean_file_loop_result_witness :
  Parser.clean_file_loop 5 0
    ["// a unit" ++ Sample.nl; "  push constant 5  // five" ++ Sample.nl;
     Sample.nl; "eq"]
  = Some ["push constant 5"; "eq"].
Proof.
  destruct (clean_file_loop_result
              ["// a unit" ++ Sample.nl; "  push constant 5  // five" ++ Sample.nl;
               Sample.nl; "eq"] 5 ltac:(cbn; lia)) as [H _].
  exact H.
Defined.

(** *** Stripping *)

Lemma lstrip_head s :
  Py.lstrip s = "" \/ exists c r, Py.lstrip s = String c r /\ Py.isspace c = false.
Proof.
  induction s as [|c r IH]; [now left|].
  cbn [Py.lstrip]. destruct (Py.isspace c) eqn:E; [exact IH|].
  right. now exists c, r.
Qed.

Lemma rstrip_cons c r :
  Py.isspace c = false -> Py.rstrip (String c r) = String c (Py.rstrip r).
Proof.
  intros E. cbn [Py.rstrip]. rewrite E. now destruct (Py.rstrip r).
Qed.


Lemma strip_head s :
  Py.strip s = "" \/ exists c r, Py.strip s = String c r /\ Py.isspace c = false.
Proof.
  unfold Py.strip. destruct (lstrip_head s) as [->|(c & r & -> & E)]; [now left|].
  right. rewrite (rstrip_cons _ _ E). eauto.
Qed.


Lemma is_blank_strip s : Parser.is_blank (Py.strip s) = (Py.strip s =? "")%string.
Proof.
  unfold Parser.is_blank.
  destruct (strip_head s) as [->|(c & r & -> & E)]; [reflexivity|].
  cbn. now rewrite E.
Qed.


(** *** Comments *)

Lemma prefix_cons c p d s :
  prefix (String c p) (String d s) = (c =? d)%char && prefix p s.
Proof.
  cbn [prefix]. destruct (ascii_dec c d) as [->|N].
  - now rewrite Ascii.eqb_refl.
  - apply Ascii.eqb_neq in N. now rewrite N.
Qed.

Lemma prefix_nil_r c p : prefix (String c p) "" = false.
Proof. reflexivity. Qed.










(** ** The parser's cursor *)

Lemma list_get_in_range {A} (l : list A) i :
  0 <= i < Z.of_nat (List.length l) ->
  exists x, nth_error l (Z.to_nat i) = Some x /\ Py.list_get l i = Some x.
Proof.
  intros H. unfold Py.list_get.
  destruct (i <? 0) eqn:E; [apply Z.ltb_lt in E; lia|].
  destruct (nth_error l (Z.to_nat i)) as [x|] eqn:N; [eauto|].
  apply nth_error_None in N. lia.
Qed.

Lemma list_get_past_end {A} (l : list A) i :
  Z.of_nat (List.length l) <= i -> Py.list_get l i = None.
Proof.
  intros H. unfold Py.list_get.
  destruct (i <? 0) eqn:E; [apply Z.ltb_lt in E; lia|].
  apply nth_error_None. lia.
Qed.

(** X3.  A new parser stands before the first line it kept.  Under the
    guard [has_more_commands], [advance] moves to the next kept line and
    builds its command, or stops on the exception that line raises, the
    line number moved in both cases; it never indexes past the list.  Called
    once more after the guard has turned false, it ends in [IndexError]. *)
Theorem parser_advance_in_bounds :
  (forall file,
     Parser._line (Parser.__init__ file) = -1 /\
     Parser._current_command (Parser.__init__ file) = None /\
     (Parser.has_more_commands (Parser.__init__ file) = false
      <-> Parser.clean_file file = [])) /\
  (forall self,
     -1 <= Parser._line self -> Parser.has_more_commands self = true ->
     exists string,
       nth_error (Parser._file self) (Z.to_nat (Parser._line self + 1)) = Some string /\
       Parser.advance self =
       match Command.__init__ string with
       | Ok command =>
           Parser.Advanced
             (Parser.mk (Parser._file self) (Some command) (Parser._line self + 1))
       | Err e =>
           Parser.Raised e
             (Parser.mk (Parser._file self) (Parser._current_command self)
                        (Parser._line self + 1))
       end) /\
  (forall self,
     -1 <= Parser._line self -> Parser.has_more_commands self = false ->
     Parser.advance self =
     Parser.IndexError
       (Parser.mk (Parser._file self) (Parser._current_command self)
                  (Parser._line self + 1))).
Proof.
  split; [|split].
  - intros file. split; [reflexivity|]. split; [reflexivity|].
    unfold Parser.has_more_commands, Parser.__init__. cbn [Parser._line Parser._file].
    destruct (Parser.clean_file file) as [|l r]; cbn [List.length].
    + split; reflexivity.
    + split; [|discriminate]. intros H. apply Z.ltb_ge in H. lia.
  - intros [file cc line]. unfold Parser.has_more_commands, Parser.advance.
    cbn [Parser._line Parser._file Parser._current_command]. intros H0 H.
    apply Z.ltb_lt in H.
    destruct (list_get_in_range file (line + 1)) as (x & N & G); [lia|].
    exists x. split; [exact N|]. rewrite G. reflexivity.
  - intros [file cc line]. unfold Parser.has_more_commands, Parser.advance.
    cbn [Parser._line Parser._file Parser._current_command]. intros H0 H.
    apply Z.ltb_ge in H. now rewrite list_get_past_end by lia.
Qed.

(** ** Words and numbers *)

Lemma split_space_cons s : exists h t, Py.split_space s = h :: t.
Proof.
  induction s as [|c r [h [t IH]]]; [now exists "", []|].
  cbn [Py.split_space]. destruct (c =? " ")%char; [eauto|].
  rewrite IH. eauto.
Qed.

Lemma split_space_word w : has_char " " w = false -> Py.split_space w = [w].
Proof.
  induction w as [|c r IH]; [reflexivity|].
  cbn [has_char Py.split_space]. intros H. apply orb_false_elim in H as [H1 H2].
  rewrite Ascii.eqb_sym, H1, (IH H2). reflexivity.
Qed.

Lemma split_space_app w r :
  has_char " " w = false -> Py.split_space (w ++ " " ++ r) = w :: Py.split_space r.
Proof.
  induction w as [|c x IH]; [reflexivity|].
  cbn [has_char]. intros H. apply orb_false_elim in H as [H1 H2].
  cbn [append Py.split_space]. rewrite Ascii.eqb_sym, H1.
  cbn [append] in IH. now rewrite (IH H2).
Qed.






Lemma isspace_digits d : Py.all_space (NilEmpty.string_of_uint d) = true -> d = Decimal.Nil.
Proof. destruct d; cbn; try discriminate; reflexivity. Qed.






Lemma has_char_digits c d :
  Py.is_digit c = false -> has_char c (NilEmpty.string_of_uint d) = false.
Proof.
  intros H. induction d; cbn [NilEmpty.string_of_uint has_char]; [reflexivity|..].
  all: rewrite IHd, orb_false_r.
  all: destruct (c =? _)%char eqn:E; [|reflexivity].
  all: apply Ascii.eqb_eq in E; subst c; discriminate H.
Qed.

Lemma has_char_str_int c z :
  Py.is_digit c = false -> c <> "-"%char -> has_char c (Py.str_int z) = false.
Proof.
  intros H N. unfold Py.str_int.
  assert (U : forall d, has_char c (NilZero.string_of_uint d) = false).
  { intros d. unfold NilZero.string_of_uint. destruct d eqn:E; rewrite <- ?E;
      try apply has_char_digits; try assumption.
    cbn. rewrite orb_false_r. destruct (c =? "0")%char eqn:E0; [|reflexivity].
    apply Ascii.eqb_eq in E0. subst c. discriminate H. }
  destruct (Z.to_int z); cbn [NilZero.string_of_int has_char]; [apply U|].
  rewrite U, orb_false_r. now apply Ascii.eqb_neq.
Qed.


(** ** The instruction model *)

Lemma get_in k v d : Command.get k d = Some v -> In (k, v) d.
Proof.
  induction d as [|[k' v'] d IH]; [discriminate|].
  cbn [Command.get]. destruct (k =? k')%string eqn:E.
  - apply String.eqb_eq in E. subst k'. intros [= ->]. now left.
  - intros H. right. auto.
Qed.

Ltac map_cases G :=
  apply get_in in G; cbn [In Command.COMMAND_TYPE_MAP] in G;
  repeat (destruct G as [G|G]; [injection G as <- <-|]); [..|destruct G].

(** X4.  What a [Command] that was built holds: its type is one of the
    nine and is the one its first word maps to; [return] has no argument
    and ignores the words that follow it; an arithmetic command has its own
    name as first argument (never the command type) and ignores the words
    that follow; every other command has its second word as first argument
    and at most three words; an index, when there is one, is the integer
    its third word reads as, is not negative, and belongs to a push, pop,
    function or call.  The getters do not raise on it. *)
Theorem command_shape s c :
  Command.__init__ s = Ok c ->
  let ct := Command.command_type c in
  let words := Py.split_space s in
  In ct ["C_ARITHMETIC"; "C_PUSH"; "C_POP"; "C_LABEL"; "C_GOTO"; "C_IF";
         "C_FUNCTION"; "C_RETURN"; "C_CALL"] /\
  Command.get (hd "" words) Command.COMMAND_TYPE_MAP = Some ct /\
  (ct = "C_RETURN" -> Command._arg1 c = None /\ Command._arg2 c = None) /\
  (ct = "C_ARITHMETIC" ->
   Command._arg1 c = Some (hd "" words) /\ Command._arg2 c = None) /\
  (ct <> "C_RETURN" -> ct <> "C_ARITHMETIC" ->
   Command._arg1 c = nth_error words 1 /\ (2 <= List.length words <= 3)%nat /\
   Command.arg1 c = Ok (nth_error words 1)) /\
  (forall n, Command._arg2 c = Some n ->
     0 <= n /\ In ct ["C_PUSH"; "C_POP"; "C_FUNCTION"; "C_CALL"] /\
     Command.arg2 c = Ok (Some n) /\
     exists w, nth_error words 2 = Some w /\ Py.int w = Some n) /\
  (Command._arg2 c = None -> ct <> "C_RETURN" -> ct <> "C_ARITHMETIC" ->
   List.length words = 2%nat).
Proof.
  intros H ct words. subst ct words. unfold Command.__init__ in H.
  destruct (Py.split_space s) as [|c0 rest]; [discriminate|].
  unfold Command.set_command_type, bind_result in H.
  destruct (Command.get c0 Command.COMMAND_TYPE_MAP) as [ct|] eqn:G; [|discriminate].
  cbn [hd]. rewrite G. pose proof G as G'. map_cases G'.
  all: cbn -[Py.int Py.str_int] in H.
  all: try (injection H as <-; cbn;
            repeat split; auto 12; try discriminate; try congruence).
  all: destruct rest as [|c1 [|c2 rest2]]; try discriminate H.
  all: try (injection H as <-; cbn;
            repeat split; auto 12; try discriminate; try congruence; try lia).
  all: cbn -[Py.int Py.str_int] in H; unfold Command.set_arg2 in H;
       cbn -[Py.int Py.str_int] in H; try discriminate H.
  all: destruct (Py.int c2) as [num|] eqn:I; try discriminate H.
  all: destruct (num <? 0) eqn:Neg; try discriminate H.
  all: destruct rest2; try discriminate H.
  all: injection H as <-; apply Z.ltb_ge in Neg; cbn -[Py.int].
  all: repeat split; auto 12; try discriminate; try congruence; try lia.
  all: try (intros n [= <-]; repeat split; auto 12; try lia; eauto).
  all: exists c2; split; [reflexivity | congruence].
Qed.

Lemma command_shape_witness :
  Command.__init__ "push constant 7" = Ok (Command.mk "C_PUSH" (Some "constant") (Some 7)) /\
  Command.get "push" Command.COMMAND_TYPE_MAP = Some "C_PUSH".
Proof.
  assert (E : Command.__init__ "push constant 7"
              = Ok (Command.mk "C_PUSH" (Some "constant") (Some 7))) by reflexivity.
  split; [exact E|].
  destruct (command_shape _ _ E) as (_ & H & _). exact H.
Defined.



Lemma split_space_two w a :
  has_char " " w = false -> has_char " " a = false ->
  Py.split_space (w ++ " " ++ a) = [w; a].
Proof.
  intros Hw Ha. now rewrite (split_space_app w _ Hw), (split_space_word a Ha).
Qed.




(** ** The exceptions of the code writer *)

Lemma write_error commands self e :
  snd (write commands self) = Err e -> e = ValueError "I/O operation on closed file.".
Proof.
  unfold write. destruct (closed (write_file self)); cbn [snd]; congruence.
Qed.

Lemma when_write_error b commands self e :
  snd (when b (write commands) self) = Err e ->
  e = ValueError "I/O operation on closed file.".
Proof.
  destruct b; cbn [when]; [apply write_error | discriminate].
Qed.

Lemma bind_error {A B} (m : M A) (k : A -> M B) self e :
  snd (bind m k self) = Err e ->
  snd (m self) = Err e \/
  exists a self', m self = (self', Ok a) /\ snd (k a self') = Err e.
Proof.
  unfold bind. destruct (m self) as [self' [a|e']]; cbn [snd]; [eauto|].
  intros [= ->]. now left.
Qed.

Lemma translate_segment_error self ct seg i e :
  translate_segment_vm_code self seg i = Err e ->
  (ct = "C_PUSH" -> seg <> "skip") ->
  method_error (Job.Write_push_pop ct seg i) e.
Proof.
  unfold translate_segment_vm_code. intros H Hs.
  destruct (Command.mem seg ["local"; "argument"; "this"; "that"]) eqn:B.
  { cbn in B. 
    destruct (seg =? "local")%string eqn:E1; [apply String.eqb_eq in E1; subst; discriminate H|].
    destruct (seg =? "argument")%string eqn:E2; [apply String.eqb_eq in E2; subst; discriminate H|].
    destruct (seg =? "this")%string eqn:E3; [apply String.eqb_eq in E3; subst; discriminate H|].
    destruct (seg =? "that")%string eqn:E4; [apply String.eqb_eq in E4; subst; discriminate H|].
    discriminate B. }
  destruct (seg =? "static")%string eqn:E5.
  { apply String.eqb_eq in E5. subst seg.
    destruct (current_filename self); [discriminate H|]. injection H as <-. constructor. }
  destruct (seg =? "pointer")%string eqn:E6.
  { apply String.eqb_eq in E6. subst seg.
    destruct (index_is i 0) eqn:I0; [discriminate H|].
    destruct (index_is i 1) eqn:I1; [discriminate H|].
    injection H as <-. constructor.
    - intros ->. discriminate I0.
    - intros ->. discriminate I1. }
  destruct (seg =? "temp")%string eqn:E7; [discriminate H|].
  destruct (seg =? "constant")%string eqn:E8; [discriminate H|].
  injection H as <-. constructor; [|exact Hs].
  cbn in B |- *. 
  destruct (seg =? "local")%string; [discriminate B|].
  destruct (seg =? "argument")%string; [discriminate B|].
  destruct (seg =? "this")%string; [discriminate B|].
  destruct (seg =? "that")%string; [discriminate B|].
  now rewrite E5, E6, E7, E8.
Qed.

Lemma translate_arithmetic_error cmd self e :
  snd (translate_arithmetic_vm_code_to_assembly cmd self) = Err e ->
  e = InvalidOperator cmd /\
  Command.mem cmd ["add"; "sub"; "neg"; "eq"; "gt"; "lt"; "and"; "or"; "not"] = false.
Proof.
  unfold translate_arithmetic_vm_code_to_assembly, bind, get, modify, ret, raise.
  cbn [Command.mem existsb].
  destruct (cmd =? "add")%string; [discriminate|].
  destruct (cmd =? "sub")%string; [discriminate|].
  destruct (cmd =? "neg")%string; [discriminate|].
  destruct (cmd =? "eq")%string; [discriminate|].
  destruct (cmd =? "gt")%string; [discriminate|].
  destruct (cmd =? "lt")%string; [discriminate|].
  cbn [orb].
  destruct (cmd =? "and")%string; [discriminate|].
  destruct (cmd =? "or")%string; [discriminate|].
  destruct (cmd =? "not")%string; [discriminate|].
  cbn [snd]. intros [= <-]. split; reflexivity.
Qed.

Ltac split_bind H :=
  apply bind_error in H;
  let a := fresh "a" in
  let s := fresh "self" in
  let E := fresh "E" in
  destruct H as [H|(a & s & E & H)].

Lemma get_ok self a self' : get self = (self', Ok a) -> a = self /\ self' = self.
Proof. unfold get. intros [= <- <-]. split; reflexivity. Qed.

(** X7.  The exceptions of the code writer, method by method: a closed
    output file; an arithmetic command that is none of the nine; a command
    type other than push and pop given to [write_push_pop]; [pop constant];
    [pointer] with an index other than 0 and 1; [static] before any
    [set_filename]; a segment name that is not known; no count given to
    [function] or [call].  [set_filename] raises nothing, and the lookup of
    a base register never fails. *)
Theorem method_errors c self e :
  snd (Job.perform c self) = Err e -> method_error c e.
Proof.
  destruct c as [fp|cmd|ct seg i|l|l|l|f n|f n|]; cbn [Job.perform]; intros H.
  - discriminate H.
  - unfold write_arithmetic in H.
    split_bind H; [discriminate H|].
    split_bind H; [apply when_write_error in H; subst e; constructor|].
    split_bind H.
    + apply translate_arithmetic_error in H as [-> Hm]. now constructor.
    + apply write_error in H. subst e. constructor.
  - unfold write_push_pop in H.
    split_bind H; [discriminate H|].
    split_bind H; [apply when_write_error in H; subst e; constructor|].
    split_bind H; [|apply write_error in H; subst e; constructor].
    destruct (ct =? "C_PUSH")%string eqn:E1.
    { apply String.eqb_eq in E1. subst ct. unfold lift in H. cbn [snd] in H.
      unfold translate_push_vm_code_to_asm, bind_result in H.
      destruct (seg =? "skip")%string eqn:Es; [discriminate H|]. cbn [negb] in H.
      destruct (translate_segment_vm_code a seg i) as [x|e'] eqn:T; [discriminate H|].
      injection H as <-. apply (translate_segment_error _ _ _ _ _ T).
      intros _ ->. discriminate Es. }
    destruct (ct =? "C_POP")%string eqn:E2.
    { apply String.eqb_eq in E2. subst ct. unfold lift in H. cbn [snd] in H.
      unfold translate_pop_vm_code_to_asm, bind_result in H.
      destruct (seg =? "constant")%string eqn:Es.
      - apply String.eqb_eq in Es. subst seg. injection H as <-. constructor.
      - destruct (translate_segment_vm_code a seg i) as [x|e'] eqn:T; [discriminate H|].
        injection H as <-. apply (translate_segment_error _ _ _ _ _ T).
        discriminate. }
    unfold raise in H. cbn [snd] in H. injection H as <-.
    constructor; intros ->; discriminate.
  - unfold write_label in H.
    split_bind H; [discriminate H|].
    split_bind H; [apply when_write_error in H|apply write_error in H]; subst e; constructor.
  - unfold write_goto in H.
    split_bind H; [discriminate H|].
    split_bind H; [apply when_write_error in H|apply write_error in H]; subst e; constructor.
  - unfold write_if in H.
    split_bind H; [discriminate H|].
    split_bind H; [apply when_write_error in H|apply write_error in H]; subst e; constructor.
  - unfold write_function in H.
    split_bind H; [discriminate H|].
    split_bind H; [discriminate H|].
    split_bind H; [apply when_write_error in H; subst e; constructor|].
    split_bind H; [discriminate H|].
    split_bind H; [|apply write_error in H; subst e; constructor].
    destruct n; [discriminate H|]. injection H as <-. constructor.
  - unfold write_call in H.
    split_bind H; [discriminate H|].
    split_bind H; [apply when_write_error in H; subst e; constructor|].
    split_bind H; [discriminate H|].
    split_bind H; [discriminate H|].
    split_bind H; [discriminate H|].
    split_bind H; [discriminate H|].
    split_bind H.
    { destruct n; [discriminate H|]. injection H as <-. constructor. }
    split_bind H; [discriminate H|].
    split_bind H; [discriminate H|].
    apply write_error in H; subst e; constructor.
  - unfold write_return in H.
    split_bind H; [discriminate H|].
    split_bind H; [apply when_write_error in H; subst e; constructor|].
    split_bind H; [discriminate H|].
    split_bind H; [discriminate H|].
    split_bind H; [discriminate H|].
    split_bind H; [discriminate H|].
    apply write_error in H; subst e; constructor.
Qed.

Lemma method_errors_witness :
  method_error (Job.Write_push_pop "C_POP" "constant" (Some 0)) (InvalidSegment "constant").
Proof.
  apply (method_errors (Job.Write_push_pop "C_POP" "constant" (Some 0)) Sample.writer).
  reflexivity.
Defined.

(** ** The dispatch of the driver *)

Lemma command_error_cases s e :
  Command.__init__ s = Err e ->
  exists t,
    e = Exception ("Unidentified command '" ++ t) \/
    e = Exception ("Non-arithmetic command '" ++ t) \/
    e = Exception ("arg2 should not be given when command of type " ++ t) \/
    e = Exception ("arg2 must be an integer, instead '" ++ t) \/
    e = Exception ("Command with index '" ++ t) \/
    e = Exception ("Line with more than 3 commands found: " ++ t).
Proof.
  intros H. unfold Command.__init__ in H.
  destruct (Py.split_space s) as [|c0 rest] eqn:E.
  { destruct (split_space_cons s) as (h & t & E'). congruence. }
  unfold Command.set_command_type, bind_result in H.
  destruct (Command.get c0 Command.COMMAND_TYPE_MAP) as [ct|] eqn:G;
    [|injection H as <-; eexists; left; reflexivity].
  map_cases G.
  all: cbn -[Py.int Py.str_int] in H; try discriminate H.
  all: destruct rest as [|c1 [|c2 rest2]]; try discriminate H.
  all: try (injection H as <-; eexists; right; left; reflexivity).
  all: cbn -[Py.int Py.str_int] in H; unfold Command.set_arg2 in H;
       cbn -[Py.int Py.str_int] in H.
  all: try (injection H as <-; eexists; right; right; left; reflexivity).
  all: destruct (Py.int c2) as [num|] eqn:I;
       [|injection H as <-; eexists; right; right; right; left; reflexivity].
  all: destruct (num <? 0) eqn:Neg;
       [injection H as <-; eexists; right; right; right; right; left; reflexivity|].
  all: destruct rest2; [discriminate H|].
  all: injection H as <-; eexists; right; right; right; right; right; reflexivity.
Qed.

Lemma translate_command_call line c self :
  Command.__init__ line = Ok c ->
  Main.translate_command line self = Job.perform (call_of c) self /\
  (forall cmd, call_of c = Job.Write_arithmetic cmd ->
     Command.mem cmd ["add"; "sub"; "neg"; "eq"; "gt"; "lt"; "and"; "or"; "not"] = true) /\
  (forall ct seg i, call_of c = Job.Write_push_pop ct seg i -> ct = "C_PUSH" \/ ct = "C_POP").
Proof.
  intros H. unfold Main.translate_command, bind, lift. rewrite H.
  unfold Command.__init__ in H.
  destruct (Py.split_space line) as [|c0 rest]; [discriminate|].
  unfold Command.set_command_type, bind_result in H.
  destruct (Command.get c0 Command.COMMAND_TYPE_MAP) as [ct|] eqn:G; [|discriminate].
  map_cases G.
  all: cbn -[Py.int Py.str_int] in H.
  all: try (injection H as <-; split; [reflexivity|]; split;
            [intros ? [= <-]; reflexivity | intros ? ? ? [=]; auto]).
  all: destruct rest as [|c1 [|c2 rest2]]; try discriminate H.
  all: try (injection H as <-; split; [reflexivity|]; split;
            [intros ? [=] | intros ? ? ? [=]; auto]).
  all: cbn -[Py.int Py.str_int] in H; unfold Command.set_arg2 in H;
       cbn -[Py.int Py.str_int] in H; try discriminate H.
  all: destruct (Py.int c2) as [num|] eqn:I; try discriminate H.
  all: destruct (num <? 0) eqn:Neg; try discriminate H.
  all: destruct rest2; try discriminate H.
  all: injection H as <-; split; [reflexivity|]; split;
       [intros ? [=] | intros ? ? ? [=]; auto].
Qed.

(** X8.  The dispatch of the driver.  A line [Command] refuses ends the
    turn with that exception and the code writer untouched; for a command
    that was built the driver calls the method of its type with its
    arguments.  So the guards it never reaches stay silent: the final
    [else] of the dispatch, the unknown arithmetic command, the command type
    that is neither push nor pop, the getters of [Command], the line with no
    word, and the lookup of a base register. *)
Theorem driver_dispatch :
  (forall line e self,
     Command.__init__ line = Err e ->
     Main.translate_command line self = (self, Err e)) /\
  (forall line c self,
     Command.__init__ line = Ok c ->
     Main.translate_command line self = Job.perform (call_of c) self) /\
  (forall line self e,
     snd (Main.translate_command line self) = Err e ->
     (forall ct, e <> Exception ("This project should not contain a '" ++ ct
                                 ++ "' command type (yet).")) /\
     (forall cmd, e <> InvalidOperator cmd) /\
     (forall ct, e <> Exception ("Command type '" ++ ct
                                 ++ "' erroneously triggered a write_push_pop() method.")) /\
     e <> Exception "arg1 should not be called when command is of type C_RETURN." /\
     e <> Exception "arg1 should not be given when command of type C_RETURN is called." /\
     (forall ct, e <> Exception ("arg2 should not be called when command of type "
                                 ++ ct ++ " is called.")) /\
     e <> Exception "Line with 0 commands found." /\
     (forall key, e <> KeyError key)).
Proof.
  split; [|split].
  - intros line e self H. unfold Main.translate_command, bind, lift. now rewrite H.
  - intros line c self H. now apply translate_command_call.
  - intros line self e H.
    destruct (Command.__init__ line) as [c|e'] eqn:C.
    + destruct (translate_command_call line c self C) as (E & Ha & Hp).
      rewrite E in H. apply method_errors in H.
      inversion H as [c'|cmd Hm Hc|ct seg i H1 H2 Hc|i Hc|ct i H1 H2 Hc|ct i Hc
                      |ct seg i H1 H2 Hc|f Hc|f Hc]; subst.
      all: try (symmetry in Hc; apply Ha in Hc; congruence).
      all: try (symmetry in Hc; apply Hp in Hc; destruct Hc; congruence).
      all: unfold InvalidOperator, InvalidSegment, InvalidOperand, UnboundContext,
             UnexpectedSegment; cbn [append].
      all: repeat split; intros; discriminate.
    + unfold Main.translate_command, bind, lift in H. rewrite C in H. cbn [snd] in H.
      injection H as <-.
      destruct (command_error_cases _ _ C) as [t [->|[->|[->|[->|[->| ->]]]]]].
      all: unfold InvalidOperator; cbn [append].
      all: repeat split; intros; discriminate.
Qed.

Lemma command_two_words w ct a :
  In (w, ct) [("push", "C_PUSH"); ("pop", "C_POP"); ("label", "C_LABEL");
              ("goto", "C_GOTO"); ("if-goto", "C_IF");
              ("function", "C_FUNCTION"); ("call", "C_CALL")] ->
  has_char " " a = false ->
  Command.__init__ (w ++ " " ++ a) = Ok (Command.mk ct (Some a) None).
Proof.
  intros Hw Ha. unfold Command.__init__. cbn [In] in Hw.
  repeat (destruct Hw as [Hw|Hw]; [injection Hw as <- <-|]); [..|destruct Hw].
  all: rewrite split_space_two by (reflexivity || assumption); reflexivity.
Qed.

(** X9.  A missing operand is not refused.  [push] or [pop] with a
    segment and no index reaches [write_push_pop] with the index [None]:
    [push constant] then writes [@None], which the assembler reads as a
    variable.  [function] and [call] with a name and no count end in
    [TypeError], but only after the code writer has changed: the current
    function is set, the return counter has advanced, and the comment line
    is in the output. *)
Theorem missing_operand :
  (forall w ct segment self,
     In (w, ct) [("push", "C_PUSH"); ("pop", "C_POP")] ->
     has_char " " segment = false ->
     Main.translate_command (w ++ " " ++ segment) self
     = write_push_pop ct segment None self) /\
  (forall self,
     closed (write_file self) = false ->
     snd (Main.translate_command "push constant" self) = Ok tt /\
     Job.emitted (Main.translate_command "push constant") self
     = (if log_vm_commands self then ["//  push constant None"] else []) +++
       ["@None"; "D=A"; "@SP"; "AM=M+1"; "A=A-1"; "M=D"] /\
     Hack.parse_line "@None" = Some (Hack.Instr (Hack.At (Hack.Sym "None")))) /\
  (forall f self,
     has_char " " f = false -> closed (write_file self) = false ->
     let r := Main.translate_command ("function " ++ f) self in
     snd r = Err TypeError /\
     current_function (fst r) = Some f /\
     Job.output (fst r)
     = Job.output self +++
       (if log_vm_commands self then ["//  function " ++ f ++ " None"] else [])) /\
  (forall f self,
     has_char " " f = false -> closed (write_file self) = false ->
     let r := Main.translate_command ("call " ++ f) self in
     snd r = Err TypeError /\
     return_counter (fst r) = return_counter self + 1 /\
     Job.output (fst r)
     = Job.output self +++
       (if log_vm_commands self then ["//  call " ++ f ++ " None"] else [])).
Proof.
  split; [|split; [|split]].
  - intros w ct segment self Hw Ha.
    assert (C : Command.__init__ (w ++ " " ++ segment)
                = Ok (Command.mk ct (Some segment) None)).
    { apply command_two_words; [|exact Ha]. cbn [In] in Hw |- *.
      destruct Hw as [Hw|[Hw|[]]]; auto. }
    destruct (translate_command_call _ _ self C) as (E & _). rewrite E.
    cbn [In] in Hw. destruct Hw as [Hw|[Hw|[]]]; injection Hw as <- <-; reflexivity.
  - intros self Hc. destruct self as [? ? [ls c] ? ? ? ? log]. cbn in Hc. subst c.
    split; [destruct log; reflexivity|]. split; [|reflexivity].
    apply emitted_eq. destruct log; cbn; rewrite <- ?app_assoc; reflexivity.
  - intros f self Ha Hc r. subst r.
    assert (C : Command.__init__ ("function " ++ f)
                = Ok (Command.mk "C_FUNCTION" (Some f) None)).
    { apply (command_two_words "function" "C_FUNCTION" f); [cbn; auto 10 | exact Ha]. }
    destruct (translate_command_call _ _ self C) as (E & _). rewrite E.
    destruct self as [? ? [ls c] ? ? ? ? log]. cbn in Hc. subst c.
    destruct log; cbn; rewrite ?app_nil_r; auto.
  - intros f self Ha Hc r. subst r.
    assert (C : Command.__init__ ("call " ++ f)
                = Ok (Command.mk "C_CALL" (Some f) None)).
    { apply (command_two_words "call" "C_CALL" f); [cbn; auto 10 | exact Ha]. }
    destruct (translate_command_call _ _ self C) as (E & _). rewrite E.
    destruct self as [? ? [ls c] ? ? ? ? log]. cbn in Hc. subst c.
    destruct log; cbn; rewrite ?app_nil_r; auto.
Qed.

(** ** Units with nothing to translate, and a closed output file *)

Lemma clean_file_blank file :
  (forall l, In l file -> Parser.is_blank (Parser.clean_line l) = true) ->
  Parser.clean_file file = [].
Proof.
  induction file as [|l r IH]; [reflexivity|]. intros H.
  cbn [Parser.clean_file]. rewrite (H l) by now left.
  apply IH. intros x Hx. apply H. now right.
Qed.

Lemma translate_file_blank file filepath self :
  (forall l, In l file -> Parser.is_blank (Parser.clean_line l) = true) ->
  Main.translate_file file filepath self = set_filename filepath self.
Proof.
  intros H. unfold Main.translate_file. rewrite (clean_file_blank file H).
  reflexivity.
Qed.

Lemma translate_units_blank files : forall self,
  (forall filepath file l,
     In (filepath, file) files -> In l file ->
     Parser.is_blank (Parser.clean_line l) = true) ->
  snd (Main.translate_units files self) = Ok tt /\
  write_file (fst (Main.translate_units files self)) = write_file self /\
  arith_jump_counter (fst (Main.translate_units files self)) = arith_jump_counter self /\
  return_counter (fst (Main.translate_units files self)) = return_counter self.
Proof.
  induction files as [|[filepath file] r IH]; intros self H; [repeat split|].
  cbn [Main.translate_units].
  erewrite bind_ok;
    [|rewrite translate_file_blank
        by (intros l Hl; apply (H filepath file l); [now left | exact Hl]);
      reflexivity].
  match goal with
  | |- context [Main.translate_units r ?s] =>
      destruct (IH s) as (I1 & I2 & I3 & I4);
        [intros fp f l Hf Hl; apply (H fp f l); [now right | exact Hl]|];
      rewrite I1, I2, I3, I4
  end.
  repeat split.
Qed.

(** X10.  A job whose units hold nothing but blank lines and comments
    (or no line at all, or no unit) ends well: nothing is written after
    what the constructor wrote, no counter moves, and the file is closed. *)
Theorem blank_units isdir files input_path cw :
  (forall filepath file l,
     In (filepath, file) files -> In l file ->
     Parser.is_blank (Parser.clean_line l) = true) ->
  __init__ isdir input_path true = Ok cw ->
  exists cw',
    Main.translate_files isdir files input_path = (Some cw', Ok tt) /\
    Job.output cw' = Job.output cw /\
    closed (write_file cw') = true /\
    arith_jump_counter cw' = arith_jump_counter cw /\
    return_counter cw' = return_counter cw.
Proof.
  intros H Hinit. unfold Main.translate_files. rewrite Hinit.
  destruct (translate_units_blank files cw H) as (I1 & I2 & I3 & I4).
  unfold bind, close, modify.
  destruct (Main.translate_units files cw) as [cw1 r]. cbn [fst snd] in *. subst r.
  eexists. split; [reflexivity|]. unfold Job.output. cbn. now rewrite I2, I3, I4.
Qed.

Lemma blank_units_witness :
  exists cw',
    Main.translate_files (fun _ => false)
      [("A.vm", ["// nothing here" ++ Sample.nl; "   " ++ Sample.nl]); ("B.vm", [])]
      "A.vm" = (Some cw', Ok tt) /\
    Job.output cw' = [] /\ closed (write_file cw') = true.
Proof.
  eassert (E : __init__ (fun _ => false) "A.vm" true = Ok _) by reflexivity.
  assert (B : forall filepath file l,
             In (filepath, file)
                [("A.vm", ["// nothing here" ++ Sample.nl; "   " ++ Sample.nl]);
                 ("B.vm", [])] ->
             In l file -> Parser.is_blank (Parser.clean_line l) = true).
  { intros fp f l [[= <- <-]|[[= <- <-]|[]]] Hl; [|destruct Hl].
    destruct Hl as [<-|[<-|[]]]; reflexivity. }
  destruct (blank_units _ _ _ _ B E) as (cw' & J & O & C & _).
  exists cw'. split; [exact J|]. split; [exact O | exact C].
Defined.

Ltac closed_tac :=
  cbn;
  repeat match goal with
         | |- context [match ?x with _ => _ end] => destruct x eqn:?; cbn
         | |- context [if ?x then _ else _] => destruct x eqn:?; cbn
         end.

(** X11.  Once the output file is closed nothing is written any more:
    whatever method is called, the output stays as it is and the file stays
    closed; every method but [set_filename] ends in an exception, which is
    the one of a write to a closed file when the commands are logged. *)
Theorem closed_writer c self :
  closed (write_file self) = true ->
  Job.output (fst (Job.perform c self)) = Job.output self /\
  closed (write_file (fst (Job.perform c self))) = true /\
  ((forall filepath, c <> Job.Set_filename filepath) ->
   (exists e, snd (Job.perform c self) = Err e) /\
   (log_vm_commands self = true ->
    snd (Job.perform c self) = Err (ValueError "I/O operation on closed file."))).
Proof.
  intros H. destruct self as [? ? [ls cl] ? ? ? ? log]. cbn in H. subst cl.
  destruct c as [fp|cmd|ct seg i|l|l|l|f n|f n|].
  - split; [reflexivity|]. split; [reflexivity|].
    intros N. exfalso. now apply (N fp).
  - unfold Job.perform, write_arithmetic, translate_arithmetic_vm_code_to_assembly.
    destruct log; closed_tac; repeat split; intros; eauto; discriminate.
  - unfold Job.perform, write_push_pop.
    destruct log; closed_tac; repeat split; intros; eauto; discriminate.
  - destruct log; closed_tac; repeat split; intros; eauto; discriminate.
  - destruct log; closed_tac; repeat split; intros; eauto; discriminate.
  - destruct log; closed_tac; repeat split; intros; eauto; discriminate.
  - destruct log; closed_tac; repeat split; intros; eauto; discriminate.
  - destruct log; closed_tac; repeat split; intros; eauto; discriminate.
  - destruct log; closed_tac; repeat split; intros; eauto; discriminate.
Qed.

Lemma closed_writer_witness :
  snd (write_return (fst (close Sample.writer)))
  = Err (ValueError "I/O operation on closed file.").
Proof.
  destruct (closed_writer Job.Write_return (fst (close Sample.writer)) eq_refl)
    as (_ & _ & H).
  destruct (H ltac:(discriminate)) as [_ H']. exact (H' eq_refl).
Defined.

(** ** Arithmetic without branching *)

Lemma emitted_write_binary self command :
  closed (write_file self) = false ->
  In command ["add"; "sub"; "and"; "or"] ->
  Job.emitted (write_arithmetic command) self =
  (if log_vm_commands self then ["//  " ++ command] else []) +++
  ["@SP"; "AM=M-1"; "D=M"; "@SP"; "AM=M-1";
   (if (command =? "add")%string then "M=M+D"
    else if (command =? "sub")%string then "M=M-D"
    else if (command =? "and")%string then "M=D&M" else "M=D|M");
   "@SP"; "M=M+1"].
Proof.
  intros H Hc. apply emitted_eq. open_writer self H.
  destruct Hc as [<-|[<-|[<-|[<-|[]]]]]; destruct log; cbn;
    rewrite <- ?app_assoc; reflexivity.
Qed.

Lemma emitted_write_unary self command :
  closed (write_file self) = false ->
  In command ["neg"; "not"] ->
  Job.emitted (write_arithmetic command) self =
  (if log_vm_commands self then ["//  " ++ command] else []) +++
  ["@SP"; "AM=M-1";
   (if (command =? "neg")%string then "M=-M" else "M=!M");
   "@SP"; "M=M+1"].
Proof.
  intros H Hc. apply emitted_eq. open_writer self H.
  destruct Hc as [<-|[<-|[]]]; destruct log; cbn;
    rewrite <- ?app_assoc; reflexivity.
Qed.

Lemma instructions_comment_head c text :
  Hack.instructions (("//  " ++ c) :: text) = Hack.instructions text.
Proof. apply instructions_skip. reflexivity. Qed.

Lemma instructions_logged (log : bool) c text :
  Hack.instructions ((if log then ["//  " ++ c] else []) +++ text)
  = Hack.instructions text.
Proof. destruct log; [apply instructions_comment_head | reflexivity]. Qed.

Lemma binary_run sym rom p m command code S :
  sym "SP" = 0 ->
  In command ["add"; "sub"; "and"; "or"] ->
  Hack.instructions
    ["@SP"; "AM=M-1"; "D=M"; "@SP"; "AM=M-1";
     (if (command =? "add")%string then "M=M+D"
      else if (command =? "sub")%string then "M=M-D"
      else if (command =? "and")%string then "M=D&M" else "M=D|M");
     "@SP"; "M=M+1"] = Some code ->
  Hack.loaded rom p code -> Hack.PC m = p ->
  Hack.RAM m 0 = S -> 2 < S <= 32768 ->
  Hack.after 8 sym rom m (fun m' =>
    Hack.PC m' = p + 8 /\
    Hack.RAM m' 0 = S - 1 /\
    Hack.RAM m' (S - 2) = binary_result command (Hack.RAM m (S - 2)) (Hack.RAM m (S - 1)) /\
    forall a, a <> 0 -> a <> S - 2 -> Hack.RAM m' a = Hack.RAM m a).
Proof.
  intros Hsp Hc Hcode Hl Hpc HS BS.
  destruct Hc as [<-|[<-|[<-|[<-|[]]]]]; cbn [String.eqb Ascii.eqb Bool.eqb] in Hcode.
  all: match type of Hcode with
       | Hack.instructions ?body = _ =>
           eassert (Hb : Hack.instructions body = Some _) by asm_tac
       end.
  all: rewrite Hb in Hcode; injection Hcode as <-; clear Hb.
  all: destruct (steps_block sym rom _ p m Hl eq_refl Hpc) as [Hs Hp].
  all: eexists; split; [exact Hs|].
  all: split; [exact Hp|].
  all: destruct m as [a0 d0 pc0 ram]; cbn in HS.
  all: run_block; rewrite ?Hsp; word_simpl; rewrite ?HS; word_simpl.
  all: replace (S - 1 - 1) with (S - 2) by lia; word_simpl.
  all: split; [lia|]; split; [unfold binary_result; cbn [String.eqb Ascii.eqb Bool.eqb]|].
  all: try (intros a Ha0 Ha2; unfold Hack.upd;
            destruct (a =? 0) eqn:E0; [apply Z.eqb_eq in E0; lia|];
            destruct (a =? S - 2) eqn:E2; [apply Z.eqb_eq in E2; lia|]; reflexivity).
  all: try reflexivity.
  all: try (f_equal; lia).
  - now rewrite Z.land_comm.
  - now rewrite Z.lor_comm.
Qed.

Lemma unary_run sym rom p m command code S :
  sym "SP" = 0 ->
  In command ["neg"; "not"] ->
  Hack.instructions
    ["@SP"; "AM=M-1";
     (if (command =? "neg")%string then "M=-M" else "M=!M");
     "@SP"; "M=M+1"] = Some code ->
  Hack.loaded rom p code -> Hack.PC m = p ->
  Hack.RAM m 0 = S -> 1 < S <= 32768 ->
  Hack.after 5 sym rom m (fun m' =>
    Hack.PC m' = p + 5 /\
    Hack.RAM m' 0 = S /\
    Hack.RAM m' (S - 1) = unary_result command (Hack.RAM m (S - 1)) /\
    forall a, a <> 0 -> a <> S - 1 -> Hack.RAM m' a = Hack.RAM m a).
Proof.
  intros Hsp Hc Hcode Hl Hpc HS BS.
  destruct Hc as [<-|[<-|[]]]; cbn [String.eqb Ascii.eqb Bool.eqb] in Hcode.
  all: match type of Hcode with
       | Hack.instructions ?body = _ =>
           eassert (Hb : Hack.instructions body = Some _) by asm_tac
       end.
  all: rewrite Hb in Hcode; injection Hcode as <-; clear Hb.
  all: destruct (steps_block sym rom _ p m Hl eq_refl Hpc) as [Hs Hp].
  all: eexists; split; [exact Hs|].
  all: split; [exact Hp|].
  all: destruct m as [a0 d0 pc0 ram]; cbn in HS.
  all: run_block; rewrite ?Hsp; word_simpl; rewrite ?HS; word_simpl.
  all: split; [lia|]; split; [reflexivity|].
  all: intros a Ha0 Ha2; unfold Hack.upd;
       destruct (a =? 0) eqn:E0; [apply Z.eqb_eq in E0; lia|];
       destruct (a =? S - 1) eqn:E2; [apply Z.eqb_eq in E2; lia|]; reflexivity.
Qed.

Lemma arith_counter_plain self command :
  In command ["add"; "sub"; "and"; "or"; "neg"; "not"] ->
  arith_jump_counter (fst (write_arithmetic command self)) = arith_jump_counter self.
Proof.
  intros Hc. destruct self as [? ? [ls c] ? ? ? ? log].
  destruct Hc as [<-|[<-|[<-|[<-|[<-|[<-|[]]]]]]]; destruct log, c; reflexivity.
Qed.

(** X12.  [add], [sub], [and] and [or]: eight instructions that replace
    the two words on top of the stack by one, the sum, the difference
    (second from top minus top), the bitwise and, the bitwise or, on 16
    bits; the stack pointer goes down by one, no other cell changes, and the
    comparison counter stays. *)
Theorem binary_arithmetic labels vars rom p m self command code S :
  let sym := Hack.symbol_value labels vars in
  In command ["add"; "sub"; "and"; "or"] ->
  closed (write_file self) = false ->
  Hack.instructions (Job.emitted (write_arithmetic command) self) = Some code ->
  Hack.loaded rom p code -> Hack.PC m = p ->
  Hack.RAM m 0 = S -> 2 < S <= 32768 ->
  arith_jump_counter (fst (write_arithmetic command self)) = arith_jump_counter self /\
  Hack.after 8 sym rom m (fun m' =>
    Hack.PC m' = p + 8 /\
    Hack.RAM m' 0 = S - 1 /\
    Hack.RAM m' (S - 2) = binary_result command (Hack.RAM m (S - 2)) (Hack.RAM m (S - 1)) /\
    forall a, a <> 0 -> a <> S - 2 -> Hack.RAM m' a = Hack.RAM m a).
Proof.
  intros sym Hc Hcl Hcode Hl Hpc HS BS.
  split.
  - apply arith_counter_plain. cbn [In] in Hc |- *. intuition.
  - rewrite (emitted_write_binary self command Hcl Hc), instructions_logged in Hcode.
    exact (binary_run sym rom p m command code S (symbol_SP _ _) Hc Hcode Hl Hpc HS BS).
Qed.

Lemma binary_arithmetic_witness :
  let text := Job.emitted (write_arithmetic "sub") Sample.writer in
  Hack.after 8 (Sample.symbols_of text) (Sample.code_of text) Sample.calling
    (fun m' => Hack.RAM m' 0 = 262 /\ Hack.RAM m' 261 = 65535).
Proof.
  intros text.
  destruct (binary_arithmetic (Hack.label_table text)
              (Hack.variables (Hack.label_table text) (Sample.code_of text))
              (Sample.code_of text) 0 Sample.calling Sample.writer "sub"
              (Sample.code_of text) 263) as [_ (m' & Hs & _ & H0 & H1 & _)];
    try reflexivity; try apply loaded_self; try lia.
  { cbn; auto. }
  exists m'. split; [exact Hs|]. split; [exact H0 | exact H1].
Defined.

(** X13.  [neg] and [not]: five instructions that replace the word on top
    of the stack by its opposite, or by its bitwise complement, on 16 bits;
    the stack pointer and every other cell are as before. *)
Theorem unary_arithmetic labels vars rom p m self command code S :
  let sym := Hack.symbol_value labels vars in
  In command ["neg"; "not"] ->
  closed (write_file self) = false ->
  Hack.instructions (Job.emitted (write_arithmetic command) self) = Some code ->
  Hack.loaded rom p code -> Hack.PC m = p ->
  Hack.RAM m 0 = S -> 1 < S <= 32768 ->
  arith_jump_counter (fst (write_arithmetic command self)) = arith_jump_counter self /\
  Hack.after 5 sym rom m (fun m' =>
    Hack.PC m' = p + 5 /\
    Hack.RAM m' 0 = S /\
    Hack.RAM m' (S - 1) = unary_result command (Hack.RAM m (S - 1)) /\
    forall a, a <> 0 -> a <> S - 1 -> Hack.RAM m' a = Hack.RAM m a).
Proof.
  intros sym Hc Hcl Hcode Hl Hpc HS BS.
  split.
  - apply arith_counter_plain. cbn [In] in Hc |- *. intuition.
  - rewrite (emitted_write_unary self command Hcl Hc), instructions_logged in Hcode.
    exact (unary_run sym rom p m command code S (symbol_SP _ _) Hc Hcode Hl Hpc HS BS).
Qed.

Lemma unary_arithmetic_witness :
  let text := Job.emitted (write_arithmetic "neg") Sample.writer in
  Hack.after 5 (Sample.symbols_of text) (Sample.code_of text) Sample.calling
    (fun m' => Hack.RAM m' 0 = 263 /\ Hack.RAM m' 262 = 65532).
Proof.
  intros text.
  destruct (unary_arithmetic (Hack.label_table text)
              (Hack.variables (Hack.label_table text) (Sample.code_of text))
              (Sample.code_of text) 0 Sample.calling Sample.writer "neg"
              (Sample.code_of text) 263) as [_ (m' & Hs & _ & H0 & H1 & _)];
    try reflexivity; try apply loaded_self; try lia.
  { cbn; auto. }
  exists m'. split; [exact Hs|]. split; [exact H0 | exact H1].
Defined.

(** ** Memory segments *)

Lemma instructions_app_inv t1 : forall t2 code,
  Hack.instructions (t1 +++ t2) = Some code ->
  exists c1 c2,
    Hack.instructions t1 = Some c1 /\ Hack.instructions t2 = Some c2 /\
    code = c1 +++ c2.
Proof.
  induction t1 as [|l r IH]; intros t2 code H.
  - exists [], code. auto.
  - cbn [app Hack.instructions] in H |- *.
    destruct (Hack.parse_line l) as [[| |i]|]; try discriminate H.
    + apply IH in H as (c1 & c2 & H1 & H2 & ->). eauto.
    + apply IH in H as (c1 & c2 & H1 & H2 & ->). eauto.
    + destruct (Hack.instructions (r +++ t2)) as [c|] eqn:E; [|discriminate H].
      injection H as <-. apply IH in E as (c1 & c2 & H1 & H2 & ->).
      exists (i :: c1), c2. rewrite H1. auto.
Qed.

Lemma loaded_app_r rom p c1 c2 :
  Hack.loaded rom p (c1 +++ c2) ->
  Hack.loaded rom (p + Z.of_nat (List.length c1)) c2.
Proof.
  intros H. pose proof (loaded_skipn rom p _ (List.length c1) H) as H'.
  now rewrite skipn_length_app in H'.
Qed.

(** One block after the other. *)
Lemma after_seq sym rom m n1 n2 (P1 P2 : Hack.machine -> Prop) :
  Hack.after n1 sym rom m P1 ->
  (forall m1, P1 m1 -> Hack.after n2 sym rom m1 P2) ->
  Hack.after (n1 + n2) sym rom m P2.
Proof.
  intros (m1 & Hs & H1) H2. destruct (H2 m1 H1) as (m2 & Hs2 & Hp).
  exists m2. split; [|exact Hp]. now rewrite steps_add, Hs.
Qed.

Lemma uint_of_string_dot x y : NilZero.uint_of_string (x ++ "." ++ y) = None.
Proof.
  change (x ++ "." ++ y) with (x ++ String "." y).
  assert (H : forall s, NilEmpty.uint_of_string (s ++ String "." y) = None).
  { induction s as [|c r IH]; cbn [append NilEmpty.uint_of_string].
    - destruct (NilEmpty.uint_of_string y); reflexivity.
    - rewrite IH. reflexivity. }
  unfold NilZero.uint_of_string. specialize (H x).
  destruct x; cbn [append] in *; exact H.
Qed.

Lemma parse_operand_dot x y :
  Hack.parse_operand (x ++ "." ++ y) = Some (Hack.Sym (x ++ "." ++ y)).
Proof. unfold Hack.parse_operand. now rewrite uint_of_string_dot. Qed.

Lemma mem_base_inv segment :
  Command.mem segment ["local"; "argument"; "this"; "that"] = true ->
  exists reg, get_ram_code segment = Ok reg.
Proof.
  intros H. apply get_ram_code_base. cbn in H |- *.
  destruct (segment =? "local")%string eqn:E1; [apply String.eqb_eq in E1; auto|].
  destruct (segment =? "argument")%string eqn:E2; [apply String.eqb_eq in E2; auto|].
  destruct (segment =? "this")%string eqn:E3; [apply String.eqb_eq in E3; auto|].
  destruct (segment =? "that")%string eqn:E4; [apply String.eqb_eq in E4; auto 6|].
  discriminate H.
Qed.

Lemma ok_inj {A} (a b : A) : @Ok A a = Ok b -> a = b.
Proof. congruence. Qed.

(** The address of a segment cell: what [translate_segment_vm_code] emits
    leaves it in [A] and changes no cell. *)
Lemma segment_address_run labels vars rom p m self segment index text code a :
  let sym := Hack.symbol_value labels vars in
  translate_segment_vm_code self segment (Some index) = Ok text ->
  segment_cell sym self (Hack.RAM m) segment index = Some a ->
  0 <= index < 32768 -> 0 <= a < 32768 ->
  Hack.instructions text = Some code ->
  Hack.loaded rom p code -> Hack.PC m = p ->
  Hack.after (List.length code) sym rom m (fun m' =>
    Hack.A m' = a /\ Hack.RAM m' = Hack.RAM m /\
    Hack.PC m' = p + Z.of_nat (List.length code)).
Proof.
  intros sym Ht Hc Hi Ha Hcode Hl Hpc.
  unfold segment_cell in Hc. unfold translate_segment_vm_code in Ht.
  destruct (Command.mem segment ["local"; "argument"; "this"; "that"]) eqn:B.
  { destruct (mem_base_inv _ B) as [reg Hreg]. rewrite Hreg in Hc, Ht.
    injection Hc as <-. cbn [bind_result index_is] in Ht. injection Ht as <-.
    destruct (symbol_of_ram_code labels vars segment reg Hreg) as [Br Hp].
    fold sym in Br.
    destruct (base_address_run sym rom p m reg (sym reg) index code eq_refl
                ltac:(lia) Hp Hi Hcode Hl Hpc) as [Hlen Hrun].
    destruct Hrun as (m' & Hs & HA & HR & HP).
    exists m'. split; [exact Hs|]. split; [|split; [exact HR | exact HP]].
    rewrite HA. destruct (index =? 0) eqn:E.
    - apply Z.eqb_eq in E. lia.
    - apply wrap_small. lia. }
  destruct (segment =? "static")%string.
  { destruct (current_filename self) as [name|]; [|discriminate Hc].
    cbn [option_map Py.fmt_int] in Hc, Ht. injection Hc as Hc. injection Ht as <-.
    change (Hack.instructions [("@" ++ (name ++ "." ++ Py.str_int index))] = Some code)
      in Hcode.
    rewrite (instructions_at _ _ _ _ (parse_operand_dot _ _) instructions_nil) in Hcode.
    injection Hcode as <-.
    destruct (steps_block sym rom _ p m Hl eq_refl Hpc) as [Hs Hp].
    eexists. split; [exact Hs|]. split; [|split; [|exact Hp]].
    - destruct m. cbn. exact Hc.
    - destruct m. reflexivity. }
  destruct (segment =? "pointer")%string.
  { cbn [index_is] in Ht.
    destruct (index =? 0); [|destruct (index =? 1); [|discriminate Hc]].
    all: injection Hc as Hc; injection Ht as <-.
    all: injection Hcode as <-.
    all: destruct (steps_block sym rom _ p m Hl eq_refl Hpc) as [Hs Hp].
    all: eexists; split; [exact Hs|]; split; [|split; [|exact Hp]].
    all: destruct m; cbn; try reflexivity; exact Hc. }
  destruct (segment =? "temp")%string; [|discriminate Hc].
  apply some_eq in Hc. cbn [Py.fmt_int] in Ht. apply ok_inj in Ht. subst text.
  match type of Hcode with
  | Hack.instructions ?body = _ =>
      eassert (Hb : Hack.instructions body = Some _) by asm_tac
  end.
  rewrite Hb in Hcode; injection Hcode as <-; clear Hb.
  destruct (steps_block sym rom _ p m Hl eq_refl Hpc) as [Hs Hp].
  eexists; split; [exact Hs|]; split; [|split; [|exact Hp]].
  - destruct m. run_block. exact Hc.
  - destruct m. reflexivity.
Qed.

Lemma segment_cell_translate sym self ram segment index a :
  segment_cell sym self ram segment index = Some a ->
  segment <> "constant" /\ segment <> "skip" /\
  exists text, translate_segment_vm_code self segment (Some index) = Ok text.
Proof.
  unfold segment_cell, translate_segment_vm_code. intros H.
  destruct (Command.mem segment ["local"; "argument"; "this"; "that"]) eqn:B.
  { destruct (mem_base_inv _ B) as [reg Hreg]. rewrite Hreg.
    split; [intros ->; discriminate B|]. split; [intros ->; discriminate B|].
    cbn [bind_result]. eauto. }
  destruct (segment =? "static")%string eqn:E1.
  { apply String.eqb_eq in E1. subst segment.
    destruct (current_filename self); [|discriminate H].
    split; [discriminate|]. split; [discriminate|]. eauto. }
  destruct (segment =? "pointer")%string eqn:E2.
  { apply String.eqb_eq in E2. subst segment. cbn [index_is].
    split; [discriminate|]. split; [discriminate|].
    destruct (index =? 0); [eauto|]. destruct (index =? 1); [eauto|discriminate H]. }
  destruct (segment =? "temp")%string eqn:E3; [|discriminate H].
  apply String.eqb_eq in E3. subst segment.
  split; [discriminate|]. split; [discriminate|]. eauto.
Qed.

Lemma written_app l x r : written (l +++ x :: r) = l +++ x :: r.
Proof. destruct l; reflexivity. Qed.

Lemma emitted_write_push self segment index text :
  closed (write_file self) = false ->
  segment <> "constant" -> segment <> "skip" ->
  translate_segment_vm_code self segment (Some index) = Ok text ->
  Job.emitted (write_push_pop "C_PUSH" segment (Some index)) self =
  (if log_vm_commands self
   then ["//  " ++ "push" ++ " " ++ segment ++ " " ++ Py.str_int index] else []) +++
  text +++ ["D=M"; "@SP"; "AM=M+1"; "A=A-1"; "M=D"].
Proof.
  intros H Hc Hs Ht. apply emitted_eq.
  unfold write_push_pop, bind, get, when, lift, translate_push_vm_code_to_asm.
  cbn [String.eqb Ascii.eqb Bool.eqb]. rewrite Ht.
  apply String.eqb_neq in Hc, Hs. rewrite Hc, Hs. cbn [negb bind_result].
  open_writer self H.
  destruct log; cbn -[written]; rewrite ?written_app, <- ?app_assoc; reflexivity.
Qed.

Lemma emitted_write_pop self segment index text :
  closed (write_file self) = false ->
  segment <> "constant" ->
  translate_segment_vm_code self segment (Some index) = Ok text ->
  Job.emitted (write_push_pop "C_POP" segment (Some index)) self =
  (if log_vm_commands self
   then ["//  " ++ "pop" ++ " " ++ segment ++ " " ++ Py.str_int index] else []) +++
  text +++ ["D=A"; "@SP"; "AM=M-1"; "D=D+M"; "A=D-M"; "D=D-A"; "M=D"].
Proof.
  intros H Hc Ht. apply emitted_eq.
  unfold write_push_pop, bind, get, when, lift, translate_pop_vm_code_to_asm.
  cbn [String.eqb Ascii.eqb Bool.eqb]. rewrite Ht.
  apply String.eqb_neq in Hc. rewrite Hc. cbn [negb bind_result].
  open_writer self H.
  destruct log; cbn -[written]; rewrite ?written_app, <- ?app_assoc; reflexivity.
Qed.

(** The end of a [push]: the word of the cell [A] points to goes on the
    stack. *)
Lemma push_tail_run sym rom q m1 code a S :
  sym "SP" = 0 ->
  Hack.instructions ["D=M"; "@SP"; "AM=M+1"; "A=A-1"; "M=D"] = Some code ->
  Hack.loaded rom q code -> Hack.PC m1 = q ->
  Hack.A m1 = a -> 0 <= a < 32768 ->
  Hack.RAM m1 0 = S -> 0 < S < 32767 ->
  Hack.after 5 sym rom m1 (fun m' =>
    Hack.PC m' = q + 5 /\
    Hack.RAM m' S = Hack.RAM m1 a /\
    Hack.RAM m' 0 = S + 1 /\
    forall x, x <> 0 -> x <> S -> Hack.RAM m' x = Hack.RAM m1 x).
Proof.
  intros Hsp Hcode Hl Hpc HA Ba HS BS.
  injection Hcode as <-.
  destruct (steps_block sym rom _ q m1 Hl eq_refl Hpc) as [Hs Hp].
  eexists. split; [exact Hs|]. split; [exact Hp|].
  destruct m1 as [a0 d0 pc0 ram]. cbn in HS, HA. subst a0.
  run_block; rewrite ?Hsp; word_simpl; rewrite ?HS; word_simpl.
  norm_inc; word_simpl.
  split; [reflexivity|]. split; [reflexivity|].
  intros x Hx0 HxS. unfold Hack.upd.
  destruct (x =? S) eqn:E1; [apply Z.eqb_eq in E1; lia|].
  destruct (x =? 0) eqn:E0; [apply Z.eqb_eq in E0; lia|]. reflexivity.
Qed.

Lemma wrap_add_sub a v :
  0 <= a < 65536 -> Hack.wrap (Hack.wrap (a + v) - v) = a.
Proof.
  intros H. unfold Hack.wrap. rewrite Zminus_mod_idemp_l.
  replace (a + v - v) with a by lia. now apply Z.mod_small.
Qed.

Lemma wrap_add_sub_l a v :
  0 <= v < 65536 -> Hack.wrap (Hack.wrap (a + v) - a) = v.
Proof.
  intros H. unfold Hack.wrap. rewrite Zminus_mod_idemp_l.
  replace (a + v - a) with v by lia. now apply Z.mod_small.
Qed.

(** The end of a [pop]: the word on top of the stack goes to the cell [A]
    points to; the address is kept in [D] under the sum with that word,
    there being no third register. *)
Lemma pop_tail_run sym rom q m1 code a S :
  sym "SP" = 0 ->
  Hack.instructions ["D=A"; "@SP"; "AM=M-1"; "D=D+M"; "A=D-M"; "D=D-A"; "M=D"]
    = Some code ->
  Hack.loaded rom q code -> Hack.PC m1 = q ->
  Hack.A m1 = a -> 0 <= a < 32768 ->
  Hack.RAM m1 0 = S -> 1 < S <= 32768 ->
  0 <= Hack.RAM m1 (S - 1) < 65536 ->
  Hack.after 7 sym rom m1 (fun m' =>
    Hack.PC m' = q + 7 /\
    Hack.RAM m' a = Hack.RAM m1 (S - 1) /\
    (a <> 0 -> Hack.RAM m' 0 = S - 1) /\
    forall x, x <> 0 -> x <> a -> Hack.RAM m' x = Hack.RAM m1 x).
Proof.
  intros Hsp Hcode Hl Hpc HA Ba HS BS Bv.
  injection Hcode as <-.
  destruct (steps_block sym rom _ q m1 Hl eq_refl Hpc) as [Hs Hp].
  eexists. split; [exact Hs|]. split; [exact Hp|].
  destruct m1 as [a0 d0 pc0 ram]. cbn in HS, HA, Bv. subst a0.
  run_block; rewrite ?Hsp; word_simpl; rewrite ?HS; word_simpl.
  rewrite wrap_add_sub by lia. rewrite wrap_add_sub_l by lia.
  word_simpl.
  split; [reflexivity|]. split.
  - intros Ha0. now rewrite upd_other, upd_same by lia.
  - intros x Hx0 Hxa. now rewrite !upd_other by lia.
Qed.

(** X14.  [push segment index], for the seven segments that stand for
    RAM cells (the four with a base register, [static], [pointer],
    [temp]): the word of the cell the segment and the index stand for goes
    on top of the stack, the stack pointer goes up by one, and no other cell
    changes.  [temp] is not bounded: the cell is [5 + index] whatever the
    index. *)
Theorem push_segment labels vars rom p m self segment index code a S :
  let sym := Hack.symbol_value labels vars in
  closed (write_file self) = false ->
  segment_cell sym self (Hack.RAM m) segment index = Some a ->
  0 <= index < 32768 -> 0 <= a < 32768 ->
  Hack.instructions
    (Job.emitted (write_push_pop "C_PUSH" segment (Some index)) self) = Some code ->
  Hack.loaded rom p code -> Hack.PC m = p ->
  Hack.RAM m 0 = S -> 0 < S < 32767 ->
  Hack.after (List.length code) sym rom m (fun m' =>
    Hack.PC m' = p + Z.of_nat (List.length code) /\
    Hack.RAM m' S = Hack.RAM m a /\
    Hack.RAM m' 0 = S + 1 /\
    forall x, x <> 0 -> x <> S -> Hack.RAM m' x = Hack.RAM m x).
Proof.
  intros sym Hcl Hcell Hi Ha Hcode Hl Hpc HS BS.
  destruct (segment_cell_translate _ _ _ _ _ _ Hcell) as (Nc & Ns & text & Ht).
  rewrite (emitted_write_push self segment index text Hcl Nc Ns Ht),
    instructions_logged in Hcode.
  apply instructions_app_inv in Hcode as (c1 & c2 & H1 & H2 & ->).
  pose proof (loaded_app_l _ _ _ _ Hl) as Hl1.
  pose proof (loaded_app_r _ _ _ _ Hl) as Hl2.
  pose proof (segment_address_run labels vars rom p m self segment index text c1 a
                Ht Hcell Hi Ha H1 Hl1 Hpc) as Hrun1.
  assert (Hlen : List.length c2 = 5%nat) by (injection H2 as <-; reflexivity).
  rewrite length_app, Hlen.
  eapply after_seq; [exact Hrun1|].
  intros m1 (HA & HR & HP). cbn beta.
  destruct (push_tail_run sym rom _ m1 c2 a S (symbol_SP _ _) H2 Hl2 HP HA Ha)
    as (m' & Hs & Q1 & Q2 & Q3 & Q4); [now rewrite HR | exact BS |].
  exists m'. split; [exact Hs|]. rewrite HR in *.
  split; [rewrite Q1; lia|]. auto.
Qed.

Lemma push_segment_witness :
  let text := Job.emitted (write_push_pop "C_PUSH" "temp" (Some 9)) Sample.writer in
  Hack.after 9 (Sample.symbols_of text) (Sample.code_of text)
    (Hack.mk 0 0 0 (Sample.ram_of [(0, 256); (14, 77)]))
    (fun m' => Hack.RAM m' 256 = 77 /\ Hack.RAM m' 0 = 257).
Proof.
  intros text.
  destruct (push_segment (Hack.label_table text)
              (Hack.variables (Hack.label_table text) (Sample.code_of text))
              (Sample.code_of text) 0
              (Hack.mk 0 0 0 (Sample.ram_of [(0, 256); (14, 77)]))
              Sample.writer "temp" 9 (Sample.code_of text) 14 256)
    as (m' & Hs & _ & H1 & H0 & _);
    try reflexivity; try apply loaded_self; try lia.
  exists m'. split; [exact Hs|]. split; [exact H1 | exact H0].
Defined.

(** X15.  [pop segment index], for the same seven segments: the word on
    top of the stack goes to the cell the segment and the index stand for,
    the stack pointer goes down by one, and no other cell changes.  The
    address is carried through the sequence added to the popped word, and
    recovered by subtraction, which wraps around without harm. *)
Theorem pop_segment labels vars rom p m self segment index code a S :
  let sym := Hack.symbol_value labels vars in
  closed (write_file self) = false ->
  segment_cell sym self (Hack.RAM m) segment index = Some a ->
  0 <= index < 32768 -> 0 <= a < 32768 ->
  Hack.instructions
    (Job.emitted (write_push_pop "C_POP" segment (Some index)) self) = Some code ->
  Hack.loaded rom p code -> Hack.PC m = p ->
  Hack.RAM m 0 = S -> 1 < S <= 32768 ->
  0 <= Hack.RAM m (S - 1) < 65536 ->
  Hack.after (List.length code) sym rom m (fun m' =>
    Hack.PC m' = p + Z.of_nat (List.length code) /\
    Hack.RAM m' a = Hack.RAM m (S - 1) /\
    (a <> 0 -> Hack.RAM m' 0 = S - 1) /\
    forall x, x <> 0 -> x <> a -> Hack.RAM m' x = Hack.RAM m x).
Proof.
  intros sym Hcl Hcell Hi Ha Hcode Hl Hpc HS BS Bv.
  destruct (segment_cell_translate _ _ _ _ _ _ Hcell) as (Nc & Ns & text & Ht).
  rewrite (emitted_write_pop self segment index text Hcl Nc Ht),
    instructions_logged in Hcode.
  apply instructions_app_inv in Hcode as (c1 & c2 & H1 & H2 & ->).
  pose proof (loaded_app_l _ _ _ _ Hl) as Hl1.
  pose proof (loaded_app_r _ _ _ _ Hl) as Hl2.
  pose proof (segment_address_run labels vars rom p m self segment index text c1 a
                Ht Hcell Hi Ha H1 Hl1 Hpc) as Hrun1.
  assert (Hlen : List.length c2 = 7%nat) by (injection H2 as <-; reflexivity).
  rewrite length_app, Hlen.
  eapply after_seq; [exact Hrun1|].
  intros m1 (HA & HR & HP). cbn beta.
  destruct (pop_tail_run sym rom _ m1 c2 a S (symbol_SP _ _) H2 Hl2 HP HA Ha)
    as (m' & Hs & Q1 & Q2 & Q3 & Q4); [now rewrite HR | exact BS | now rewrite HR |].
  exists m'. split; [exact Hs|]. rewrite HR in *.
  split; [rewrite Q1; lia|]. auto.
Qed.

Lemma pop_segment_witness :
  let text := Job.emitted (write_push_pop "C_POP" "local" (Some 2)) Sample.writer in
  Hack.after 11 (Sample.symbols_of text) (Sample.code_of text) Sample.calling
    (fun m' => Hack.RAM m' 258 = 4 /\ Hack.RAM m' 0 = 262).
Proof.
  intros text.
  destruct (pop_segment (Hack.label_table text)
              (Hack.variables (Hack.label_table text) (Sample.code_of text))
              (Sample.code_of text) 0 Sample.calling
              Sample.writer "local" 2 (Sample.code_of text) 258 263)
    as (m' & Hs & _ & H1 & H0 & _);
    try reflexivity; try apply loaded_self; try lia.
  { cbn. lia. }
  exists m'. split; [exact Hs|]. split; [exact H1 | apply H0; lia].
Defined.





(** ** The entry of a function *)

Lemma emitted_write_function self f n :
  closed (write_file self) = false ->
  Job.emitted (write_function f (Some n)) self =
  (if log_vm_commands self
   then ["//  " ++ "function " ++ f ++ " " ++ Py.str_int n] else []) +++
  ["(" ++ f ++ ")"] +++
  flat_map (fun i => ["@" ++ "LCL"; "D=M"; "@" ++ Py.str_int i;
                      "A=D+A"; "M=0"; "@SP"; "M=M+1"])
           (Py.range n).
Proof.
  intros H. apply emitted_eq. open_writer self H.
  destruct log; cbn -[Py.range flat_map Py.str_int]; rewrite <- ?app_assoc; reflexivity.
Qed.

Lemma instructions_locals idx :
  (forall i, In i idx -> 0 <= i < 32768) ->
  Hack.instructions
    (flat_map (fun i => ["@" ++ "LCL"; "D=M"; "@" ++ Py.str_int i;
                         "A=D+A"; "M=0"; "@SP"; "M=M+1"]) idx)
  = Some (flat_map local_block idx).
Proof.
  induction idx as [|i r IH]; intros H; [reflexivity|].
  cbn [flat_map]. apply instructions_app.
  - unfold local_block. assert (Hi : 0 <= i < 32768) by (apply H; now left).
    asm_tac.
  - apply IH. intros j Hj. apply H. now right.
Qed.

Lemma labels_from_locals idx : forall p,
  (forall i, In i idx -> 0 <= i < 32768) ->
  Hack.labels_from p
    (flat_map (fun i => ["@" ++ "LCL"; "D=M"; "@" ++ Py.str_int i;
                         "A=D+A"; "M=0"; "@SP"; "M=M+1"]) idx) = [].
Proof.
  induction idx as [|i r IH]; intros p H; [reflexivity|].
  cbn [flat_map app]. assert (Hi : 0 <= i < 32768) by (apply H; now left).
  labels_tac. apply IH. intros j Hj. apply H. now right.
Qed.

(** One local variable: its cell is set to zero and the stack pointer
    goes up by one. *)
Lemma local_block_run sym rom q m i L S :
  sym "SP" = 0 -> sym "LCL" = 1 ->
  Hack.loaded rom q (local_block i) -> Hack.PC m = q ->
  Hack.RAM m 1 = L -> Hack.RAM m 0 = S ->
  0 <= i -> 1 < L -> L + i < 32768 -> 0 <= S < 65535 ->
  Hack.after 7 sym rom m (fun m' =>
    Hack.PC m' = q + 7 /\
    Hack.RAM m' = Hack.upd (Hack.upd (Hack.RAM m) (L + i) 0) 0 (S + 1)).
Proof.
  intros Hsp Hlcl Hl Hpc HL HS Hi BL BLi BS.
  destruct (steps_block sym rom _ q m Hl eq_refl Hpc) as [Hs Hp].
  eexists. split; [exact Hs|]. split; [exact Hp|].
  destruct m as [a0 d0 pc0 ram]. cbn in HS, HL.
  unfold local_block.
  run_block; rewrite ?Hsp, ?Hlcl; word_simpl; rewrite ?HL; word_simpl.
  rewrite ?HS. word_simpl. reflexivity.
Qed.

Lemma locals_run sym rom L : forall cnt k q m S,
  sym "SP" = 0 -> sym "LCL" = 1 ->
  Hack.loaded rom q (flat_map local_block (map Z.of_nat (seq k cnt))) ->
  Hack.PC m = q ->
  Hack.RAM m 1 = L -> Hack.RAM m 0 = S ->
  1 < L -> L + Z.of_nat (k + cnt) <= 32768 ->
  0 <= S -> S + Z.of_nat cnt < 65536 ->
  Hack.after (7 * cnt) sym rom m (fun m' =>
    Hack.PC m' = q + 7 * Z.of_nat cnt /\
    Hack.RAM m' 0 = S + Z.of_nat cnt /\
    Hack.RAM m' 1 = L /\
    (forall i, Z.of_nat k <= i < Z.of_nat (k + cnt) -> Hack.RAM m' (L + i) = 0) /\
    (forall x, x <> 0 -> ~ (L + Z.of_nat k <= x < L + Z.of_nat (k + cnt)) ->
       Hack.RAM m' x = Hack.RAM m x)).
Proof.
  induction cnt as [|cnt IH]; intros k q m S Hsp Hlcl Hl Hpc HL HS BL BLn BS BSn.
  - exists m. split; [reflexivity|].
    split; [lia|]. split; [lia|]. split; [exact HL|]. split; [intros i Hi; lia|].
    reflexivity.
  - cbn [seq map flat_map] in Hl.
    pose proof (loaded_app_l _ _ _ _ Hl) as Hl1.
    pose proof (loaded_app_r _ _ _ _ Hl) as Hl2. cbn [List.length local_block] in Hl2.
    replace (7 * Datatypes.S cnt)%nat with (7 + 7 * cnt)%nat by lia.
    eapply after_seq.
    + apply (local_block_run sym rom q m (Z.of_nat k) L S Hsp Hlcl Hl1 Hpc HL HS);
        lia.
    + intros m1 [P1 R1]. cbn beta.
      assert (H1 : Hack.RAM m1 1 = L)
        by (rewrite R1; rewrite !upd_other by lia; exact HL).
      assert (H0 : Hack.RAM m1 0 = S + 1) by (rewrite R1; now rewrite upd_same).
      destruct (IH (Datatypes.S k) (q + 7) m1 (S + 1) Hsp Hlcl) as (m' & Hs & Q);
        try assumption; try lia.
      destruct Q as (Q1 & Q2 & Q3 & Q4 & Q5).
      exists m'. split; [exact Hs|].
      split; [lia|]. split; [lia|]. split; [exact Q3|]. split.
      * intros i Hi. destruct (Z.eq_dec i (Z.of_nat k)) as [->|Ni].
        -- rewrite Q5 by lia. rewrite R1. rewrite upd_other by lia. apply upd_same.
        -- apply Q4. lia.
      * intros x Hx0 Hx. rewrite Q5 by lia. rewrite R1.
        now rewrite !upd_other by lia.
Qed.

Lemma length_locals l :
  List.length (flat_map local_block l) = (7 * List.length l)%nat.
Proof.
  induction l as [|x r IH]; [reflexivity|].
  cbn [flat_map]. rewrite length_app, IH. cbn [local_block List.length]. lia.
Qed.

Lemma range_bounds n i : In i (Py.range n) -> 0 <= i < n.
Proof.
  unfold Py.range. intros H. apply in_map_iff in H as (j & <- & Hj).
  apply in_seq in Hj. lia.
Qed.

(** X17.  [function f n]: the text declares the label [f] at its own
    address and runs seven instructions for each of the [n] local
    variables, which set the cells [LCL], ..., [LCL + n - 1] to zero and
    raise the stack pointer by [n]; no other cell changes.  The code writer
    is inside [f] from then on. *)
Theorem function_entry labels vars rom p m self f n code L S :
  let sym := Hack.symbol_value labels vars in
  let text := Job.emitted (write_function f (Some n)) self in
  closed (write_file self) = false ->
  0 <= n <= 32768 ->
  Hack.instructions text = Some code ->
  Hack.loaded rom p code -> Hack.PC m = p ->
  Hack.RAM m 1 = L -> Hack.RAM m 0 = S ->
  1 < L -> L + n <= 32768 -> 0 <= S -> S + n < 65536 ->
  current_function (fst (write_function f (Some n) self)) = Some f /\
  Hack.labels_from p text = [(f, p)] /\
  List.length code = (7 * Z.to_nat n)%nat /\
  Hack.after (7 * Z.to_nat n) sym rom m (fun m' =>
    Hack.PC m' = p + 7 * n /\
    Hack.RAM m' 0 = S + n /\
    Hack.RAM m' 1 = L /\
    (forall i, 0 <= i < n -> Hack.RAM m' (L + i) = 0) /\
    (forall x, x <> 0 -> ~ (L <= x < L + n) -> Hack.RAM m' x = Hack.RAM m x)).
Proof.
  intros sym text Hcl Hn Hcode Hl Hpc HL HS BL BLn BS BSn. subst text.
  assert (Hb : forall i, In i (Py.range n) -> 0 <= i < 32768)
    by (intros i Hi; apply range_bounds in Hi; lia).
  split; [|split; [|split]].
  - destruct self as [? ? [ls c] ? ? ? ? log]. cbn in Hcl. subst c.
    destruct log; reflexivity.
  - rewrite (emitted_write_function self f n Hcl).
    destruct (log_vm_commands self); cbn [app].
    + rewrite labels_from_blank by reflexivity.
      rewrite labels_from_label. now rewrite labels_from_locals.
    + rewrite labels_from_label. now rewrite labels_from_locals.
  - rewrite (emitted_write_function self f n Hcl), instructions_logged in Hcode.
    cbn [app] in Hcode. erewrite instructions_label in Hcode
      by (apply instructions_locals; exact Hb).
    injection Hcode as <-. unfold Py.range.
    now rewrite length_locals, length_map, length_seq.
  - rewrite (emitted_write_function self f n Hcl), instructions_logged in Hcode.
    cbn [app] in Hcode. erewrite instructions_label in Hcode
      by (apply instructions_locals; exact Hb).
    injection Hcode as <-. unfold Py.range in Hl.
    destruct (locals_run sym rom L (Z.to_nat n) 0 p m S (symbol_SP _ _) (symbol_LCL _ _)
                Hl Hpc HL HS BL) as (m' & Hs & Q1 & Q2 & Q3 & Q4 & Q5); try lia.
    exists m'. split; [exact Hs|].
    split; [lia|]. split; [lia|]. split; [exact Q3|]. split.
    + intros i Hi. apply Q4. lia.
    + intros x Hx0 Hx. apply Q5; [exact Hx0|]. lia.
Qed.

Lemma function_entry_witness :
  let text := Job.emitted (write_function "Main.f" (Some 2)) Sample.writer in
  Hack.after 14 (Sample.symbols_of text) (Sample.code_of text)
    (Hack.mk 0 0 0 (Sample.ram_of [(0, 300); (1, 300); (300, 9); (301, 8)]))
    (fun m' => Hack.RAM m' 0 = 302 /\ Hack.RAM m' 300 = 0 /\ Hack.RAM m' 301 = 0).
Proof.
  intros text.
  destruct (function_entry (Hack.label_table text)
              (Hack.variables (Hack.label_table text) (Sample.code_of text))
              (Sample.code_of text) 0
              (Hack.mk 0 0 0 (Sample.ram_of [(0, 300); (1, 300); (300, 9); (301, 8)]))
              Sample.writer "Main.f" 2 (Sample.code_of text) 300 300)
    as (_ & _ & _ & m' & Hs & _ & H0 & _ & Hz & _);
    try reflexivity; try apply loaded_self; try lia.
  exists m'. split; [exact Hs|]. split; [exact H0|].
  split; [apply (Hz 0) | apply (Hz 1)]; lia.
Defined.

(** ** Names of files and of static variables *)

Lemma after_last_slash_plain x : forall cur,
  has_char "/" x = false -> Py.after_last_slash cur x = cur.
Proof.
  induction x as [|c r IH]; intros cur H; [reflexivity|].
  cbn [has_char Py.after_last_slash] in *. apply orb_false_elim in H as [H1 H2].
  rewrite Ascii.eqb_sym, H1. now apply IH.
Qed.

Lemma after_last_slash_dir d x : forall cur,
  has_char "/" x = false -> Py.after_last_slash cur (d ++ "/" ++ x) = x.
Proof.
  induction d as [|c r IH]; intros cur H.
  - cbn. now apply after_last_slash_plain.
  - cbn [append Py.after_last_slash]. destruct (c =? "/")%char; now apply IH.
Qed.

Lemma basename_dir d x : has_char "/" x = false -> Py.basename (d ++ "/" ++ x) = x.
Proof. apply after_last_slash_dir. Qed.

Lemma basename_plain x : has_char "/" x = false -> Py.basename x = x.
Proof. apply after_last_slash_plain. Qed.

Lemma has_char_app c x y : has_char c (x ++ y) = has_char c x || has_char c y.
Proof.
  induction x as [|d r IH]; [reflexivity|].
  cbn [append has_char]. now rewrite IH, orb_assoc.
Qed.

Lemma replace_from_skip old new s : forall k,
  k = String.length s -> Py.replace_from k old new s = "".
Proof.
  induction s as [|c r IH]; intros k ->; [reflexivity|].
  cbn [String.length Py.replace_from]. now apply IH.
Qed.

Lemma prefix_vm_app c r :
  prefix ".vm" (String c r) = false ->
  prefix ".vm" (String c r ++ ".vm") = false.
Proof.
  cbn [append]. rewrite !prefix_cons.
  destruct ("." =? c)%char; [|reflexivity]. cbn [andb].
  destruct r as [|d r']; [reflexivity|]. cbn [append]. rewrite !prefix_cons.
  destruct ("v" =? d)%char; [|reflexivity]. cbn [andb].
  destruct r' as [|e r'']; [reflexivity|]. cbn [append]. rewrite !prefix_cons.
  destruct ("m" =? e)%char; [|reflexivity]. cbn [andb prefix].
  destruct r''; discriminate.
Qed.

Lemma append_empty_r s : s ++ "" = s.
Proof. induction s as [|c r IH]; [reflexivity|]. cbn [append]. now rewrite IH. Qed.

(** A path in which [.vm] occurs only at the end: that one is replaced. *)
Lemma replace_vm_suffix p new :
  occurs ".vm" p = false -> Py.replace (p ++ ".vm") ".vm" new = p ++ new.
Proof.
  unfold Py.replace. induction p as [|c r IH]; intros H.
  - cbn. now rewrite append_empty_r.
  - cbn [occurs] in H. apply orb_false_elim in H as [H1 H2].
    pose proof (prefix_vm_app c r H1) as H3.
    cbn [append] in H3 |- *. cbn [Py.replace_from]. rewrite H3.
    now rewrite (IH H2).
Qed.

Lemma append_assoc_string x y z : (x ++ y) ++ z = x ++ y ++ z.
Proof. induction x as [|c r IH]; [reflexivity|]. cbn [append]. now rewrite IH. Qed.

Lemma replace_vm_twice p new :
  occurs ".vm" p = false ->
  Py.replace (p ++ ".vm.vm") ".vm" new = p ++ new ++ new.
Proof.
  unfold Py.replace. induction p as [|c r IH]; intros H.
  - cbn. now rewrite append_empty_r.
  - cbn [occurs] in H. apply orb_false_elim in H as [H1 H2].
    pose proof (prefix_vm_app c r H1) as H3.
    change (String c r ++ ".vm") with (String c (r ++ ".vm")) in H3.
    apply prefix_vm_app in H3.
    change (String c (r ++ ".vm") ++ ".vm") with (String c ((r ++ ".vm") ++ ".vm")) in H3.
    rewrite append_assoc_string in H3. change (".vm" ++ ".vm") with ".vm.vm" in H3.
    change (String c r ++ ".vm.vm") with (String c (r ++ ".vm.vm")).
    cbn [Py.replace_from]. rewrite H3, (IH H2). reflexivity.
Qed.

Lemma dot_split x : forall y a b,
  has_char "." a = false -> has_char "." b = false ->
  x ++ "." ++ a = y ++ "." ++ b -> x = y /\ a = b.
Proof.
  induction x as [|c x IH]; intros [|d y] a b Ha Hb H; cbn [append] in H.
  - injection H as ->. auto.
  - injection H as <- ->. rewrite has_char_app in Ha. cbn in Ha.
    rewrite orb_true_r in Ha. discriminate.
  - injection H as -> <-. rewrite has_char_app in Hb. cbn in Hb.
    rewrite orb_true_r in Hb. discriminate.
  - injection H as -> H. destruct (IH y a b Ha Hb H) as [-> ->]. auto.
Qed.

Lemma set_filename_name filepath self :
  current_filename (fst (set_filename filepath self))
  = Some (Py.replace (Py.basename filepath) ".vm" "").
Proof. reflexivity. Qed.

(** X18.  The static variables of a unit.  [set_filename] keeps of the
    path what follows the last slash, with every [.vm] removed: for
    [dir/Name.vm] that is [Name], and so it is for [Name.vm.vm].  The
    variable [static i] of the unit is then the assembler symbol [Name.i],
    which is never read as a number; two such symbols are the same only for
    the same name and the same index, so units whose names differ share no
    static variable, while units whose paths differ only before the last
    slash, or by a repeated [.vm], share all of them. *)
Theorem static_symbols :
  (forall dir name self,
     has_char "/" name = false -> occurs ".vm" name = false ->
     current_filename (fst (set_filename (dir ++ "/" ++ name ++ ".vm") self)) = Some name /\
     current_filename (fst (set_filename (name ++ ".vm") self)) = Some name /\
     current_filename (fst (set_filename (name ++ ".vm.vm") self)) = Some name) /\
  (forall self name index,
     current_filename self = Some name ->
     translate_segment_vm_code self "static" (Some index)
     = Ok ["@" ++ name ++ "." ++ Py.str_int index] /\
     Hack.parse_operand (name ++ "." ++ Py.str_int index)
     = Some (Hack.Sym (name ++ "." ++ Py.str_int index))) /\
  (forall name1 name2 index1 index2,
     name1 ++ "." ++ Py.str_int index1 = name2 ++ "." ++ Py.str_int index2 ->
     name1 = name2 /\ index1 = index2).
Proof.
  split; [|split].
  - intros dir name self Hs Hv.
    assert (Hs1 : has_char "/" (name ++ ".vm") = false)
      by (rewrite has_char_app, Hs; reflexivity).
    assert (Hs2 : has_char "/" (name ++ ".vm.vm") = false)
      by (rewrite has_char_app, Hs; reflexivity).
    rewrite !set_filename_name.
    rewrite (basename_dir dir _ Hs1), (basename_plain _ Hs1), (basename_plain _ Hs2).
    rewrite (replace_vm_suffix name "" Hv), (replace_vm_twice name "" Hv).
    cbn [append]. rewrite append_empty_r. auto.
  - intros self name index H. unfold translate_segment_vm_code. rewrite H.
    split; [reflexivity | apply parse_operand_dot].
  - intros name1 name2 index1 index2 H.
    apply dot_split in H as [-> H]; [|apply has_char_str_int; [reflexivity|discriminate]..].
    split; [reflexivity | now apply str_int_inj].
Qed.

(** ** The name of the output file *)

Lemma length_append p s :
  String.length (p ++ s) = (String.length p + String.length s)%nat.
Proof. induction p as [|c r IH]; [reflexivity|]. cbn. now rewrite IH. Qed.

Lemma substring_all s : substring 0 (String.length s) s = s.
Proof. induction s as [|c r IH]; [reflexivity|]. cbn. now rewrite IH. Qed.

Lemma substring_app p s :
  substring (String.length p) (String.length s) (p ++ s) = s.
Proof.
  induction p as [|c r IH]; [apply substring_all|]. exact IH.
Qed.

Lemma endswith_app p s : Py.endswith (p ++ s) s = true.
Proof.
  unfold Py.endswith. rewrite length_append.
  replace (String.length p + String.length s - String.length s)%nat
    with (String.length p) by lia.
  rewrite substring_app, String.eqb_refl, andb_true_r.
  apply Nat.leb_le. lia.
Qed.

Lemma endswith_cons c s suffix :
  (String.length suffix <= String.length s)%nat ->
  Py.endswith (String c s) suffix = Py.endswith s suffix.
Proof.
  intros H. unfold Py.endswith. cbn [String.length].
  replace (Datatypes.S (String.length s) - String.length suffix)%nat
    with (Datatypes.S (String.length s - String.length suffix)) by lia.
  cbn [substring].
  assert (E1 : (String.length suffix <=? Datatypes.S (String.length s))%nat = true)
    by (apply Nat.leb_le; lia).
  assert (E2 : (String.length suffix <=? String.length s)%nat = true)
    by (apply Nat.leb_le; lia).
  now rewrite E1, E2.
Qed.

Lemma endswith_slash_vm p : Py.endswith (p ++ "/") ".vm" = false.
Proof.
  induction p as [|c r IH]; [reflexivity|].
  destruct r as [|d [|e r']].
  - reflexivity.
  - unfold Py.endswith. cbn. destruct (c =? ".")%char, (d =? "v")%char; reflexivity.
  - cbn [append] in *. rewrite endswith_cons; [exact IH|].
    cbn [String.length]. rewrite length_append. cbn [String.length]. lia.
Qed.

Lemma substring_suffix a : forall s k,
  (a + k = String.length s)%nat -> exists q, s = q ++ substring a k s.
Proof.
  induction a as [|a IH]; intros s k H.
  - exists "". cbn [Nat.add] in H. subst k. now rewrite substring_all.
  - destruct s as [|c r]; [discriminate H|]. cbn [String.length] in H.
    destruct (IH r k) as [q Hq]; [lia|].
    exists (String c q). cbn [append substring]. now rewrite <- Hq.
Qed.

Lemma endswith_inv s suffix :
  Py.endswith s suffix = true -> exists q, s = q ++ suffix.
Proof.
  unfold Py.endswith. intros H. apply andb_prop in H as [H1 H2].
  apply Nat.leb_le in H1. apply String.eqb_eq in H2.
  destruct (substring_suffix (String.length s - String.length suffix) s
              (String.length suffix)) as [q Hq]; [lia|].
  rewrite H2 in Hq. eauto.
Qed.

Lemma after_last_slash_reset p : forall cur,
  has_char "/" p = true -> Py.after_last_slash cur p = Py.basename p.
Proof.
  unfold Py.basename.
  induction p as [|c r IH]; intros cur H; [discriminate|].
  cbn [has_char] in H. cbn [Py.after_last_slash].
  destruct (c =? "/")%char eqn:E; [reflexivity|].
  rewrite Ascii.eqb_sym, E in H. cbn [orb] in H.
  now rewrite (IH cur H), (IH (String c r) H).
Qed.

Lemma basename_no_slash p : has_char "/" (Py.basename p) = false.
Proof.
  induction p as [|c r IH]; [reflexivity|].
  unfold Py.basename. cbn [Py.after_last_slash].
  destruct (c =? "/")%char eqn:E; [exact IH|].
  destruct (has_char "/" r) eqn:Hr.
  - now rewrite after_last_slash_reset.
  - rewrite after_last_slash_plain by exact Hr.
    cbn [has_char]. now rewrite Ascii.eqb_sym, E, Hr.
Qed.

Lemma basename_slash p : Py.basename (p ++ "/") = "".
Proof.
  change (p ++ "/") with (p ++ "/" ++ ""). now apply basename_dir.
Qed.

Lemma endswith_empty suffix : suffix <> "" -> Py.endswith "" suffix = false.
Proof. destruct suffix; [congruence | reflexivity]. Qed.

Lemma write_init_fresh isdir filepath out log :
  exists cw,
    write_init isdir (mk filepath out (mk_file [] false) None None 0 0 log) = (cw, Ok tt) /\
    out_filename cw = out /\ in_filepath cw = filepath /\
    current_filename cw = None /\ current_function cw = None /\
    arith_jump_counter cw = 0 /\ closed (write_file cw) = false.
Proof.
  unfold write_init, bind, get. cbn [in_filepath].
  destruct (isdir filepath), log; cbn; eexists; repeat split.
Qed.

Ltac init_tac isdir p out log :=
  cbn [bind_result negb];
  let cw := fresh "cw" in
  let W := fresh "W" in
  let R := fresh "R" in
  destruct (write_init_fresh isdir p out log) as (cw & W & R);
  rewrite W; exists cw; split; [reflexivity | apply R].

(** X19.  The output file of a job.  For a path ending in [.vm] in which
    [.vm] occurs nowhere else, it is the path with [.asm] in place of
    [.vm]; for a directory, the file named after the directory inside it;
    a directory given with a closing slash is refused, its base name being
    empty, and so is a path that is neither a [.vm] path nor a directory
    nor an [.asm] path.  A code writer that was built writes to a path
    ending in [.asm], stands in no unit and no function, and its file is
    open. *)
Theorem output_file_name (isdir : string -> bool) log :
  (forall p,
     occurs ".vm" p = false ->
     exists cw, __init__ isdir (p ++ ".vm") log = Ok cw /\
                out_filename cw = p ++ ".asm") /\
  (forall p,
     Py.endswith p ".vm" = false -> isdir p = true -> Py.basename p <> "" ->
     exists cw, __init__ isdir p log = Ok cw /\
                out_filename cw = p ++ "/" ++ Py.basename p ++ ".asm") /\
  (forall p,
     isdir (p ++ "/") = true ->
     __init__ isdir (p ++ "/") log
     = Err (Exception "Base directory name cannot be empty.")) /\
  (forall p,
     Py.endswith p ".vm" = false -> isdir p = false ->
     Py.endswith p ".asm" = false ->
     __init__ isdir p log
     = Err (Exception ("Output filepath '" ++ p ++ "' must be a '.asm' file"))) /\
  (forall p cw,
     __init__ isdir p log = Ok cw ->
     Py.endswith (out_filename cw) ".asm" = true /\
     in_filepath cw = p /\ current_filename cw = None /\
     current_function cw = None /\ closed (write_file cw) = false).
Proof.
  split; [|split; [|split; [|split]]].
  - intros p H. unfold __init__.
    rewrite endswith_app, (replace_vm_suffix p ".asm" H).
    cbn [bind_result]. rewrite endswith_app.
    init_tac isdir (p ++ ".vm") (p ++ ".asm") log.
  - intros p Hv Hd Hb.
    assert (Hp : p <> "") by (intros ->; now apply Hb).
    assert (Hs : Py.endswith p "/" = false).
    { destruct (Py.endswith p "/") eqn:E; [|reflexivity]. exfalso. apply Hb.
      apply endswith_inv in E as [q ->]. apply basename_slash. }
    assert (Hj : Py.join p (Py.basename p ++ ".asm") = p ++ "/" ++ Py.basename p ++ ".asm").
    { unfold Py.join. rewrite Hs.
      destruct (Py.basename p) as [|c b] eqn:B; [congruence|].
      pose proof (basename_no_slash p) as N. rewrite B in N. cbn [has_char] in N.
      apply orb_false_elim in N as [N _].
      cbn [append]. rewrite prefix_cons, N. cbn [andb].
      destruct p; [congruence | reflexivity]. }
    unfold __init__. rewrite Hv, Hd. cbn zeta. rewrite Hj.
    assert (Hl : (String.length (Py.basename p) =? 0)%nat = false)
      by (destruct (Py.basename p); [congruence | reflexivity]).
    rewrite Hl. cbn [bind_result].
    assert (He : Py.endswith (p ++ "/" ++ Py.basename p ++ ".asm") ".asm" = true)
      by (rewrite <- !append_assoc_string; apply endswith_app).
    rewrite He.
    init_tac isdir p (p ++ "/" ++ Py.basename p ++ ".asm") log.
  - intros p Hd. unfold __init__.
    now rewrite endswith_slash_vm, Hd, basename_slash.
  - intros p Hv Hd Ha. unfold __init__. rewrite Hv, Hd. cbn [bind_result].
    now rewrite Ha.
  - intros p cw H. pose proof H as H'. unfold __init__, bind_result in H.
    destruct (if Py.endswith p ".vm" then _ else _) as [out|e]; [|discriminate].
    destruct (Py.endswith out ".asm") eqn:E; [|discriminate]. cbn [negb] in H.
    destruct (write_init_fresh isdir p out log) as (cw' & W & R).
    rewrite W in H. injection H as <-.
    destruct R as (R1 & R2 & R3 & R4 & _ & R6). rewrite R1. auto.
Qed.

(** ** The input units of a job *)

Lemma dict_set_in {V} k (v : V) d k' v' :
  In (k', v') (Py.dict_set k v d) -> (k' = k /\ v' = v) \/ In (k', v') d.
Proof.
  induction d as [|[k1 v1] r IH]; cbn [Py.dict_set].
  - intros [[= <- <-]|[]]. now left.
  - destruct (k =? k1)%string.
    + intros [[= <- <-]|H]; [now left | right; now right].
    + intros [H|H]; [right; now left|].
      destruct (IH H) as [H'|H']; [now left | right; now right].
Qed.

Lemma dict_set_keys {V} k (v : V) d x :
  In x (map fst (Py.dict_set k v d)) -> x = k \/ In x (map fst d).
Proof.
  intros H. apply in_map_iff in H as ([k' v'] & <- & H).
  apply dict_set_in in H as [[-> _]|H]; [now left|].
  right. apply in_map_iff. now exists (k', v').
Qed.

Lemma dict_set_nodup {V} k (v : V) d :
  NoDup (map fst d) -> NoDup (map fst (Py.dict_set k v d)).
Proof.
  induction d as [|[k1 v1] r IH]; cbn [Py.dict_set map fst]; intros H.
  - constructor; [intros [] | constructor].
  - inversion H as [|? ? N1 N2]; subst.
    destruct (k =? k1)%string eqn:E.
    + apply String.eqb_eq in E. subst k1. cbn [map fst]. now constructor.
    + cbn [map fst]. constructor; [|now apply IH].
      intros Hin. apply dict_set_keys in Hin as [->|Hin]; [|contradiction].
      now rewrite String.eqb_refl in E.
Qed.

Lemma dict_set_fresh {V} k (v : V) d :
  ~ In k (map fst d) -> Py.dict_set k v d = d +++ [(k, v)].
Proof.
  induction d as [|[k1 v1] r IH]; cbn [Py.dict_set map fst app]; intros H;
    [reflexivity|].
  destruct (k =? k1)%string eqn:E.
  - apply String.eqb_eq in E. subst k1. exfalso. apply H. now left.
  - rewrite IH; [reflexivity|]. intros Hin. apply H. now right.
Qed.

Lemma read_files_in_dir_inv fs input_path names : forall files,
  NoDup (map fst files) ->
  (forall k v, In (k, v) files ->
     Main.is_vm_file fs k = true /\ v = Main.readlines fs k /\
     exists name, In name (Main.listdir fs input_path) /\ k = Py.join input_path name) ->
  (forall name, In name names -> In name (Main.listdir fs input_path)) ->
  let files' := Main.read_files_in_dir fs input_path names files in
  NoDup (map fst files') /\
  (forall k v, In (k, v) files' ->
     Main.is_vm_file fs k = true /\ v = Main.readlines fs k /\
     exists name, In name (Main.listdir fs input_path) /\ k = Py.join input_path name).
Proof.
  induction names as [|name r IH]; intros files Hn Hv Hsub; [now split|].
  cbn [Main.read_files_in_dir]. apply IH.
  - unfold Main.read_file_into_dict.
    destruct (Main.is_vm_file fs (Py.join input_path name)); cbn [negb];
      [now apply dict_set_nodup | exact Hn].
  - unfold Main.read_file_into_dict. intros k v Hin.
    destruct (Main.is_vm_file fs (Py.join input_path name)) eqn:E; cbn [negb] in Hin;
      [|now apply Hv].
    apply dict_set_in in Hin as [[-> ->]|Hin]; [|now apply Hv].
    split; [exact E|]. split; [reflexivity|].
    exists name. split; [apply Hsub; now left | reflexivity].
  - intros x Hx. apply Hsub. now right.
Qed.

Lemma read_files_in_dir_fresh fs input_path names : forall files,
  NoDup (map (Py.join input_path) names) ->
  (forall name, In name names -> ~ In (Py.join input_path name) (map fst files)) ->
  Main.read_files_in_dir fs input_path names files
  = files +++
    map (fun name => (Py.join input_path name,
                      Main.readlines fs (Py.join input_path name)))
        (filter (fun name => Main.is_vm_file fs (Py.join input_path name)) names).
Proof.
  induction names as [|name r IH]; intros files Hn Hf; cbn [Main.read_files_in_dir].
  - cbn. now rewrite app_nil_r.
  - cbn [map] in Hn. inversion Hn as [|? ? N1 N2]; subst.
    unfold Main.read_file_into_dict, Main.read_vm_file. cbn [filter].
    destruct (Main.is_vm_file fs (Py.join input_path name)) eqn:E; cbn [negb].
    + rewrite dict_set_fresh by (apply Hf; now left).
      rewrite IH; [cbn [map]; now rewrite <- app_assoc | exact N2 |].
      intros x Hx Hin. rewrite map_app in Hin. apply in_app_or in Hin as [Hin|Hin].
      * apply (Hf x); [now right | exact Hin].
      * cbn in Hin. destruct Hin as [Hin|[]]. apply N1. rewrite Hin.
        now apply in_map.
    + apply IH; [exact N2|]. intros x Hx. apply Hf. now right.
Qed.

(** X20.  The units of a job.  A path that does not exist, and one that
    is neither a [.vm] file nor a directory, are refused; a [.vm] file is
    the only unit of its job.  Whenever units are returned there is at
    least one, no path comes twice, and each is a [.vm] file of the disk
    with its lines, the input path itself or an entry of the directory;
    sub-directories are not entered.  For a directory whose entries give
    distinct paths, the units are its [.vm] files in the order of the
    listing, and a directory without any is refused. *)
Theorem input_units fs input_path :
  (Main.exists_ fs input_path = false ->
   Main.read_filepath_input fs input_path
   = Err (Exception ("The provided path '" ++ input_path ++ "' does not exist."))) /\
  (Main.exists_ fs input_path = true -> Main.is_vm_file fs input_path = true ->
   Main.read_filepath_input fs input_path
   = Ok [(input_path, Main.readlines fs input_path)]) /\
  (Main.exists_ fs input_path = true -> Main.is_vm_file fs input_path = false ->
   Main.isdir fs input_path = false ->
   Main.read_filepath_input fs input_path
   = Err (Exception ("Input path '" ++ input_path
                     ++ "' must be a valid .vm file, or an existing directory."))) /\
  (forall files,
     Main.read_filepath_input fs input_path = Ok files ->
     files <> [] /\ NoDup (map fst files) /\
     forall k v, In (k, v) files ->
       Main.is_vm_file fs k = true /\ v = Main.readlines fs k /\
       (k = input_path \/
        exists name, In name (Main.listdir fs input_path) /\
                     k = Py.join input_path name)) /\
  (Main.exists_ fs input_path = true -> Main.is_vm_file fs input_path = false ->
   Main.isdir fs input_path = true ->
   NoDup (map (Py.join input_path) (Main.listdir fs input_path)) ->
   Main.read_filepath_input fs input_path
   = match
       map (fun name => (Py.join input_path name,
                         Main.readlines fs (Py.join input_path name)))
           (filter (fun name => Main.is_vm_file fs (Py.join input_path name))
                   (Main.listdir fs input_path))
     with
     | [] => Err (Exception ("No vm files found in input path '" ++ input_path ++ "'."))
     | units => Ok units
     end).
Proof.
  unfold Main.read_filepath_input.
  split; [|split; [|split; [|split]]].
  - intros ->. reflexivity.
  - intros -> ->. reflexivity.
  - intros -> -> ->. reflexivity.
  - intros files H.
    destruct (Main.exists_ fs input_path); cbn [negb] in H; [|discriminate].
    destruct (Main.is_vm_file fs input_path) eqn:V.
    { injection H as <-. split; [discriminate|]. split.
      - cbn. constructor; [intros [] | constructor].
      - intros k v [[= <- <-]|[]]. auto. }
    destruct (Main.isdir fs input_path); cbn [negb] in H; [|discriminate].
    destruct (read_files_in_dir_inv fs input_path (Main.listdir fs input_path) [])
      as [N I]; [constructor | intros ? ? [] | auto |].
    destruct (Main.read_files_in_dir fs input_path (Main.listdir fs input_path) [])
      as [|u r]; [discriminate|].
    injection H as <-. split; [discriminate|]. split; [exact N|].
    intros k v Hin. destruct (I k v Hin) as (I1 & I2 & I3). auto.
  - intros -> -> -> Hn. cbn [negb].
    rewrite (read_files_in_dir_fresh fs input_path _ [] Hn) by (intros ? ? []).
    cbn [app].
    match goal with
    | |- match ?l with _ => _ end = _ => destruct l; reflexivity
    end.
Qed.

Lemma input_units_witness :
  Main.read_filepath_input Sample.disk "prog"
  = Ok [("prog/Main.vm", ["push constant 1" ++ Sample.nl]);
        ("prog/Sys.vm", ["call Main.main 0" ++ Sample.nl])].
Proof.
  destruct (input_units Sample.disk "prog") as (_ & _ & _ & _ & H).
  rewrite H; try reflexivity.
  repeat constructor; cbn; intuition discriminate.
Defined.

(** ** The logging of VM commands *)


Lemma translate_push_with_log b ls self segment index :
  translate_push_vm_code_to_asm (with_log b ls self) segment index
  = translate_push_vm_code_to_asm self segment index.
Proof. reflexivity. Qed.

Lemma translate_pop_with_log b ls self segment index :
  translate_pop_vm_code_to_asm (with_log b ls self) segment index
  = translate_pop_vm_code_to_asm self segment index.
Proof. reflexivity. Qed.











Lemma with_log_with_log b ls ls' self :
  with_log b ls (with_log b ls' self) = with_log b ls self.
Proof. reflexivity. Qed.




(** ** Replacing an extension *)

Lemma prefix_empty s : prefix "" s = true.
Proof. destruct s; reflexivity. Qed.

(** An extension, a dot followed by a text without dots, cannot start
    before the end of a text and finish inside a copy of itself that
    follows. *)
Lemma prefix_inside o : forall s x,
  has_char "." o = false ->
  prefix o (s ++ String "." x) = true -> prefix o s = true.
Proof.
  induction o as [|a o IH]; intros s x Ho H; [apply prefix_empty|].
  cbn [has_char] in Ho. apply orb_false_elim in Ho as [Ha Ho].
  destruct s as [|b s]; cbn [append] in H; rewrite prefix_cons in H.
  - rewrite Ascii.eqb_sym, Ha in H. discriminate.
  - rewrite prefix_cons. apply andb_prop in H as [H1 H2]. rewrite H1. cbn [andb].
    now apply (IH s x).
Qed.

Lemma prefix_mono o : forall s u, prefix o s = true -> prefix o (s ++ u) = true.
Proof.
  induction o as [|a o IH]; intros s u H; [apply prefix_empty|].
  destruct s as [|b s]; [discriminate|]. cbn [append].
  rewrite prefix_cons in H |- *. apply andb_prop in H as [H1 H2].
  rewrite H1. cbn [andb]. now apply IH.
Qed.

Lemma prefix_length o : forall s,
  prefix o s = true -> (String.length o <= String.length s)%nat.
Proof.
  induction o as [|a o IH]; intros s H; [cbn; lia|].
  destruct s as [|b s]; [discriminate|]. rewrite prefix_cons in H.
  apply andb_prop in H as [_ H]. apply IH in H. cbn [String.length]. lia.
Qed.

Lemma prefix_extension o s :
  has_char "." o = false ->
  prefix (String "." o) (s ++ String "." o) = prefix (String "." o) s
  \/ s = "".
Proof.
  intros Ho. destruct s as [|c r]; [now right|]. left.
  cbn [append]. rewrite !prefix_cons.
  destruct ("." =? c)%char; [|reflexivity]. cbn [andb].
  destruct (prefix o (r ++ String "." o)) eqn:E.
  - symmetry. now apply (prefix_inside o r o).
  - destruct (prefix o r) eqn:E'; [|reflexivity].
    apply (prefix_mono o r (String "." o)) in E'. congruence.
Qed.

Lemma replace_from_extension o new q : forall k,
  has_char "." o = false ->
  (k <= String.length q)%nat ->
  Py.replace_from k (String "." o) new (q ++ String "." o)
  = Py.replace_from k (String "." o) new q ++ new.
Proof.
  revert q. 
  assert (End : Py.replace_from 0 (String "." o) new (String "." o) = new).
  { cbn [Py.replace_from]. rewrite prefix_cons, Ascii.eqb_refl. cbn [andb].
    assert (P : forall u : string, prefix u u = true).
    { intros u. induction u as [|c u IHu]; [reflexivity|].
      rewrite prefix_cons, Ascii.eqb_refl. exact IHu. }
    rewrite P. cbn [String.length Nat.sub]. rewrite Nat.sub_0_r.
    rewrite replace_from_skip by reflexivity. apply append_empty_r. }
  induction q as [|c r IH]; intros k Ho Hk.
  - cbn [String.length] in Hk. replace k with 0%nat by lia. cbn [append].
    exact End.
  - destruct k as [|k].
    + destruct (prefix_extension o (String c r) Ho) as [E|E]; [|discriminate].
      change (String c r ++ String "." o) with (String c (r ++ String "." o)) in *.
      cbn [Py.replace_from]. rewrite E.
      destruct (prefix (String "." o) (String c r)) eqn:P.
      * apply prefix_length in P. cbn [String.length] in P.
        rewrite IH by (cbn [String.length]; lia || assumption).
        now rewrite append_assoc_string.
      * cbn [append]. now rewrite IH by (assumption || lia).
    + cbn [append Py.replace_from]. apply IH; [assumption|].
      cbn [String.length] in Hk. lia.
Qed.

Lemma replace_extension o new q :
  has_char "." o = false ->
  Py.replace (q ++ String "." o) (String "." o) new
  = Py.replace q (String "." o) new ++ new.
Proof.
  intros Ho. unfold Py.replace. apply replace_from_extension; [exact Ho | lia].
Qed.

Lemma replace_no_dot o new s :
  has_char "." s = false -> Py.replace s (String "." o) new = s.
Proof.
  unfold Py.replace. induction s as [|c r IH]; intros H; [reflexivity|].
  cbn [has_char] in H. apply orb_false_elim in H as [H1 H2].
  cbn [Py.replace_from]. rewrite prefix_cons, H1. cbn [andb]. now rewrite IH.
Qed.



(** X23.  [strip_extension] keeps what follows the last slash and removes
    every [.asm] from it, the one at the end included: for [dir/Name.asm]
    or [Name.asm] with no dot in [Name], it is [Name]. *)
Theorem strip_extension_name :
  (forall dir name,
     has_char "/" name = false ->
     Main.strip_extension (dir ++ "/" ++ name ++ ".asm") = Py.replace name ".asm" "" /\
     Main.strip_extension (name ++ ".asm") = Py.replace name ".asm" "") /\
  (forall dir name,
     has_char "/" name = false -> has_char "." name = false ->
     Main.strip_extension (dir ++ "/" ++ name ++ ".asm") = name /\
     Main.strip_extension (name ++ ".asm") = name /\
     Main.strip_extension (dir ++ "/" ++ name) = name).
Proof.
  assert (G : forall dir name,
             has_char "/" name = false ->
             Main.strip_extension (dir ++ "/" ++ name ++ ".asm") = Py.replace name ".asm" "" /\
             Main.strip_extension (name ++ ".asm") = Py.replace name ".asm" "").
  { intros dir name Hs. unfold Main.strip_extension.
    assert (Hs1 : has_char "/" (name ++ ".asm") = false)
      by (rewrite has_char_app, Hs; reflexivity).
    rewrite (basename_dir dir _ Hs1), (basename_plain _ Hs1).
    rewrite (replace_extension "asm" "" name eq_refl).
    now rewrite append_empty_r. }
  split; [exact G|].
  intros dir name Hs Hd. destruct (G dir name Hs) as [G1 G2].
  rewrite G1, G2, (replace_no_dot "asm" "" name Hd).
  split; [reflexivity|]. split; [reflexivity|].
  unfold Main.strip_extension. rewrite (basename_dir dir name Hs).
  apply replace_no_dot. exact Hd.
Qed.

(** ** Call and return together *)

(** Where [return] leaves the machine. *)
Lemma return_run sym rom q mr code fv rv T L Ar :
  sym "SP" = 0 -> sym "LCL" = 1 -> sym "ARG" = 2 -> sym "THIS" = 3 -> sym "THAT" = 4 ->
  Hack.instructions
    [ "@LCL"; "D=M"; "@frame"; "M=D";
      "@5"; "A=D-A"; "D=M"; "@return"; "M=D";
      "@SP"; "AM=M-1"; "D=M"; "@ARG"; "A=M"; "M=D";
      "D=A+1"; "@SP"; "M=D";
      "@frame"; "D=M"; "@1"; "A=D-A"; "D=M"; "@THAT"; "M=D";
      "@frame"; "D=M"; "@2"; "A=D-A"; "D=M"; "@THIS"; "M=D";
      "@frame"; "D=M"; "@3"; "A=D-A"; "D=M"; "@ARG"; "M=D";
      "@frame"; "D=M"; "@4"; "A=D-A"; "D=M"; "@LCL"; "M=D";
      "@return"; "A=M"; "0;JMP" ] = Some code ->
  Hack.loaded rom q code -> Hack.PC mr = q ->
  sym "frame" = fv -> sym "return" = rv ->
  16 <= fv < 256 -> 16 <= rv < 256 -> fv <> rv ->
  Hack.RAM mr 0 = T -> Hack.RAM mr 1 = L -> Hack.RAM mr 2 = Ar ->
  256 <= Ar -> Ar + 5 <= L -> L < T -> T < 32768 ->
  Hack.after 49 sym rom mr (fun m' =>
    Hack.PC m' = Hack.addr (Hack.RAM mr (L - 5)) /\
    Hack.RAM m' Ar = Hack.RAM mr (T - 1) /\
    Hack.RAM m' 0 = Ar + 1 /\
    Hack.RAM m' 4 = Hack.RAM mr (L - 1) /\
    Hack.RAM m' 3 = Hack.RAM mr (L - 2) /\
    Hack.RAM m' 2 = Hack.RAM mr (L - 3) /\
    Hack.RAM m' 1 = Hack.RAM mr (L - 4)).
Proof.
  intros Hsp Hlcl Harg Hthis Hthat Hcode Hl Hpc Hfv Hrv Bfv Brv Hne HS HL HAr
         B1 B2 B3 B4.
  vm_compute in Hcode. injection Hcode as <-.
  destruct mr as [a d pc ram]. cbn in Hpc, HS, HL, HAr. subst pc.
  set (m0 := Hack.mk a d q ram).
  match type of Hl with Hack.loaded _ _ ?c => set (code := c) in * end.
  pose (ram4 := Hack.upd ram fv L).
  pose (ram9 := Hack.upd ram4 rv (ram (L - 5))).
  pose (ram15 := Hack.upd (Hack.upd ram9 0 (T - 1)) Ar (ram (T - 1))).
  pose (ram18 := Hack.upd ram15 0 (Ar + 1)).
  pose (ram25 := Hack.upd ram18 4 (ram (L - 1))).
  pose (ram32 := Hack.upd ram25 3 (ram (L - 2))).
  pose (ram39 := Hack.upd ram32 2 (ram (L - 3))).
  pose (ram46 := Hack.upd ram39 1 (ram (L - 4))).
  assert (E4 : Hack.exec_block sym (firstn 4 code) m0 = Hack.mk fv L (q + 4) ram4).
  { subst code m0. cbn [firstn]. run_block. rewrite Hlcl, Hfv. word_simpl.
    rewrite HL. f_equal; lia. }
  assert (E9 : Hack.exec_block sym (firstn 9 code) m0
               = Hack.mk rv (ram (L - 5)) (q + 9) ram9).
  { change 9%nat with (4 + 5)%nat. rewrite exec_block_firstn_add, E4.
    subst code. cbn [firstn skipn]. run_block. rewrite Hrv. subst ram4.
    word_simpl. f_equal; lia. }
  assert (E15 : Hack.exec_block sym (firstn 15 code) m0
                = Hack.mk Ar (ram (T - 1)) (q + 15) ram15).
  { change 15%nat with (9 + 6)%nat. rewrite exec_block_firstn_add, E9.
    subst code. cbn [firstn skipn]. run_block. rewrite Hsp, Harg.
    subst ram9 ram4. word_simpl. rewrite HS. word_simpl. rewrite HAr.
    word_simpl. f_equal; lia. }
  assert (E18 : Hack.exec_block sym (firstn 18 code) m0
                = Hack.mk 0 (Ar + 1) (q + 18) ram18).
  { change 18%nat with (15 + 3)%nat. rewrite exec_block_firstn_add, E15.
    subst code. cbn [firstn skipn]. run_block. rewrite Hsp. word_simpl.
    f_equal; lia. }
  assert (E25 : Hack.exec_block sym (firstn 25 code) m0
                = Hack.mk 4 (ram (L - 1)) (q + 25) ram25).
  { change 25%nat with (18 + 7)%nat. rewrite exec_block_firstn_add, E18.
    subst code. cbn [firstn skipn]. run_block. rewrite Hfv, Hthat.
    subst ram18 ram15 ram9 ram4. word_simpl. f_equal; lia. }
  assert (E32 : Hack.exec_block sym (firstn 32 code) m0
                = Hack.mk 3 (ram (L - 2)) (q + 32) ram32).
  { change 32%nat with (25 + 7)%nat. rewrite exec_block_firstn_add, E25.
    subst code. cbn [firstn skipn]. run_block. rewrite Hfv, Hthis.
    subst ram25 ram18 ram15 ram9 ram4. word_simpl. f_equal; lia. }
  assert (E39 : Hack.exec_block sym (firstn 39 code) m0
                = Hack.mk 2 (ram (L - 3)) (q + 39) ram39).
  { change 39%nat with (32 + 7)%nat. rewrite exec_block_firstn_add, E32.
    subst code. cbn [firstn skipn]. run_block. rewrite Hfv, Harg.
    subst ram32 ram25 ram18 ram15 ram9 ram4. word_simpl. f_equal; lia. }
  assert (E46 : Hack.exec_block sym (firstn 46 code) m0
                = Hack.mk 1 (ram (L - 4)) (q + 46) ram46).
  { change 46%nat with (39 + 7)%nat. rewrite exec_block_firstn_add, E39.
    subst code. cbn [firstn skipn]. run_block. rewrite Hfv, Hlcl.
    subst ram39 ram32 ram25 ram18 ram15 ram9 ram4. word_simpl. f_equal; lia. }
  assert (E48 : Hack.exec_block sym (firstn 48 code) m0
                = Hack.mk (ram (L - 5)) (ram (L - 4)) (q + 48) ram46).
  { change 48%nat with (46 + 2)%nat. rewrite exec_block_firstn_add, E46.
    subst code. cbn [firstn skipn]. run_block. rewrite Hrv.
    subst ram46 ram39 ram32 ram25 ram18 ram15 ram9 ram4. word_simpl.
    f_equal; lia. }
  assert (Run : forall k, (k <= 48)%nat ->
            Hack.steps k sym rom m0 = Some (Hack.exec_block sym (firstn k code) m0)).
  { intros k Hk. apply (steps_straight_prefix sym rom q code m0 48); auto.
    subst code. cbn [List.length]. lia. }
  eexists. split.
  - change 49%nat with (48 + 1)%nat. rewrite steps_add, Run, E48 by lia.
    apply steps_one. cbn [Hack.PC].
    destruct Hl as [Hp Hf]. apply (Hf 48%nat). reflexivity.
  - cbn. subst ram46 ram39 ram32 ram25 ram18 ram15 ram9 ram4.
    repeat split; now word_simpl.
Qed.

Lemma lookup_RETURN_predefined n : Hack.lookup ("RETURN_" ++ n) Hack.predefined = None.
Proof. reflexivity. Qed.

(** X24.  A call and the return that answers it.  [call f n] jumps to
    [f] leaving on the stack the frame of the caller: the address of the
    instruction after the call, then [LCL], [ARG], [THIS], [THAT]; [ARG]
    points to the first of the [n] arguments and [LCL] and the stack pointer
    to the cell after the frame.  If the callee keeps that frame and [LCL]
    and [ARG], then its [return], wherever it stands in the program, puts
    the word on top of its stack in place of the first argument, sets the
    stack pointer to the cell after it, gives [LCL], [ARG], [THIS] and
    [THAT] the values they had before the call, and goes on at the
    instruction after the call. *)
Theorem call_then_return labels vars rom p q m self self' f n target
  code_c code_r S fv rv :
  let sym := Hack.symbol_value labels vars in
  let ret := "RETURN_" ++ Py.str_int (return_counter self) in
  closed (write_file self) = false -> closed (write_file self') = false ->
  0 <= n ->
  Hack.parse_operand f = Some target ->
  Hack.instructions (Job.emitted (write_call f (Some n)) self) = Some code_c ->
  Hack.loaded rom p code_c -> Hack.PC m = p ->
  Hack.instructions (Job.emitted write_return self') = Some code_r ->
  Hack.loaded rom q code_r ->
  Hack.lookup ret labels = Some (p + 42) -> p + 42 < 32768 ->
  sym "frame" = fv -> sym "return" = rv ->
  16 <= fv < 256 -> 16 <= rv < 256 -> fv <> rv ->
  Hack.RAM m 0 = S -> 256 <= S - n -> S + 5 < 32767 ->
  Hack.after 42 sym rom m (fun mc =>
    Hack.PC mc = Hack.addr (Hack.operand_value sym target) /\
    Hack.RAM mc 0 = S + 5 /\ Hack.RAM mc 1 = S + 5 /\ Hack.RAM mc 2 = S - n /\
    Hack.RAM mc S = p + 42 /\
    Hack.RAM mc (S + 1) = Hack.RAM m 1 /\ Hack.RAM mc (S + 2) = Hack.RAM m 2 /\
    Hack.RAM mc (S + 3) = Hack.RAM m 3 /\ Hack.RAM mc (S + 4) = Hack.RAM m 4) /\
  (forall mr T,
     Hack.PC mr = q -> Hack.RAM mr 0 = T -> S + 5 < T < 32768 ->
     Hack.RAM mr 1 = S + 5 -> Hack.RAM mr 2 = S - n ->
     Hack.RAM mr S = p + 42 ->
     Hack.RAM mr (S + 1) = Hack.RAM m 1 -> Hack.RAM mr (S + 2) = Hack.RAM m 2 ->
     Hack.RAM mr (S + 3) = Hack.RAM m 3 -> Hack.RAM mr (S + 4) = Hack.RAM m 4 ->
     Hack.after 49 sym rom mr (fun m' =>
       Hack.PC m' = p + 42 /\
       Hack.RAM m' 0 = S - n + 1 /\
       Hack.RAM m' (S - n) = Hack.RAM mr (T - 1) /\
       Hack.RAM m' 1 = Hack.RAM m 1 /\ Hack.RAM m' 2 = Hack.RAM m 2 /\
       Hack.RAM m' 3 = Hack.RAM m 3 /\ Hack.RAM m' 4 = Hack.RAM m 4)).
Proof.
  intros sym ret Hc Hc' Hn Htarget Hcode Hl Hpc Hcode' Hl' Hlab Bp Hfv Hrv Bfv Brv
         Hne HS B1 B2.
  assert (Hret : sym ret = p + 42).
  { unfold sym, Hack.symbol_value.
    change (Hack.lookup ret Hack.predefined) with (@None Z). now rewrite Hlab. }
  assert (Hsp : sym "SP" = 0) by reflexivity.
  assert (Hlcl : sym "LCL" = 1) by reflexivity.
  assert (Harg : sym "ARG" = 2) by reflexivity.
  assert (Hthis : sym "THIS" = 3) by reflexivity.
  assert (Hthat : sym "THAT" = 4) by reflexivity.
  clearbody sym.
  split.
  - rewrite (emitted_write_call self f n Hc) in Hcode. cbv zeta in Hcode. fold ret in Hcode.
    assert (Hcode2 : Hack.instructions
      (["@" ++ ret; "D=A"] +++ ["@SP"; "AM=M+1"; "A=A-1"; "M=D"] +++
       ["@LCL"; "D=M"] +++ ["@SP"; "AM=M+1"; "A=A-1"; "M=D"] +++
       ["@ARG"; "D=M"] +++ ["@SP"; "AM=M+1"; "A=A-1"; "M=D"] +++
       ["@THIS"; "D=M"] +++ ["@SP"; "AM=M+1"; "A=A-1"; "M=D"] +++
       ["@THAT"; "D=M"] +++ ["@SP"; "AM=M+1"; "A=A-1"; "M=D"] +++
       ["@SP"; "D=M"; "@" ++ Py.str_int (n + 5); "D=D-A"; "@ARG"; "M=D"] +++
       ["@SP"; "D=M"; "@LCL"; "M=D"] +++
       ["@" ++ f; "0;JMP"] +++
       ["(" ++ ret ++ ")"]) = Some code_c).
    { destruct (log_vm_commands self); cbn [app] in Hcode |- *.
      - now rewrite instructions_skip in Hcode by reflexivity.
      - exact Hcode. }
    destruct (call_body_run sym rom p m ret f n code_c target S Hsp Hlcl Harg Hthis Hthat)
      as (_ & _ & _ & _ & _ & _ & _ & mc & Hs & Q);
      try assumption; try lia.
    { apply parse_operand_RETURN. }
    destruct Q as (Q0 & Q1 & Q2 & Q3 & Q4 & Q5 & Q6 & Q7 & Q8).
    exists mc. split; [exact Hs|]. rewrite Hret in Q1. auto 10.
  - intros mr T Hq HT BT H1 H2 H3 H4 H5 H6 H7.
    rewrite (emitted_write_return self' Hc') in Hcode'.
    assert (Hcode2 : Hack.instructions
      [ "@LCL"; "D=M"; "@frame"; "M=D";
        "@5"; "A=D-A"; "D=M"; "@return"; "M=D";
        "@SP"; "AM=M-1"; "D=M"; "@ARG"; "A=M"; "M=D";
        "D=A+1"; "@SP"; "M=D";
        "@frame"; "D=M"; "@1"; "A=D-A"; "D=M"; "@THAT"; "M=D";
        "@frame"; "D=M"; "@2"; "A=D-A"; "D=M"; "@THIS"; "M=D";
        "@frame"; "D=M"; "@3"; "A=D-A"; "D=M"; "@ARG"; "M=D";
        "@frame"; "D=M"; "@4"; "A=D-A"; "D=M"; "@LCL"; "M=D";
        "@return"; "A=M"; "0;JMP" ] = Some code_r).
    { destruct (log_vm_commands self'); exact Hcode'. }
    destruct (return_run sym rom q mr code_r fv rv T (S + 5) (S - n)
                Hsp Hlcl Harg Hthis Hthat Hcode2 Hl' Hq Hfv Hrv Bfv Brv Hne HT H1 H2)
      as (m' & Hs & R0 & R1 & R2 & R3 & R4 & R5 & R6); try lia.
    exists m'. split; [exact Hs|].
    replace (S + 5 - 5) with S in R0 by lia.
    replace (S + 5 - 1) with (S + 4) in R3 by lia.
    replace (S + 5 - 2) with (S + 3) in R4 by lia.
    replace (S + 5 - 3) with (S + 2) in R5 by lia.
    replace (S + 5 - 4) with (S + 1) in R6 by lia.
    assert (Hp0 : 0 <= p) by (destruct Hl; assumption).
    rewrite H3 in R0. rewrite addr_small in R0 by lia.
    rewrite H7 in R3. rewrite H6 in R4. rewrite H5 in R5. rewrite H4 in R6.
    auto 10.
Qed.

Lemma call_then_return_witness :
  let text := Sample.call_and_return in
  let code := Sample.code_of text in
  let sym := Sample.symbols_of text in
  Hack.after 42 sym code Sample.calling (fun mc =>
    Hack.PC mc = Hack.addr (sym "Main.add") /\
    Hack.RAM mc 0 = 268 /\ Hack.RAM mc 1 = 268 /\ Hack.RAM mc 2 = 261 /\
    Hack.RAM mc 263 = 42) /\
  Hack.after 49 sym code Sample.returning_to_caller (fun m' =>
    Hack.PC m' = 42 /\ Hack.RAM m' 0 = 262 /\ Hack.RAM m' 261 = 7 /\
    Hack.RAM m' 1 = 256 /\ Hack.RAM m' 2 = 250 /\
    Hack.RAM m' 3 = 3000 /\ Hack.RAM m' 4 = 4000).
Proof.
  intros text code sym.
  assert (L : Hack.loaded code 0
                (Sample.code_of (Job.emitted (write_call "Main.add" (Some 2)) Sample.writer) +++
                 Sample.code_of (Job.emitted write_return Sample.writer))).
  { apply loaded_self. }
  destruct (call_then_return (Hack.label_table text)
              (Hack.variables (Hack.label_table text) code) code 0 42 Sample.calling
              Sample.writer Sample.writer "Main.add" 2 (Hack.Sym "Main.add")
              (Sample.code_of (Job.emitted (write_call "Main.add" (Some 2)) Sample.writer))
              (Sample.code_of (Job.emitted write_return Sample.writer))
              263 17 18) as [H1 H2];
    try reflexivity; try lia.
  - exact (loaded_app_l _ _ _ _ L).
  - exact (loaded_app_r _ _ _ _ L).
  - split.
    + destruct H1 as (mc & Hs & Q). exists mc. split; [exact Hs|].
      repeat split; apply Q.
    + apply (H2 Sample.returning_to_caller 269); try reflexivity; lia.
Defined.
